(* ===================================================================== *)
(* TailingsIQ frontend: role-based permission evaluator and session      *)
(* manager, embedded from                                                *)
(*   frontend/src/contexts/UserRoleContext.jsx  (UserRoleProvider, and   *)
(*                                  the AuthProvider of AuthContext)     *)
(*   frontend/src/api/tailingsIQApi.js          (client, interceptors)   *)
(*   the useAuth hook module                    (refreshToken)           *)
(*   frontend/src/App.jsx                       (ProtectedRoute, routes) *)
(*   the Sidebar component                      (navigationItems)        *)
(* ===================================================================== *)

From Stdlib Require Import ZArith.
From stdpp Require Import gmap strings list fin_maps.

Local Open Scope Z_scope.
Local Open Scope string_scope.

(* --------------------------------------------------------------------- *)
(* JavaScript value conventions used by the sources                      *)
(* --------------------------------------------------------------------- *)
(* A JS variable that holds a string or null/undefined is an
   [option string]; a plain object used as a dictionary is a [gmap] over
   its own keys, read through [JS.get], which adds the members every
   object literal inherits from Object.prototype; an object whose key
   order is observed (Object.entries) is an association list. *)
Module JS.

(* ToBoolean on a string-or-null value: null, undefined and the empty
   string are falsy. *)
Definition truthy (v : option string) : bool :=
  match v with
  | Some s => negb (String.eqb s "")
  | None => false
  end.

(* [v || d] for a string-or-undefined [v]. *)
Definition str_or (v : option string) (d : string) : string :=
  match v with
  | Some s => if String.eqb s "" then d else s
  | None => d
  end.

(* [v || d] for a number-or-undefined [v]: 0 is falsy. *)
Definition num_or (v : option Z) (d : Z) : Z :=
  match v with
  | Some n => if Z.eqb n 0 then d else n
  | None => d
  end.

(* Array.prototype.includes on an array of strings. *)
Definition includes (l : list string) (x : string) : bool :=
  bool_decide (x ∈ l).

(* Object.entries / Object.values of an insertion-ordered object. *)
Definition entries {A} (o : list (string * A)) : list (string * A) := o.
Definition values {A} (o : list (string * A)) : list A := o.*2.

(* How a call completes: with a value, or by throwing a TypeError. *)
Inductive Completion (A : Type) :=
| Normal (a : A)
| Throw.
Arguments Normal {A} a.
Arguments Throw {A}.

#[global] Instance Completion_eq_dec {A} `{EqDecision A} :
  EqDecision (Completion A).
Proof. solve_decision. Defined.

(* The own property names of Object.prototype.  Every object literal
   inherits them: all are built-in functions, except __proto__, an
   accessor that gives Object.prototype itself. *)
Definition objectPrototypeNames : list string :=
  [ "constructor"; "__defineGetter__"; "__defineSetter__"; "hasOwnProperty";
    "__lookupGetter__"; "__lookupSetter__"; "isPrototypeOf";
    "propertyIsEnumerable"; "toString"; "valueOf"; "__proto__";
    "toLocaleString" ].

(* What a table lookup, or a lookup with default [o[k] || d], can give: a
   value of the table's kind, a built-in function of Object.prototype, or
   Object.prototype itself. *)
Inductive Slot (A : Type) :=
| Val (a : A)
| Builtin (name : string)
| Proto.
Arguments Val {A} a.
Arguments Builtin {A} name.
Arguments Proto {A}.

(* [o[k]] on an object literal whose own properties are those of [o]:
   an own property, else an inherited one, else undefined. *)
Definition get {A} (o : gmap string A) (k : string) : option (Slot A) :=
  match o !! k with
  | Some a => Some (Val a)
  | None =>
      if bool_decide (k ∈ objectPrototypeNames)
      then Some (if String.eqb k "__proto__" then Proto else Builtin k)
      else None
  end.

(* The strings that the values below turn into when compared: the result
   of Object.prototype.toString on undefined and on an ordinary object, and
   the source text of a built-in function.  None of them is a numeric
   literal. *)
Inductive Text :=
| UndefinedTag
| ObjectTag
| FunctionSource (key : string).

(* The name of the function found under a key of Object.prototype: the
   key itself, except that constructor holds the function Object. *)
Definition builtinName (key : string) : string :=
  if String.eqb key "constructor" then "Object" else key.

Definition textOf (t : Text) : string :=
  match t with
  | UndefinedTag => "[object Undefined]"
  | ObjectTag => "[object Object]"
  | FunctionSource key =>
      "function " ++ builtinName key ++ "() { [native code] }"
  end.

(* ToPrimitive of an operand of a relational operator. *)
Inductive Comparand :=
| CNum (n : Z)
| CText (t : Text).

(* The abstract relational comparison [x < y]: two strings are compared
   by code units, otherwise both sides become numbers; [None] is the
   undefined result when a side is NaN. *)
Definition lt (x y : Comparand) : option bool :=
  match x, y with
  | CNum a, CNum b => Some (Z.ltb a b)
  | CText s, CText t => Some (String.ltb (textOf s) (textOf t))
  | _, _ => None
  end.

(* x > y, x >= y and x <= y in terms of it. *)
Definition gt (x y : Comparand) : bool :=
  match lt y x with Some r => r | None => false end.

Definition ge (x y : Comparand) : bool :=
  match lt x y with Some r => negb r | None => false end.

Definition le (x y : Comparand) : bool :=
  match lt y x with Some r => negb r | None => false end.

Definition slotComparand (v : Slot Z) : Comparand :=
  match v with
  | Val n => CNum n
  | Builtin name => CText (FunctionSource name)
  | Proto => CText ObjectTag
  end.

End JS.

(* --------------------------------------------------------------------- *)
(* UserRoleContext.jsx: static tables                                    *)
(* --------------------------------------------------------------------- *)

Definition SUPER_ADMIN := "super_admin".
Definition ADMIN := "admin".
Definition ENGINEER_OF_RECORD := "engineer_of_record".
Definition TSF_OPERATOR := "tsf_operator".
Definition REGULATOR := "regulator".
Definition MANAGEMENT := "management".
Definition CONSULTANT := "consultant".
Definition VIEWER := "viewer".

(* export const USER_ROLES: key order as written, it is what
   Object.entries(USER_ROLES) enumerates. *)
Definition USER_ROLES : list (string * string) :=
  [ ("SUPER_ADMIN", SUPER_ADMIN);
    ("ADMIN", ADMIN);
    ("ENGINEER_OF_RECORD", ENGINEER_OF_RECORD);
    ("TSF_OPERATOR", TSF_OPERATOR);
    ("REGULATOR", REGULATOR);
    ("MANAGEMENT", MANAGEMENT);
    ("CONSULTANT", CONSULTANT);
    ("VIEWER", VIEWER) ].

(* Object.values(USER_ROLES): the 8 role names. *)
Definition knownRoles : list string := JS.values USER_ROLES.

Definition ROLE_HIERARCHY : gmap string Z :=
  list_to_map
    [ (SUPER_ADMIN, 8);
      (ADMIN, 7);
      (ENGINEER_OF_RECORD, 6);
      (MANAGEMENT, 5);
      (TSF_OPERATOR, 4);
      (REGULATOR, 3);
      (CONSULTANT, 2);
      (VIEWER, 1) ].

Definition PERMISSIONS : gmap string (list string) :=
  list_to_map
    [ (* Admin permissions *)
      ("canAccessAdminPanel", [SUPER_ADMIN; ADMIN]);
      ("canManageUsers", [SUPER_ADMIN; ADMIN]);
      ("canDeleteUsers", [SUPER_ADMIN]);
      ("canResetPasswords", [SUPER_ADMIN; ADMIN]);
      (* Document permissions *)
      ("canUploadDocuments",
        [SUPER_ADMIN; ADMIN; ENGINEER_OF_RECORD; TSF_OPERATOR; MANAGEMENT]);
      ("canDeleteDocuments", [SUPER_ADMIN; ADMIN; ENGINEER_OF_RECORD]);
      ("canViewAllDocuments",
        [SUPER_ADMIN; ADMIN; ENGINEER_OF_RECORD; REGULATOR; MANAGEMENT]);
      (* Monitoring permissions *)
      ("canViewMonitoring",
        [SUPER_ADMIN; ADMIN; ENGINEER_OF_RECORD; TSF_OPERATOR; REGULATOR;
         MANAGEMENT; CONSULTANT; VIEWER]);
      ("canEditMonitoring",
        [SUPER_ADMIN; ADMIN; ENGINEER_OF_RECORD; TSF_OPERATOR]);
      (* Compliance permissions *)
      ("canViewCompliance",
        [SUPER_ADMIN; ADMIN; ENGINEER_OF_RECORD; REGULATOR; MANAGEMENT]);
      ("canEditCompliance", [SUPER_ADMIN; ADMIN; ENGINEER_OF_RECORD]);
      (* AI Query permissions *)
      ("canUseAIQuery",
        [SUPER_ADMIN; ADMIN; ENGINEER_OF_RECORD; TSF_OPERATOR; REGULATOR;
         MANAGEMENT; CONSULTANT]);
      (* Synthetic data permissions *)
      ("canGenerateSyntheticData", [SUPER_ADMIN; ADMIN; ENGINEER_OF_RECORD]);
      ("canViewSyntheticData",
        [SUPER_ADMIN; ADMIN; ENGINEER_OF_RECORD; TSF_OPERATOR]) ].

(* --------------------------------------------------------------------- *)
(* Users                                                                 *)
(* --------------------------------------------------------------------- *)

(* The user object the backend returns.  [role] and [facilities_access]
   may be missing from the payload. *)
Record User := {
  id : Z;
  username : string;
  role : option string;
  facilities_access : option (list string)
}.

(* --------------------------------------------------------------------- *)
(* UserRoleContext.jsx: UserRoleProvider                                 *)
(* --------------------------------------------------------------------- *)

(* The expression [ROLE_HIERARCHY[r] || 0] the provider repeats: the
   table's number, 0 for a name the object does not have, and the
   inherited member for a name of Object.prototype. *)
Definition levelOf (r : string) : JS.Slot Z :=
  match JS.get ROLE_HIERARCHY r with
  | Some (JS.Val n) => JS.Val (JS.num_or (Some n) 0)
  | Some (JS.Builtin name) => JS.Builtin name
  | Some JS.Proto => JS.Proto
  | None => JS.Val 0
  end.

(* The primitive values the level cell can hold. *)
Inductive Prim :=
| PNum (n : Z)
| PUndefinedTag            (* the string [object Undefined] *)
| PFalse.

(* The values the level cell can hold: a primitive, the wrapper object of
   a primitive, or Object.prototype. *)
Inductive Level :=
| LPrim (p : Prim)
| LBoxed (p : Prim)
| LProto.

Definition primComparand (p : Prim) : JS.Comparand :=
  match p with
  | PNum n => JS.CNum n
  | PUndefinedTag => JS.CText JS.UndefinedTag
  | PFalse => JS.CNum 0
  end.

Definition levelComparand (l : Level) : JS.Comparand :=
  match l with
  | LPrim p => primComparand p
  | LBoxed p => primComparand p
  | LProto => JS.CText JS.ObjectTag
  end.

(* The provider's two state cells. *)
Record RoleState := {
  userRole : option string;
  roleLevel : Level
}.

(* useState(null), useState(0) *)
Definition initialRoleState : RoleState :=
  {| userRole := None; roleLevel := LPrim (PNum 0) |}.

(* A state setter called with a function takes it as an updater and
   stores what the function returns for the previous state.  Here the
   function is a built-in of Object.prototype, called without receiver:
   Object boxes a primitive and returns an object as it is, toString gives
   the tag of undefined, isPrototypeOf answers false for a primitive, and
   every other one throws, as isPrototypeOf does for an object, when it
   turns its missing receiver into an object. *)
Definition applyUpdater (name : string) (prev : Level) : JS.Completion Level :=
  if String.eqb name "constructor"
  then JS.Normal (match prev with LPrim p => LBoxed p | l => l end)
  else if String.eqb name "toString"
  then JS.Normal (LPrim PUndefinedTag)
  else if String.eqb name "isPrototypeOf"
  then match prev with
       | LPrim _ => JS.Normal (LPrim PFalse)
       | _ => JS.Throw
       end
  else JS.Throw.

(* setRoleLevel(v) *)
Definition setRoleLevel (v : JS.Slot Z) (prev : Level) : JS.Completion Level :=
  match v with
  | JS.Val n => JS.Normal (LPrim (PNum n))
  | JS.Proto => JS.Normal LProto
  | JS.Builtin name => applyUpdater name prev
  end.

(* useEffect(..., [currentUser]): recompute role and level from the state
   [prev] the provider is in. *)
Definition syncRole (prev : RoleState) (currentUser : option User)
  : JS.Completion RoleState :=
  match currentUser ≫= role with
  | Some r =>
      if JS.truthy (Some r)
      then match setRoleLevel (levelOf r) (roleLevel prev) with
           | JS.Normal l => JS.Normal {| userRole := Some r; roleLevel := l |}
           | JS.Throw => JS.Throw
           end
      else JS.Normal {| userRole := None; roleLevel := LPrim (PNum 0) |}
  | None => JS.Normal {| userRole := None; roleLevel := LPrim (PNum 0) |}
  end.

(* The effect run in the initial state for a user of role [R]. *)
Definition underRole (R : string) : JS.Completion RoleState :=
  syncRole initialRoleState
    (Some {| id := 0; username := ""; role := Some R;
             facilities_access := None |}).

Definition hasPermission (st : RoleState) (permission : string)
  : JS.Completion bool :=
  if negb (JS.truthy (userRole st)) then JS.Normal false
  else
    match JS.get PERMISSIONS permission with
    | None => JS.Normal false
    | Some (JS.Val roles) =>
        JS.Normal (JS.includes roles (default "" (userRole st)))
    | Some (JS.Builtin _) => JS.Throw   (* .includes is not a function *)
    | Some JS.Proto => JS.Throw
    end.

Definition hasRoleLevel (st : RoleState) (requiredLevel : Z) : bool :=
  JS.ge (levelComparand (roleLevel st)) (JS.CNum requiredLevel).

Definition hasHigherRoleThan (st : RoleState) (otherUserRole : string) : bool :=
  let otherRoleLevel := levelOf otherUserRole in
  JS.gt (levelComparand (roleLevel st)) (JS.slotComparand otherRoleLevel).

Definition roleNames : gmap string string :=
  list_to_map
    [ (SUPER_ADMIN, "Super Administrator");
      (ADMIN, "Administrator");
      (ENGINEER_OF_RECORD, "Engineer of Record");
      (TSF_OPERATOR, "TSF Operator");
      (REGULATOR, "Regulator");
      (MANAGEMENT, "Management");
      (CONSULTANT, "Consultant");
      (VIEWER, "Viewer") ].

Definition roleColors : gmap string string :=
  list_to_map
    [ (SUPER_ADMIN, "#d32f2f");
      (ADMIN, "#f57c00");
      (ENGINEER_OF_RECORD, "#006039");
      (TSF_OPERATOR, "#1976d2");
      (REGULATOR, "#7b1fa2");
      (MANAGEMENT, "#388e3c");
      (CONSULTANT, "#0288d1");
      (VIEWER, "#616161") ].

(* [table[role] || fallback] for a role name, or for null, which no table
   has under the key it turns into. *)
Definition lookupOr (table : gmap string string) (role : option string)
    (fallback : string) : JS.Slot string :=
  match role ≫= JS.get table with
  | Some (JS.Val s) => JS.Val (JS.str_or (Some s) fallback)
  | Some (JS.Builtin name) => JS.Builtin name
  | Some JS.Proto => JS.Proto
  | None => JS.Val fallback
  end.

(* getRoleDisplayName(role = userRole): [None] is the omitted argument. *)
Definition getRoleDisplayName (st : RoleState) (role : option string)
  : JS.Slot string :=
  let role := match role with Some r => Some r | None => userRole st end in
  lookupOr roleNames role "Unknown Role".

Definition getRoleColor (st : RoleState) (role : option string)
  : JS.Slot string :=
  let role := match role with Some r => Some r | None => userRole st end in
  lookupOr roleColors role "#616161".

Definition canAccessFacility
    (currentUser : option User) (st : RoleState) (facilityId : string)
  : JS.Completion bool :=
  match currentUser ≫= facilities_access with
  | None => hasPermission st "canViewAllDocuments"
  | Some fa =>
      if JS.includes fa facilityId then JS.Normal true
      else hasPermission st "canViewAllDocuments"
  end.

Record RoleOption := {
  value : string;
  label : JS.Slot string;
  color : JS.Slot string
}.

Definition getAvailableRoles (st : RoleState) : list RoleOption :=
  (λ '(_, v), {| value := v;
                 label := getRoleDisplayName st (Some v);
                 color := getRoleColor st (Some v) |})
  <$> filter (λ '(_, roleValue),
                JS.le (JS.slotComparand (levelOf roleValue))
                      (levelComparand (roleLevel st)) = true)
             (JS.entries USER_ROLES).

(* The level the ROLE_HIERARCHY table lists for a role, 0 when it lists
   none: what [levelOf] gives for every name outside Object.prototype. *)
Definition tableLevel (r : string) : Z :=
  JS.num_or (ROLE_HIERARCHY !! r) 0.

(* The state the effect leaves for a user of role [R], for a non-empty
   [R] outside Object.prototype. *)
Definition atRole (R : string) : RoleState :=
  {| userRole := Some R; roleLevel := LPrim (PNum (tableLevel R)) |}.

(* --------------------------------------------------------------------- *)
(* Process-wide state: browser storage, location, API client defaults,   *)
(* AuthProvider state cells, and the state of the useAuth hook           *)
(* --------------------------------------------------------------------- *)

Record World := {
  localStorage : gmap string string;
  href : string;                       (* window.location.href *)
  common : gmap string string;         (* tailingsIQApi.defaults.headers.common *)
  currentUser : option User;           (* useState(null) *)
  loading : bool;                      (* useState(true) *)
  token : option string;               (* useState(localStorage.getItem(..)) *)
  hookLoading : bool;                  (* hooks/useAuth: useState(false) *)
  hookError : option string            (* hooks/useAuth: useState(null) *)
}.

Definition setItem (k v : string) (w : World) : World :=
  {| localStorage := <[k := v]> (localStorage w); href := href w;
     common := common w; currentUser := currentUser w; loading := loading w;
     token := token w; hookLoading := hookLoading w; hookError := hookError w |}.

Definition removeItem (k : string) (w : World) : World :=
  {| localStorage := delete k (localStorage w); href := href w;
     common := common w; currentUser := currentUser w; loading := loading w;
     token := token w; hookLoading := hookLoading w; hookError := hookError w |}.

Definition getItem (k : string) (w : World) : option string :=
  localStorage w !! k.

Definition setHref (h : string) (w : World) : World :=
  {| localStorage := localStorage w; href := h;
     common := common w; currentUser := currentUser w; loading := loading w;
     token := token w; hookLoading := hookLoading w; hookError := hookError w |}.

Definition setCommon (k v : string) (w : World) : World :=
  {| localStorage := localStorage w; href := href w;
     common := <[k := v]> (common w); currentUser := currentUser w;
     loading := loading w; token := token w; hookLoading := hookLoading w;
     hookError := hookError w |}.

Definition deleteCommon (k : string) (w : World) : World :=
  {| localStorage := localStorage w; href := href w;
     common := delete k (common w); currentUser := currentUser w;
     loading := loading w; token := token w; hookLoading := hookLoading w;
     hookError := hookError w |}.

Definition setCurrentUser (u : option User) (w : World) : World :=
  {| localStorage := localStorage w; href := href w;
     common := common w; currentUser := u; loading := loading w;
     token := token w; hookLoading := hookLoading w; hookError := hookError w |}.

Definition setLoading (b : bool) (w : World) : World :=
  {| localStorage := localStorage w; href := href w;
     common := common w; currentUser := currentUser w; loading := b;
     token := token w; hookLoading := hookLoading w; hookError := hookError w |}.

Definition setToken (t : option string) (w : World) : World :=
  {| localStorage := localStorage w; href := href w;
     common := common w; currentUser := currentUser w; loading := loading w;
     token := t; hookLoading := hookLoading w; hookError := hookError w |}.

Definition setError (e : option string) (w : World) : World :=
  {| localStorage := localStorage w; href := href w;
     common := common w; currentUser := currentUser w; loading := loading w;
     token := token w; hookLoading := hookLoading w; hookError := e |}.

(* --------------------------------------------------------------------- *)
(* api/tailingsIQApi.js: the client and its interceptors                 *)
(* --------------------------------------------------------------------- *)

Definition TOKEN_KEY := "tailingsiq_token".

(* error.response: the HTTP status and, when the body carries one,
   the message string under data.detail *)
Record ErrorResponse := {
  status : Z;
  detail : option string
}.

(* The rejection value of a request; [response = None] when no response
   was received. *)
Record AxiosError := {
  response : option ErrorResponse;
  message : string
}.

(* How the promise of a request settles; the backend's answer is an input
   of the model. *)
Inductive Settled (A : Type) :=
| Fulfilled (data : A)
| Rejected (error : AxiosError).
Arguments Fulfilled {A} data.
Arguments Rejected {A} error.

Record RequestConfig := {
  method : string;
  url : string;
  headers : gmap string string
}.

(* Template literal `Bearer ${token}`. *)
Definition bearer (token : option string) : string :=
  "Bearer " ++ default "null" token.

(* interceptors.request.use: fulfilled handler *)
Definition requestInterceptor (w : World) (config : RequestConfig) : RequestConfig :=
  let token := getItem TOKEN_KEY w in
  if JS.truthy token
  then {| method := method config; url := url config;
          headers := <["Authorization" := bearer token]> (headers config) |}
  else config.

(* error.response?.status === 401 *)
Definition isUnauthorized (error : AxiosError) : bool :=
  match response error with
  | Some r => Z.eqb (status r) 401
  | None => false
  end.

(* interceptors.response.use: rejected handler; the promise stays rejected
   with the same error. *)
Definition responseInterceptor (w : World) (error : AxiosError) : World :=
  if isUnauthorized error
  then setHref "/login" (removeItem TOKEN_KEY w)
  else w.

(* The configuration a call on the client starts from: the instance
   headers of axios.create merged with defaults.headers.common. *)
Definition baseConfig (w : World) (m u : string) : RequestConfig :=
  {| method := m; url := u;
     headers := common w ∪ {["Content-Type" := "application/json"]} |}.

(* What leaves the browser for a call on the client. *)
Definition outgoing (w : World) (m u : string) : RequestConfig :=
  requestInterceptor w (baseConfig w m u).

(* What the caller's await sees, and the state after the response stage. *)
Definition settle {A} (w : World) (answer : Settled A) : World * Settled A :=
  match answer with
  | Fulfilled d => (w, Fulfilled d)
  | Rejected e => (responseInterceptor w e, Rejected e)
  end.

(* One round trip of tailingsIQApi.get/post/put. *)
Definition request {A} (w : World) (m u : string) (answer : Settled A)
  : World * RequestConfig * Settled A :=
  let '(w', r) := settle w answer in (w', outgoing w m u, r).

(* --------------------------------------------------------------------- *)
(* contexts/AuthContext.jsx: AuthProvider                                *)
(* --------------------------------------------------------------------- *)

(* response.data of POST /auth/login *)
Record LoginData := {
  access_token : string;
  user : User
}.

(* The object the AuthProvider operations return to their caller. *)
Record Result := {
  success : bool;
  error : option string
}.

(* error.response?.data?.detail *)
Definition detailOf (e : AxiosError) : option string :=
  response e ≫= detail.

Definition succeeded : Result := {| success := true; error := None |}.

(* { success: false, error: error.response?.data?.detail || fallback } *)
Definition failed (e : AxiosError) (fallback : string) : Result :=
  {| success := false; error := Some (JS.str_or (detailOf e) fallback) |}.

(* The provider's state when the page is loaded with the given storage. *)
Definition AuthProvider (storage : gmap string string) (location : string) : World :=
  {| localStorage := storage; href := location; common := ∅;
     currentUser := None; loading := true; token := storage !! TOKEN_KEY;
     hookLoading := false; hookError := None |}.

(* validateToken up to its await: the header is set on the client. *)
Definition validateTokenStart (w : World) : World :=
  setCommon "Authorization" (bearer (token w)) w.

(* validateToken from the moment GET /auth/me settles. *)
Definition validateTokenSettle (w : World) (answer : Settled User) : World :=
  let '(w, r) := settle w answer in
  let w :=
    match r with
    | Fulfilled data => setCurrentUser (Some data) w
    | Rejected _ =>
        deleteCommon "Authorization"
          (setCurrentUser None (setToken None (removeItem TOKEN_KEY w)))
    end in
  setLoading false w.

Definition validateToken (w : World) (answer : Settled User) : World :=
  validateTokenSettle (validateTokenStart w) answer.

(* The body of useEffect(..., [token]) up to the first await. *)
Definition tokenEffectStart (w : World) : World :=
  if JS.truthy (token w) then validateTokenStart w else setLoading false w.

(* Startup, run to completion: the effect and, when it starts one, the
   token validation with the backend's answer. *)
Definition initialize (w : World) (answer : Settled User) : World :=
  if JS.truthy (token w) then validateToken w answer else setLoading false w.

Definition login (w : World) (username password : string)
    (answer : Settled LoginData) : World * Result :=
  let '(w, r) := settle w answer in
  match r with
  | Fulfilled d =>
      let w := setItem TOKEN_KEY (access_token d) w in
      let w := setToken (Some (access_token d)) w in
      let w := setCommon "Authorization" (bearer (Some (access_token d))) w in
      let w := setCurrentUser (Some (user d)) w in
      (w, succeeded)
  | Rejected e => (w, failed e "Login failed")
  end.

(* logout from the moment its try block is left: [answer] is how
   POST /auth/logout settled, [None] when the call was skipped. *)
Definition logoutSettle (w : World) (answer : option (Settled unit)) : World :=
  let w := match answer with
           | Some a => (settle w a).1
           | None => w
           end in
  deleteCommon "Authorization"
    (setCurrentUser None (setToken None (removeItem TOKEN_KEY w))).

Definition logout (w : World) (answer : Settled unit) : World :=
  logoutSettle w (if JS.truthy (token w) then Some answer else None).

Definition updateProfile (w : World) (answer : Settled User) : World * Result :=
  let '(w, r) := settle w answer in
  match r with
  | Fulfilled data => (setCurrentUser (Some data) w, succeeded)
  | Rejected e => (w, failed e "Profile update failed")
  end.

(* changePassword, requestPasswordReset and resetPassword differ in the
   endpoint and the fallback message only. *)
Definition plainCall (fallback : string) (w : World) (answer : Settled unit)
  : World * Result :=
  let '(w, r) := settle w answer in
  match r with
  | Fulfilled _ => (w, succeeded)
  | Rejected e => (w, failed e fallback)
  end.

Definition changePassword := plainCall "Password change failed".
Definition requestPasswordReset := plainCall "Password reset request failed".
Definition resetPassword := plainCall "Password reset failed".

(* --------------------------------------------------------------------- *)
(* The useAuth hook module: refreshToken                                 *)
(* --------------------------------------------------------------------- *)

Definition handleError (err : AxiosError) (w : World) : World :=
  let errorMessage :=
    JS.str_or (detailOf err)
      (JS.str_or (Some (message err)) "Authentication failed") in
  setError (Some errorMessage) w.

(* [tailingsIQApi.auth.f(...)] in the hook modules.  There tailingsIQApi
   is the default export of the API module, the axios instance, which has
   no member auth: the member access on undefined throws a TypeError
   before any request is made.  The error carries no response; its message
   is the engine's text. *)
Definition apiGroupCall {A : Type} (engineMessage : string) : Settled A :=
  Rejected {| response := None; message := engineMessage |}.

(* try { response = await ...; return response.data }
   catch (err) { handleError(err); throw err } *)
Definition refreshToken (w : World) (engineMessage : string)
  : World * Settled string :=
  match apiGroupCall engineMessage with
  | Fulfilled data => (w, Fulfilled data)
  | Rejected err => (handleError err w, Rejected err)
  end.

(* --------------------------------------------------------------------- *)
(* The event loop: one event per continuation the runtime may schedule   *)
(* --------------------------------------------------------------------- *)

Inductive Event :=
| Reload                                   (* the page is loaded again *)
| TokenEffect                              (* useEffect(.., [token]) runs *)
| ValidateSettled (a : Settled User)
| LoginSettled (a : Settled LoginData)
| LogoutSettled (a : option (Settled unit))
| UpdateProfileSettled (a : Settled User)
| PlainSettled (fallback : string) (a : Settled unit)
| RefreshSettled (engineMessage : string).   (* a refreshToken call *)

Definition step (w : World) (e : Event) : World :=
  match e with
  | Reload => AuthProvider (localStorage w) (href w)
  | TokenEffect => tokenEffectStart w
  | ValidateSettled a => validateTokenSettle w a
  | LoginSettled a => (login w "" "" a).1
  | LogoutSettled a => logoutSettle w a
  | UpdateProfileSettled a => (updateProfile w a).1
  | PlainSettled fb a => (plainCall fb w a).1
  | RefreshSettled msg => (refreshToken w msg).1
  end.

Definition run (w : World) (trace : list Event) : World :=
  foldl step w trace.

(* Session predicates.  A token counts as present when the code's own
   test [if (token)] passes. *)
Definition hasUser (w : World) : bool := bool_decide (is_Some (currentUser w)).
Definition hasToken (w : World) : bool := JS.truthy (token w).
Definition hasStoredToken (w : World) : bool := JS.truthy (getItem TOKEN_KEY w).

Definition sessionInvariant (w : World) : Prop :=
  hasUser w = true → hasToken w = true.

Definition loggedOut (w : World) : Prop :=
  token w = None ∧ currentUser w = None ∧ getItem TOKEN_KEY w = None.

(* An event that sets the user does so while a token is held: a successful
   /auth/me or /auth/profile answer arrives while the token is still set,
   and a successful login carries a non-empty access token. *)
Definition timely (w : World) (e : Event) : bool :=
  match e with
  | ValidateSettled (Fulfilled _) => hasToken w
  | UpdateProfileSettled (Fulfilled _) => hasToken w
  | LoginSettled (Fulfilled d) => JS.truthy (Some (access_token d))
  | _ => true
  end.

Fixpoint timelyRun (w : World) (trace : list Event) : bool :=
  match trace with
  | [] => true
  | e :: trace => timely w e && timelyRun (step w e) trace
  end.

(* --------------------------------------------------------------------- *)
(* App.jsx: ProtectedRoute and the route table                           *)
(* --------------------------------------------------------------------- *)

Inductive Element :=
| LoadingSpinner
| Navigate (to : string)
| Page (name : string).

(* Rendering throws when [hasPermission] does. *)
Definition ProtectedRoute (w : World) (st : RoleState)
    (requiredPermission : option string) (children : Element)
  : JS.Completion Element :=
  if loading w then JS.Normal LoadingSpinner
  else if negb (hasUser w) then JS.Normal (Navigate "/login")
  else if negb (JS.truthy requiredPermission) then JS.Normal children
  else
    match hasPermission st (default "" requiredPermission) with
    | JS.Normal granted =>
        JS.Normal (if negb granted then Navigate "/dashboard" else children)
    | JS.Throw => JS.Throw
    end.

(* <Routes> of App: exact paths first, then the catch-all. *)
Definition Routes (w : World) (st : RoleState) (path : string)
  : JS.Completion Element :=
  if String.eqb path "/login" then JS.Normal (Page "LoginPage")
  else if String.eqb path "/dashboard"
  then ProtectedRoute w st None (Page "DashboardPage")
  else if String.eqb path "/documents"
  then ProtectedRoute w st (Some "canViewDocuments") (Page "DocumentsPage")
  else if String.eqb path "/monitoring"
  then ProtectedRoute w st (Some "canViewMonitoring") (Page "MonitoringPage")
  else if String.eqb path "/ai-query"
  then ProtectedRoute w st (Some "canUseAIQuery") (Page "AIQueryPage")
  else if String.eqb path "/compliance"
  then ProtectedRoute w st (Some "canViewCompliance") (Page "CompliancePage")
  else if String.eqb path "/users"
  then ProtectedRoute w st (Some "canAccessAdminPanel") (Page "UsersPage")
  else JS.Normal (Navigate "/dashboard").

(* The sidebar's navigation entries: (path, required permission). *)
Definition navigationItems : list (string * option string) :=
  [ ("/dashboard", None);
    ("/documents", Some "canViewDocuments");
    ("/monitoring", Some "canViewMonitoring");
    ("/ai-query", Some "canUseAIQuery");
    ("/compliance", Some "canViewCompliance") ].

(* Sidebar: items.map(...), where an entry is dropped when
   [item.permission && !hasPermission(item.permission)]. *)
Fixpoint shownItems (st : RoleState) (items : list (string * option string))
  : JS.Completion (list string) :=
  match items with
  | [] => JS.Normal []
  | item :: items =>
      match (if JS.truthy item.2
             then hasPermission st (default "" item.2)
             else JS.Normal true) with
      | JS.Throw => JS.Throw
      | JS.Normal granted =>
          match shownItems st items with
          | JS.Throw => JS.Throw
          | JS.Normal rest =>
              JS.Normal (if granted then item.1 :: rest else rest)
          end
      end
  end.

Definition visibleNavigation (st : RoleState) : JS.Completion (list string) :=
  shownItems st navigationItems.

(* --------------------------------------------------------------------- *)
(* App.jsx: AppLayout.  Sidebar: the drawer and its administration part  *)
(* --------------------------------------------------------------------- *)

(* What AppLayout puts around the routed element: nothing, or the header,
   the sidebar and the main box. *)
Inductive Layout :=
| Bare (children : Element)
| Framed (children : Element).

Definition AppLayout (w : World) (children : Element) : Layout :=
  if negb (hasUser w) then Bare children else Framed children.

Definition App (w : World) (st : RoleState) (path : string)
  : JS.Completion Layout :=
  match Routes w st path with
  | JS.Normal el => JS.Normal (AppLayout w el)
  | JS.Throw => JS.Throw
  end.

(* The guarded <Route> entries of App, as written: path, required
   permission, page. *)
Definition protectedRoutes : list (string * option string * string) :=
  [ ("/dashboard", None, "DashboardPage");
    ("/documents", Some "canViewDocuments", "DocumentsPage");
    ("/monitoring", Some "canViewMonitoring", "MonitoringPage");
    ("/ai-query", Some "canUseAIQuery", "AIQueryPage");
    ("/compliance", Some "canViewCompliance", "CompliancePage");
    ("/users", Some "canAccessAdminPanel", "UsersPage") ].

Definition adminItems : list (string * option string) :=
  [ ("/users", Some "canAccessAdminPanel");
    ("/settings", Some "canAccessAdminPanel") ].

(* The paths the drawer offers.  Nothing is rendered on a mobile screen;
   the administration entries are mounted when the section is expanded
   and the drawer is not collapsed. *)
Definition Sidebar (st : RoleState) (isMobile collapsed adminExpanded : bool)
  : JS.Completion (list string) :=
  match hasPermission st "canAccessAdminPanel" with
  | JS.Throw => JS.Throw
  | JS.Normal hasAdminPermissions =>
      if isMobile then JS.Normal []
      else
        match visibleNavigation st with
        | JS.Throw => JS.Throw
        | JS.Normal shown =>
            JS.Normal
              (shown
               ++ (if hasAdminPermissions
                   then (if adminExpanded && negb collapsed
                         then adminItems.*1 else [])
                   else []))%list
        end
  end.

(* --------------------------------------------------------------------- *)
(* Session predicates used by the properties                             *)
(* --------------------------------------------------------------------- *)

(* The stored token, when there is one, is the token the provider holds. *)
Definition storedAgrees (w : World) : Prop :=
  ∀ t, getItem TOKEN_KEY w = Some t → token w = Some t.

(* Events that carry a successful login, validation or profile answer. *)
Definition establishes (e : Event) : bool :=
  match e with
  | ValidateSettled (Fulfilled _) => true
  | LoginSettled (Fulfilled _) => true
  | UpdateProfileSettled (Fulfilled _) => true
  | _ => false
  end.

(* --------------------------------------------------------------------- *)
(* The useAuth hook module: the operations beside refreshToken           *)
(* --------------------------------------------------------------------- *)

Definition setHookLoading (b : bool) (w : World) : World :=
  {| localStorage := localStorage w; href := href w;
     common := common w; currentUser := currentUser w; loading := loading w;
     token := token w; hookLoading := b; hookError := hookError w |}.

Module UseAuth.

(* login, changePassword, updateProfile, requestPasswordReset and
   resetPassword have one body.  Before the try block:
   setLoading(true); setError(null). *)
Definition callStart (w : World) : World :=
  setError None (setHookLoading true w).

(* try { response = await tailingsIQApi.auth.f(...); return response.data }
   catch (err) { handleError(err); throw err }
   finally { setLoading(false) } *)
Definition call {A : Type} (w : World) (engineMessage : string)
  : World * Settled A :=
  let w := callStart w in
  match apiGroupCall engineMessage with
  | Fulfilled data => (setHookLoading false w, Fulfilled data)
  | Rejected err => (setHookLoading false (handleError err w), Rejected err)
  end.

Definition login (w : World) (username password : string)
    (engineMessage : string) : World * Settled LoginData :=
  call w engineMessage.

Definition changePassword (w : World) (currentPassword newPassword : string)
    (engineMessage : string) : World * Settled unit :=
  call w engineMessage.

Definition updateProfile (w : World) (engineMessage : string)
  : World * Settled User :=
  call w engineMessage.

Definition requestPasswordReset (w : World) (email : string)
    (engineMessage : string) : World * Settled unit :=
  call w engineMessage.

Definition resetPassword (w : World) (resetToken newPassword : string)
    (engineMessage : string) : World * Settled unit :=
  call w engineMessage.

(* logout: setLoading(true); the catch clause only logs, so the promise
   fulfils; finally setLoading(false). *)
Definition logout (w : World) (engineMessage : string) : World :=
  let w := setHookLoading true w in
  match apiGroupCall (A := unit) engineMessage with
  | Fulfilled _ => setHookLoading false w
  | Rejected _ => setHookLoading false w
  end.

End UseAuth.

(* --------------------------------------------------------------------- *)
(* The useAPI hook module: apiCall                                       *)
(* --------------------------------------------------------------------- *)

Module UseAPI.

Record State := {
  loading : bool;
  error : option string
}.

Definition handleError (err : AxiosError) (s : State) : State :=
  let errorMessage :=
    JS.str_or (detailOf err)
      (JS.str_or (Some (message err)) "An unexpected error occurred") in
  {| loading := loading s; error := Some errorMessage |}.

Definition clearError (s : State) : State :=
  {| loading := loading s; error := None |}.

(* apiCall(apiFunction, ...args): [answer] is how apiFunction(...args)
   settles. *)
Definition apiCallStart (s : State) : State :=
  {| loading := true; error := None |}.

Definition apiCallSettle {A} (s : State) (answer : Settled A)
  : State * Settled A :=
  let s := match answer with
           | Fulfilled _ => s
           | Rejected err => handleError err s
           end in
  ({| loading := false; error := error s |}, answer).

Definition apiCall {A} (s : State) (answer : Settled A) : State * Settled A :=
  apiCallSettle (apiCallStart s) answer.

End UseAPI.

(* --------------------------------------------------------------------- *)
(* index.js: the query client's retry delay                              *)
(* --------------------------------------------------------------------- *)

(* attemptIndex => Math.min(1000 * 2 ** attemptIndex, 30000), on the
   attempt counts 0, 1, 2, ... the query client passes. *)
Definition retryDelay (attemptIndex : N) : Z :=
  Z.min (1000 * 2 ^ Z.of_N attemptIndex) 30000.

(* --------------------------------------------------------------------- *)
(* pages/LoginPage                                                       *)
(* --------------------------------------------------------------------- *)

Module LoginPage.

Record State := {
  formData : gmap string string;
  error : string
}.

Definition initial : State :=
  {| formData := {[ "username" := ""; "password" := "" ]}; error := "" |}.

(* location.state?.from?.pathname || '/dashboard' *)
Definition from (statePathname : option string) : string :=
  JS.str_or statePathname "/dashboard".

Definition handleInputChange (s : State) (name value : string) : State :=
  {| formData := <[ name := value ]> (formData s);
     error := if JS.truthy (Some (error s)) then "" else error s |}.

(* The promise of the provider's login: its body is one try/catch that
   returns in both branches, so it fulfils with a Result. *)
Definition loginPromise (w : World) (username password : string)
    (answer : Settled LoginData) : World * Settled Result :=
  let '(w', r) := login w username password answer in (w', Fulfilled r).

(* handleSubmit: the world and the page state afterwards, and the path
   passed to navigate, if it was called. *)
Definition handleSubmit (w : World) (s : State) (statePathname : option string)
    (answer : Settled LoginData) : World * State * option string :=
  let s := {| formData := formData s; error := "" |} in
  if negb (JS.truthy (formData s !! "username"))
     || negb (JS.truthy (formData s !! "password"))
  then (w, {| formData := formData s;
              error := "Please enter both username and password" |}, None)
  else
    let '(w', r) := loginPromise w (default "" (formData s !! "username"))
                      (default "" (formData s !! "password")) answer in
    match r with
    | Fulfilled _ => (w', s, Some (from statePathname))
    | Rejected err =>
        (w', {| formData := formData s;
                error := JS.str_or (detailOf err)
                           "Login failed. Please check your credentials." |},
         None)
    end.

End LoginPage.

(* --------------------------------------------------------------------- *)
(* pages/AIQueryPage                                                     *)
(* --------------------------------------------------------------------- *)

Module AIQueryPage.

Record Message := {
  sender : string;
  text : string
}.

(* A message in the format the backend takes. *)
Record ChatMessage := {
  role : string;
  content : string
}.

Record State := {
  messages : list Message;
  input : string;
  loading : bool
}.

Definition initial : State :=
  {| messages := [ {| sender := "ai";
                      text := "Hi! I am TailingsIQ AI. How can I help you today?" |} ];
     input := ""; loading := false |}.

Definition getOpenAIMessages (s : State) : list ChatMessage :=
  (λ msg, {| role := if String.eqb (sender msg) "ai" then "assistant" else "user";
             content := text msg |}) <$> messages s.

(* The body of POST /ai-query. *)
Definition requestMessages (s : State) : list ChatMessage :=
  getOpenAIMessages s ++ [ {| role := "user"; content := input s |} ].

(* handleSend, run to completion.  [trim] is String.prototype.trim;
   [answer] is how the POST settles, with response.data.answer as data. *)
Definition handleSend (trim : string → string) (w : World) (s : State)
    (answer : Settled string) : World * State :=
  if negb (JS.truthy (Some (trim (input s)))) then (w, s)
  else
    let userMessage := {| sender := "user"; text := input s |} in
    let s1 := {| messages := messages s ++ [userMessage];
                 input := ""; loading := true |} in
    let '(w', r) := settle w answer in
    let reply :=
      match r with
      | Fulfilled data => data
      | Rejected _ => "Sorry, there was an error contacting the AI service."
      end in
    (w', {| messages := messages s1 ++ [ {| sender := "ai"; text := reply |} ];
            input := input s1; loading := false |}).

Definition handleInputKeyDown (trim : string → string) (w : World) (s : State)
    (key : string) (answer : Settled string) : World * State :=
  if String.eqb key "Enter" && negb (loading s)
  then handleSend trim w s answer
  else (w, s).

(* The Send button's disabled attribute. *)
Definition sendDisabled (trim : string → string) (s : State) : bool :=
  loading s || negb (JS.truthy (Some (trim (input s)))).

(* Senders alternate, the assistant first and last. *)
Fixpoint alternates (expectAi : bool) (l : list Message) : bool :=
  match l with
  | [] => negb expectAi
  | m :: l =>
      Bool.eqb (String.eqb (sender m) "ai") expectAi
      && alternates (negb expectAi) l
  end.

End AIQueryPage.

(* --------------------------------------------------------------------- *)
(* pages/DocumentsUploadPage                                             *)
(* --------------------------------------------------------------------- *)

Module DocumentsUploadPage.

(* [file] holds the name of the chosen file. *)
Record State := {
  file : option string;
  uploading : bool;
  success : option string;
  error : option string
}.

Definition initial : State :=
  {| file := None; uploading := false; success := None; error := None |}.

(* e.target.files[0] is undefined when the list is empty. *)
Definition handleFileChange (s : State) (files : list string) : State :=
  {| file := head files; uploading := uploading s;
     success := None; error := None |}.

Definition handleUpload (w : World) (s : State) (answer : Settled unit)
  : World * State :=
  match file s with
  | None => (w, s)
  | Some _ =>
      let '(w', r) := settle w answer in
      match r with
      | Fulfilled _ =>
          (w', {| file := None; uploading := false;
                  success := Some "File uploaded successfully!";
                  error := None |})
      | Rejected _ =>
          (w', {| file := file s; uploading := false;
                  success := None;
                  error := Some "Upload failed. Please try again." |})
      end
  end.

(* The Upload button's disabled attribute. *)
Definition uploadDisabled (s : State) : bool :=
  negb (bool_decide (is_Some (file s))) || uploading s.

Inductive Action :=
| FileChange (files : list string)
| Upload (answer : Settled unit).

Definition act (ws : World * State) (a : Action) : World * State :=
  match a with
  | FileChange files => (ws.1, handleFileChange ws.2 files)
  | Upload answer => handleUpload ws.1 ws.2 answer
  end.

End DocumentsUploadPage.

(* The upload page never shows both alerts, and is idle between actions. *)
Definition uploadConsistent (s : DocumentsUploadPage.State) : Prop :=
  DocumentsUploadPage.uploading s = false
  ∧ ¬ (is_Some (DocumentsUploadPage.success s)
       ∧ is_Some (DocumentsUploadPage.error s)).

(* Two users for the scenarios. *)
Definition superadmin : User :=
  {| id := 1; username := "superadmin"; role := Some SUPER_ADMIN;
     facilities_access := None |}.

Definition viewer : User :=
  {| id := 9; username := "guest"; role := Some VIEWER;
     facilities_access := None |}.

(* ===================================================================== *)
(* Properties                                                            *)
(* ===================================================================== *)

(* --------------------------------------------------------------------- *)
(* Facts about the static tables                                         *)
(* --------------------------------------------------------------------- *)

Lemma knownRoles_eq :
  knownRoles =
  [SUPER_ADMIN; ADMIN; ENGINEER_OF_RECORD; TSF_OPERATOR; REGULATOR;
   MANAGEMENT; CONSULTANT; VIEWER].
Proof. reflexivity. Qed.

Lemma permission_lists_nonempty_names :
  map_Forall (λ _ roles, "" ∉ roles) PERMISSIONS.
Proof. apply (bool_decide_unpack _). vm_compute. exact I. Qed.

Lemma permission_lists_known :
  map_Forall (λ _ roles, roles ⊆ knownRoles) PERMISSIONS.
Proof. apply (bool_decide_unpack _). vm_compute. exact I. Qed.

Lemma truthy_Some s : JS.truthy (Some s) = true ↔ s ≠ "".
Proof.
  unfold JS.truthy. destruct (String.eqb_spec s ""); simpl; split; congruence.
Qed.

Lemma includes_true l x : JS.includes l x = true ↔ x ∈ l.
Proof. unfold JS.includes. by rewrite bool_decide_eq_true. Qed.

(* No table has a key that is also a name of Object.prototype. *)
Lemma tables_without_inherited_keys (k : string) :
  k ∈ JS.objectPrototypeNames →
  PERMISSIONS !! k = None ∧ ROLE_HIERARCHY !! k = None
  ∧ roleNames !! k = None ∧ roleColors !! k = None.
Proof.
  unfold JS.objectPrototypeNames. rewrite !elem_of_cons, elem_of_nil.
  intros H. repeat destruct H as [H|H]; try done; subst k; by vm_compute.
Qed.

Lemma get_own {A} (o : gmap string A) (k : string) (a : A) :
  o !! k = Some a → JS.get o k = Some (JS.Val a).
Proof. intros H. unfold JS.get. by rewrite H. Qed.

Lemma get_undefined {A} (o : gmap string A) (k : string) :
  o !! k = None → k ∉ JS.objectPrototypeNames → JS.get o k = None.
Proof.
  intros H Hk. unfold JS.get. rewrite H. by rewrite bool_decide_false.
Qed.

Lemma get_inherited {A} (o : gmap string A) (k : string) :
  o !! k = None → k ∈ JS.objectPrototypeNames →
  JS.get o k = Some (if String.eqb k "__proto__" then JS.Proto else JS.Builtin k).
Proof.
  intros H Hk. unfold JS.get. rewrite H. by rewrite bool_decide_true.
Qed.

Lemma known_roles_cases (R : string) :
  R ∈ knownRoles ↔
  R = SUPER_ADMIN ∨ R = ADMIN ∨ R = ENGINEER_OF_RECORD ∨ R = TSF_OPERATOR
  ∨ R = REGULATOR ∨ R = MANAGEMENT ∨ R = CONSULTANT ∨ R = VIEWER.
Proof. rewrite knownRoles_eq, !elem_of_cons, elem_of_nil. tauto. Qed.

Lemma known_role_nonempty (R : string) : R ∈ knownRoles → R ≠ "".
Proof.
  rewrite known_roles_cases. intros H ->.
  repeat destruct H as [H|H]; discriminate.
Qed.

Lemma known_role_not_inherited (R : string) :
  R ∈ knownRoles → R ∉ JS.objectPrototypeNames.
Proof.
  rewrite known_roles_cases. intros H Hin.
  apply tables_without_inherited_keys in Hin as (_ & Hin & _).
  repeat destruct H as [H|H]; subst R; by vm_compute in Hin.
Qed.

Lemma hierarchy_entries :
  map_Forall (λ R l, R ∈ knownRoles ∧ (1 ≤ l ≤ 8)%Z) ROLE_HIERARCHY.
Proof. apply (bool_decide_unpack _). vm_compute. exact I. Qed.

Lemma tableLevel_known (r : string) :
  r ∈ knownRoles → (1 ≤ tableLevel r ≤ 8)%Z.
Proof.
  rewrite known_roles_cases. intros H.
  repeat destruct H as [H|H]; subst r; vm_compute; split; congruence.
Qed.

Lemma tableLevel_range (R : string) : (0 ≤ tableLevel R ≤ 8)%Z.
Proof.
  unfold tableLevel, JS.num_or.
  destruct (ROLE_HIERARCHY !! R) as [l|] eqn:E; [|lia].
  apply hierarchy_entries in E as [_ ?].
  destruct (Z.eqb_spec l 0); lia.
Qed.

Lemma tableLevel_positive (R : string) : (0 < tableLevel R)%Z ↔ R ∈ knownRoles.
Proof.
  split.
  - unfold tableLevel, JS.num_or.
    destruct (ROLE_HIERARCHY !! R) as [l|] eqn:E; [|lia].
    intros _. by apply hierarchy_entries in E as [? _].
  - intros H. apply tableLevel_known in H. lia.
Qed.

Lemma tableLevel_unlisted (R : string) :
  ROLE_HIERARCHY !! R = None → tableLevel R = 0%Z.
Proof. intros H. unfold tableLevel. by rewrite H. Qed.

(* Outside Object.prototype the lookup with default is the table level. *)
Lemma levelOf_table (R : string) :
  R ∉ JS.objectPrototypeNames → levelOf R = JS.Val (tableLevel R).
Proof.
  intros H. unfold levelOf, tableLevel.
  destruct (ROLE_HIERARCHY !! R) as [l|] eqn:E.
  - by rewrite (get_own _ _ _ E).
  - by rewrite (get_undefined _ _ E H).
Qed.

(* Inside it the lookup is the inherited member. *)
Lemma levelOf_inherited (key : string) :
  key ∈ JS.objectPrototypeNames →
  levelOf key = if String.eqb key "__proto__" then JS.Proto else JS.Builtin key.
Proof.
  intros H. unfold levelOf.
  destruct (tables_without_inherited_keys key H) as (_ & E & _).
  rewrite (get_inherited _ _ E H). by destruct (String.eqb key "__proto__").
Qed.

(* The effect, for a role outside Object.prototype, from any state. *)
Lemma syncRole_atRole (prev : RoleState) (u : User) (R : string) :
  role u = Some R → R ≠ "" → R ∉ JS.objectPrototypeNames →
  syncRole prev (Some u) = JS.Normal (atRole R).
Proof.
  intros HR Hne Hk. unfold syncRole.
  change (Some u ≫= role) with (role u). rewrite HR.
  apply truthy_Some in Hne. rewrite Hne.
  by rewrite (levelOf_table R Hk).
Qed.

Lemma syncRole_no_role (prev : RoleState) (cu : option User) :
  JS.truthy (cu ≫= role) = false →
  syncRole prev cu = JS.Normal initialRoleState.
Proof.
  intros H. unfold syncRole. destruct (cu ≫= role) as [r|]; [|done].
  by rewrite H.
Qed.

(* Whenever the effect completes, the role cell holds the user's role. *)
Lemma syncRole_userRole (prev : RoleState) (cu : option User) (st : RoleState) :
  syncRole prev cu = JS.Normal st →
  userRole st = if JS.truthy (cu ≫= role) then cu ≫= role else None.
Proof.
  unfold syncRole. destruct (cu ≫= role) as [r|]; [|by intros [= <-]].
  destruct (JS.truthy (Some r)); [|by intros [= <-]].
  destruct (setRoleLevel _ _); [by intros [= <-] | done].
Qed.

(* --------------------------------------------------------------------- *)
(* Permission evaluator                                                  *)
(* --------------------------------------------------------------------- *)

(* The characterisation of [hasPermission] the proofs start from. *)
Lemma hasPermission_char (st : RoleState) (P : string) :
  hasPermission st P = JS.Normal true ↔
  ∃ R roles, userRole st = Some R ∧ R ≠ ""
             ∧ PERMISSIONS !! P = Some roles ∧ R ∈ roles.
Proof.
  unfold hasPermission.
  destruct (userRole st) as [R|] eqn:HR; simpl;
    [|split; [done | by intros (? & ? & ? & _)]].
  destruct (String.eqb_spec R "") as [->|Hne]; simpl.
  { split; [done|]. by intros (R' & ? & [= <-] & ? & _). }
  unfold JS.get. destruct (PERMISSIONS !! P) as [roles|] eqn:HP.
  - split.
    + intros [= Hin]. apply includes_true in Hin. by exists R, roles.
    + intros (R' & roles' & [= <-] & _ & [= <-] & Hin).
      f_equal. by apply includes_true.
  - split; [|by intros (? & ? & _ & _ & ? & _)].
    destruct (bool_decide _); [|done].
    by destruct (String.eqb P "__proto__").
Qed.

Lemma hasPermission_no_role (st : RoleState) (P : string) :
  JS.truthy (userRole st) = false → hasPermission st P = JS.Normal false.
Proof. intros H. unfold hasPermission. by rewrite H. Qed.

Lemma hasPermission_throws (st : RoleState) (P : string) :
  hasPermission st P = JS.Throw ↔
  JS.truthy (userRole st) = true ∧ P ∈ JS.objectPrototypeNames.
Proof.
  unfold hasPermission. destruct (JS.truthy (userRole st)); simpl;
    [|split; [done | by intros [? _]]].
  unfold JS.get. destruct (PERMISSIONS !! P) as [roles|] eqn:HP.
  - split; [done|]. intros [_ Hin].
    apply tables_without_inherited_keys in Hin as (Hin & _). congruence.
  - destruct (decide (P ∈ JS.objectPrototypeNames)) as [Hin|Hin].
    + rewrite bool_decide_true by done.
      by destruct (String.eqb P "__proto__").
    + rewrite bool_decide_false by done. split; [done | by intros [_ ?]].
Qed.

Lemma hasPermission_completes (st : RoleState) (P : string) :
  P ∉ JS.objectPrototypeNames → ∃ b, hasPermission st P = JS.Normal b.
Proof.
  intros H. destruct (hasPermission st P) as [b|] eqn:E; [by exists b|].
  apply hasPermission_throws in E as [_ ?]. done.
Qed.

Lemma hasPermission_unlisted (st : RoleState) (P : string) :
  PERMISSIONS !! P = None → P ∉ JS.objectPrototypeNames →
  hasPermission st P = JS.Normal false.
Proof.
  intros HP Hk. destruct (hasPermission_completes st P Hk) as [[|] E];
    [|exact E].
  apply hasPermission_char in E as (? & ? & _ & _ & ? & _). congruence.
Qed.

Lemma hasPermission_atRole (R P : string) :
  R ≠ "" →
  (hasPermission (atRole R) P = JS.Normal true ↔
   ∃ roles, PERMISSIONS !! P = Some roles ∧ R ∈ roles).
Proof.
  intros Hne. rewrite hasPermission_char. simpl. split.
  - intros (R' & roles & [= <-] & _ & HP & Hin). by exists roles.
  - intros (roles & HP & Hin). by exists R, roles.
Qed.

(** C1: [hasPermission P] is true exactly when a role is set, [P] is a key
    of PERMISSIONS and the role is listed for [P]; without role it is false
    for every name, and with a role it is false for every name that is
    neither a key nor a member of Object.prototype.  For a name the table
    inherits from Object.prototype, such as constructor, a session with a
    role passes the guard and the call throws instead of answering
    false. *)
Theorem hasPermission_throws_on_inherited_name :
  (∀ (st : RoleState) (P : string),
     hasPermission st P = JS.Normal true ↔
     ∃ R roles, userRole st = Some R ∧ PERMISSIONS !! P = Some roles ∧ R ∈ roles)
  ∧ (∀ (st : RoleState) (P : string),
       userRole st = None → hasPermission st P = JS.Normal false)
  ∧ (∀ (st : RoleState) (P : string),
       PERMISSIONS !! P = None → P ∉ JS.objectPrototypeNames →
       hasPermission st P = JS.Normal false)
  ∧ (∀ (st : RoleState) (R P : string),
       userRole st = Some R → R ≠ "" → P ∈ JS.objectPrototypeNames →
       PERMISSIONS !! P = None ∧ hasPermission st P = JS.Throw)
  ∧ (PERMISSIONS !! "constructor" = None
     ∧ underRole VIEWER = JS.Normal (atRole VIEWER)
     ∧ hasPermission (atRole VIEWER) "constructor" = JS.Throw).
Proof.
  split; [|split; [|split; [|split]]].
  - intros st P. rewrite hasPermission_char. split.
    + intros (R & roles & ? & _ & ? & ?). by exists R, roles.
    + intros (R & roles & HR & HP & Hin). exists R, roles.
      repeat split; try done.
      intros ->. by apply (permission_lists_nonempty_names P roles).
  - intros st P H. apply hasPermission_no_role. by rewrite H.
  - apply hasPermission_unlisted.
  - intros st R P HR Hne Hk. split.
    + by apply tables_without_inherited_keys.
    + apply hasPermission_throws. split; [|done].
      rewrite HR. by apply truthy_Some.
  - repeat split; by vm_compute.
Qed.

(** Witness for C1: a listed role, a name that is no key, and a name the
    table inherits. *)
Lemma hasPermission_throws_on_inherited_name_witness :
  hasPermission (atRole ADMIN) "canManageUsers" = JS.Normal true
  ∧ hasPermission (atRole ADMIN) "canLaunchRockets" = JS.Normal false
  ∧ hasPermission (atRole ADMIN) "toString" = JS.Throw.
Proof.
  destruct hasPermission_throws_on_inherited_name
    as (Hiff & _ & Hunlisted & Hthrow & _).
  split; [|split].
  - apply Hiff. exists ADMIN, [SUPER_ADMIN; ADMIN].
    split; [reflexivity|]. split; [by vm_compute|].
    rewrite !elem_of_cons. auto.
  - apply Hunlisted; [by vm_compute|].
    apply (bool_decide_unpack _). by vm_compute.
  - apply (Hthrow (atRole ADMIN) ADMIN "toString");
      [reflexivity | discriminate |].
    apply (bool_decide_unpack _). by vm_compute.
Defined.

(** C2 (as stated, refuted): a viewer without a facility restriction list
    is not granted access, so the absence of a list does not by itself
    imply access. *)
Lemma canAccessFacility_no_list_denied :
  ¬ (∀ (cu : option User) (st : RoleState) (f : string),
       syncRole initialRoleState cu = JS.Normal st →
       (canAccessFacility cu st f = JS.Normal true ↔
        (cu ≫= facilities_access = None
         ∨ (∃ fa, cu ≫= facilities_access = Some fa ∧ f ∈ fa)
         ∨ hasPermission st "canViewAllDocuments" = JS.Normal true))).
Proof.
  intros H.
  specialize (H (Some {| id := 7; username := "vera"; role := Some VIEWER;
                         facilities_access := None |})
                (atRole VIEWER) "TSF-1" eq_refl).
  destruct H as [_ H]. specialize (H (or_introl eq_refl)).
  vm_compute in H. discriminate.
Qed.

(** C2 (amended): [canAccessFacility f] is true exactly when the user has a
    restriction list that contains [f], or holds canViewAllDocuments; a
    user without a list is granted access through canViewAllDocuments
    only.  The call never throws. *)
Theorem canAccessFacility_iff :
  (∀ (cu : option User) (st : RoleState) (f : string),
     canAccessFacility cu st f = JS.Normal true ↔
     (∃ fa, cu ≫= facilities_access = Some fa ∧ f ∈ fa)
     ∨ hasPermission st "canViewAllDocuments" = JS.Normal true)
  ∧ (∀ (cu : option User) (st : RoleState) (f : string),
       cu ≫= facilities_access = None →
       canAccessFacility cu st f = hasPermission st "canViewAllDocuments")
  ∧ (∀ (cu : option User) (st : RoleState) (f : string),
       ∃ b, canAccessFacility cu st f = JS.Normal b).
Proof.
  split; [|split].
  - intros cu st f. unfold canAccessFacility.
    destruct (cu ≫= facilities_access) as [fa|].
    + destruct (JS.includes fa f) eqn:E.
      * split; [|done]. intros _. left. exists fa. split; [done|].
        by apply includes_true.
      * split; [by right|]. intros [(fa' & [= <-] & Hin) | Hp]; [|exact Hp].
        apply includes_true in Hin. congruence.
    + split; [by right|]. intros [(fa' & ? & _) | Hp]; [done | exact Hp].
  - intros cu st f H. unfold canAccessFacility. by rewrite H.
  - intros cu st f. unfold canAccessFacility.
    assert (∃ b, hasPermission st "canViewAllDocuments" = JS.Normal b) as [b Hb].
    { apply hasPermission_completes. intros Hin.
      apply tables_without_inherited_keys in Hin as (Hin & _).
      by vm_compute in Hin. }
    destruct (cu ≫= facilities_access) as [fa|]; [|by exists b].
    destruct (JS.includes fa f); [by exists true | by exists b].
Qed.

(** Witness for C2: a consultant restricted to two facilities. *)
Lemma canAccessFacility_iff_witness :
  let u := {| id := 12; username := "carl"; role := Some CONSULTANT;
              facilities_access := Some ["TSF-1"; "TSF-4"] |} in
  canAccessFacility (Some u) (atRole CONSULTANT) "TSF-4" = JS.Normal true.
Proof.
  intros u. apply (proj1 canAccessFacility_iff). left.
  exists ["TSF-1"; "TSF-4"]. split; [reflexivity|].
  rewrite !elem_of_cons. auto.
Defined.

Lemma filter_length_mono {A} (P Q : A → Prop)
    `{∀ x, Decision (P x)} `{∀ x, Decision (Q x)} (l : list A) :
  (∀ x, x ∈ l → P x → Q x) →
  (length (filter P l) ≤ length (filter Q l))%nat.
Proof.
  induction l as [|x l IH]; [done|]. intros HPQ.
  assert (length (filter P l) ≤ length (filter Q l))%nat as IH'.
  { apply IH. intros y Hy. apply HPQ. by right. }
  rewrite !filter_cons.
  destruct (decide (P x)) as [HP|HP].
  - rewrite decide_True by (apply HPQ; [by left | done]). simpl. lia.
  - destruct (decide (Q x)); simpl; lia.
Qed.

Lemma filter_agree {A} (P Q : A → Prop)
    `{∀ x, Decision (P x)} `{∀ x, Decision (Q x)} (l : list A) :
  (∀ x, x ∈ l → P x ↔ Q x) → filter P l = filter Q l.
Proof.
  induction l as [|x l IH]; [done|]. intros HPQ.
  rewrite !filter_cons, IH by (intros y Hy; apply HPQ; by right).
  destruct (decide (P x)) as [HP|HP].
  - by rewrite decide_True by (by apply HPQ; [left|]).
  - rewrite decide_False; [done|]. intros HQ. apply HP, HPQ; [by left | done].
Qed.

(* The comparison of the filter, for a known role and a numeric level. *)
Lemma le_known_numeric (r : string) (L : Z) :
  r ∉ JS.objectPrototypeNames →
  JS.le (JS.slotComparand (levelOf r)) (JS.CNum L) = true
  ↔ (tableLevel r ≤ L)%Z.
Proof.
  intros Hr. rewrite (levelOf_table r Hr). unfold JS.le. simpl.
  rewrite negb_true_iff, Z.ltb_ge. done.
Qed.

Lemma getAvailableRoles_values (st : RoleState) :
  value <$> getAvailableRoles st =
  filter (λ r, JS.le (JS.slotComparand (levelOf r))
                     (levelComparand (roleLevel st)) = true) knownRoles.
Proof.
  unfold getAvailableRoles, knownRoles, JS.values, JS.entries.
  generalize USER_ROLES as l.
  induction l as [|[k v] l IH]; [done|].
  rewrite fmap_cons, !filter_cons. simpl.
  destruct (decide (JS.le (JS.slotComparand (levelOf v))
                          (levelComparand (roleLevel st)) = true)).
  - rewrite !fmap_cons. simpl. by f_equal.
  - exact IH.
Qed.

Lemma getAvailableRoles_numeric (st : RoleState) (L : Z) :
  levelComparand (roleLevel st) = JS.CNum L →
  value <$> getAvailableRoles st =
  filter (λ r, (tableLevel r ≤ L)%Z) knownRoles.
Proof.
  intros HL. rewrite getAvailableRoles_values, HL.
  apply filter_agree. intros r Hr.
  apply le_known_numeric. by apply known_role_not_inherited.
Qed.

Lemma getAvailableRoles_level0 (st : RoleState) :
  levelComparand (roleLevel st) = JS.CNum 0 → getAvailableRoles st = [].
Proof.
  intros H. apply fmap_nil_inv with (f := value).
  by rewrite (getAvailableRoles_numeric st 0 H).
Qed.

(* The options a role list can contain, as the two tables give them. *)
Lemma getAvailableRoles_entries (st : RoleState) (o : RoleOption) :
  o ∈ getAvailableRoles st →
  (value o, label o, color o) ∈
  [ (SUPER_ADMIN, JS.Val "Super Administrator", JS.Val "#d32f2f");
    (ADMIN, JS.Val "Administrator", JS.Val "#f57c00");
    (ENGINEER_OF_RECORD, JS.Val "Engineer of Record", JS.Val "#006039");
    (TSF_OPERATOR, JS.Val "TSF Operator", JS.Val "#1976d2");
    (REGULATOR, JS.Val "Regulator", JS.Val "#7b1fa2");
    (MANAGEMENT, JS.Val "Management", JS.Val "#388e3c");
    (CONSULTANT, JS.Val "Consultant", JS.Val "#0288d1");
    (VIEWER, JS.Val "Viewer", JS.Val "#616161") ].
Proof.
  intros H. unfold getAvailableRoles in H.
  apply list_elem_of_fmap in H as ([k v] & -> & Hin).
  apply list_elem_of_filter in Hin as [_ Hin].
  unfold JS.entries, USER_ROLES in Hin.
  rewrite !elem_of_cons, elem_of_nil in Hin.
  rewrite !elem_of_cons.
  repeat destruct Hin as [Hin|Hin]; try done; inversion Hin; subst k v;
    vm_compute; auto 10.
Qed.

(** C3: for a numeric level [L], [getAvailableRoles] returns exactly the
    roles of USER_ROLES whose level is at most [L], each paired with the
    display name and the colour the two tables give it; the list grows
    with the level; a super_admin gets all 8 roles and an absent role, or
    a role unknown to the tables and to Object.prototype, gets none.  The
    level is not numeric for every role: a user whose role is constructor,
    arriving in a session of level 8, leaves the level at the boxed 8, and
    this role unknown to the hierarchy is offered all 8 roles; a user whose
    role is valueOf makes the provider throw. *)
Theorem getAvailableRoles_by_level :
  (∀ (st : RoleState) (L : Z),
     roleLevel st = LPrim (PNum L) →
     value <$> getAvailableRoles st =
     filter (λ r, (tableLevel r ≤ L)%Z) knownRoles)
  ∧ (∀ (st : RoleState) (L : Z) (r : string),
       roleLevel st = LPrim (PNum L) →
       r ∈ (value <$> getAvailableRoles st) ↔
       r ∈ knownRoles ∧ (tableLevel r ≤ L)%Z)
  ∧ (∀ (st : RoleState) (o : RoleOption),
       o ∈ getAvailableRoles st →
       (value o, label o, color o) ∈
       [ (SUPER_ADMIN, JS.Val "Super Administrator", JS.Val "#d32f2f");
         (ADMIN, JS.Val "Administrator", JS.Val "#f57c00");
         (ENGINEER_OF_RECORD, JS.Val "Engineer of Record", JS.Val "#006039");
         (TSF_OPERATOR, JS.Val "TSF Operator", JS.Val "#1976d2");
         (REGULATOR, JS.Val "Regulator", JS.Val "#7b1fa2");
         (MANAGEMENT, JS.Val "Management", JS.Val "#388e3c");
         (CONSULTANT, JS.Val "Consultant", JS.Val "#0288d1");
         (VIEWER, JS.Val "Viewer", JS.Val "#616161") ])
  ∧ (∀ (st1 st2 : RoleState) (L1 L2 : Z),
       roleLevel st1 = LPrim (PNum L1) → roleLevel st2 = LPrim (PNum L2) →
       (L1 ≤ L2)%Z →
       (length (getAvailableRoles st1) ≤ length (getAvailableRoles st2))%nat)
  ∧ (∀ (prev : RoleState) (u : User),
       role u = Some SUPER_ADMIN →
       ∃ st, syncRole prev (Some u) = JS.Normal st
             ∧ roleLevel st = LPrim (PNum 8)
             ∧ (λ o, (value o, label o, color o)) <$> getAvailableRoles st =
               [ (SUPER_ADMIN, JS.Val "Super Administrator", JS.Val "#d32f2f");
                 (ADMIN, JS.Val "Administrator", JS.Val "#f57c00");
                 (ENGINEER_OF_RECORD, JS.Val "Engineer of Record",
                  JS.Val "#006039");
                 (TSF_OPERATOR, JS.Val "TSF Operator", JS.Val "#1976d2");
                 (REGULATOR, JS.Val "Regulator", JS.Val "#7b1fa2");
                 (MANAGEMENT, JS.Val "Management", JS.Val "#388e3c");
                 (CONSULTANT, JS.Val "Consultant", JS.Val "#0288d1");
                 (VIEWER, JS.Val "Viewer", JS.Val "#616161") ])
  ∧ (∀ st : RoleState,
       roleLevel st = LPrim (PNum 0) → getAvailableRoles st = [])
  ∧ (∀ prev : RoleState,
       ∃ st, syncRole prev None = JS.Normal st ∧ getAvailableRoles st = [])
  ∧ (∀ (prev : RoleState) (u : User) (R : string),
       role u = Some R → ROLE_HIERARCHY !! R = None →
       R ∉ JS.objectPrototypeNames →
       ∃ st, syncRole prev (Some u) = JS.Normal st
             ∧ getAvailableRoles st = [])
  ∧ (ROLE_HIERARCHY !! "constructor" = None
     ∧ ∃ st, syncRole (atRole SUPER_ADMIN)
               (Some {| id := 9; username := "eve"; role := Some "constructor";
                        facilities_access := None |}) = JS.Normal st
             ∧ userRole st = Some "constructor"
             ∧ roleLevel st = LBoxed (PNum 8)
             ∧ value <$> getAvailableRoles st = knownRoles)
  ∧ (ROLE_HIERARCHY !! "valueOf" = None
     ∧ ∀ prev : RoleState,
         syncRole prev
           (Some {| id := 9; username := "eve"; role := Some "valueOf";
                    facilities_access := None |}) = JS.Throw).
Proof.
  split; [|split; [|split; [exact getAvailableRoles_entries|]]].
  - intros st L HL. apply getAvailableRoles_numeric. by rewrite HL.
  - intros st L r HL.
    rewrite (getAvailableRoles_numeric st L) by (by rewrite HL).
    rewrite list_elem_of_filter. tauto.
  - split; [|split; [|split; [|split; [|split; [|split]]]]].
    + intros st1 st2 L1 L2 H1 H2 Hle.
      rewrite <- (length_fmap value (getAvailableRoles st1)).
      rewrite <- (length_fmap value (getAvailableRoles st2)).
      rewrite (getAvailableRoles_numeric st1 L1) by (by rewrite H1).
      rewrite (getAvailableRoles_numeric st2 L2) by (by rewrite H2).
      apply filter_length_mono. intros r _ Hr. lia.
    + intros prev u Hu. exists (atRole SUPER_ADMIN). split; [|split].
      * apply syncRole_atRole; [done | done |].
        apply known_role_not_inherited, known_roles_cases. auto.
      * reflexivity.
      * by vm_compute.
    + intros st H. apply getAvailableRoles_level0. by rewrite H.
    + intros prev. exists initialRoleState. split; [done|].
      by apply getAvailableRoles_level0.
    + intros prev u R HR Hno Hk.
      destruct (decide (R = "")) as [->|Hne].
      * exists initialRoleState. split.
        -- apply syncRole_no_role. simpl. by rewrite HR.
        -- by apply getAvailableRoles_level0.
      * exists (atRole R). split; [by apply syncRole_atRole|].
        apply getAvailableRoles_level0. simpl.
        by rewrite (tableLevel_unlisted R Hno).
    + split; [by vm_compute|]. eexists. split; [by vm_compute|].
      split; [done|]. split; [done|]. by vm_compute.
    + split; [by vm_compute|]. intros [ur [p|p|]]; by vm_compute.
Qed.

(** Witness for C3: an administrator may assign at least as many roles as
    a viewer. *)
Lemma getAvailableRoles_by_level_witness :
  (length (getAvailableRoles (atRole VIEWER))
   ≤ length (getAvailableRoles (atRole ADMIN)))%nat.
Proof.
  apply (proj1 (proj2 (proj2 (proj2 getAvailableRoles_by_level)))
           (atRole VIEWER) (atRole ADMIN) 1%Z 7%Z);
    [reflexivity | reflexivity | lia].
Defined.

(* [hasHigherRoleThan] for a numeric level and a name outside
   Object.prototype. *)
Lemma hasHigherRoleThan_numeric (st : RoleState) (n : Z) (R2 : string) :
  levelComparand (roleLevel st) = JS.CNum n → R2 ∉ JS.objectPrototypeNames →
  hasHigherRoleThan st R2 = true ↔ (tableLevel R2 < n)%Z.
Proof.
  intros Hn HR2. unfold hasHigherRoleThan.
  rewrite Hn, (levelOf_table R2 HR2). simpl. apply Z.ltb_lt.
Qed.

(* The source text of a function sorts after both object tags. *)
Lemma function_source_not_below (key : string) (t : JS.Text) :
  t = JS.UndefinedTag ∨ t = JS.ObjectTag →
  JS.lt (JS.CText (JS.FunctionSource key)) (JS.CText t) = Some false.
Proof. intros [-> | ->]; reflexivity. Qed.

(* Against a built-in function no level compares as higher. *)
Lemma hasHigherRoleThan_builtin (st : RoleState) (key : string) :
  key ∈ JS.objectPrototypeNames → key ≠ "__proto__" →
  hasHigherRoleThan st key = false.
Proof.
  intros Hk Hne. unfold hasHigherRoleThan.
  rewrite (levelOf_inherited key Hk).
  destruct (String.eqb_spec key "__proto__"); [done|].
  destruct st as [ur [[?| |]|[?| |]|]]; reflexivity.
Qed.

(* No state the effect leaves for a role ranks that role above itself. *)
Lemma hasHigherRoleThan_irreflexive
    (prev : RoleState) (u : User) (R : string) (st : RoleState) :
  role u = Some R → syncRole prev (Some u) = JS.Normal st →
  hasHigherRoleThan st R = false.
Proof.
  intros HR Hst.
  destruct (decide (R ∈ JS.objectPrototypeNames)) as [Hk|Hk].
  - destruct (decide (R = "__proto__")) as [->|Hne];
      [|by apply hasHigherRoleThan_builtin].
    revert Hst. unfold syncRole.
    change (Some u ≫= role) with (role u). rewrite HR.
    vm_compute. by intros [= <-].
  - destruct (decide (R = "")) as [->|Hne].
    + rewrite syncRole_no_role in Hst by (simpl; by rewrite HR).
      injection Hst as <-. reflexivity.
    + rewrite (syncRole_atRole prev u R HR Hne Hk) in Hst.
      injection Hst as <-. apply not_true_is_false.
      rewrite (hasHigherRoleThan_numeric _ (tableLevel R)) by done. lia.
Qed.

(** C4: for a current role [R1] and another role [R2] outside
    Object.prototype, [hasHigherRoleThan R2] is true exactly when the
    level of [R1] exceeds that of [R2], the levels being 8 down to 1 on
    the 8 roles and 0 for a role the hierarchy does not list; on the 8
    roles this is a strict total order, and no role is higher than itself.
    A role named like a member of Object.prototype is unknown to the
    hierarchy but is not given level 0: against constructor a viewer, of
    level 1, is not higher. *)
Theorem hasHigherRoleThan_order_except_inherited :
  (∀ (prev : RoleState) (u : User) (R1 : string),
     role u = Some R1 → R1 ≠ "" → R1 ∉ JS.objectPrototypeNames →
     syncRole prev (Some u) = JS.Normal (atRole R1))
  ∧ (∀ (st : RoleState) (n : Z) (R2 : string),
       roleLevel st = LPrim (PNum n) → R2 ∉ JS.objectPrototypeNames →
       hasHigherRoleThan st R2 = true ↔ (tableLevel R2 < n)%Z)
  ∧ (∀ R1 R2 : string,
       R2 ∉ JS.objectPrototypeNames →
       hasHigherRoleThan (atRole R1) R2 = true
       ↔ (tableLevel R2 < tableLevel R1)%Z)
  ∧ (∀ R : string, ROLE_HIERARCHY !! R = None → tableLevel R = 0%Z)
  ∧ levelOf <$> [SUPER_ADMIN; ADMIN; ENGINEER_OF_RECORD; MANAGEMENT;
                 TSF_OPERATOR; REGULATOR; CONSULTANT; VIEWER]
    = JS.Val <$> [8; 7; 6; 5; 4; 3; 2; 1]%Z
  ∧ (∀ R : string, R ∈ knownRoles →
       levelOf R = JS.Val (tableLevel R) ∧ (1 ≤ tableLevel R ≤ 8)%Z)
  ∧ (∀ (prev : RoleState) (u : User) (R : string) (st : RoleState),
       role u = Some R → syncRole prev (Some u) = JS.Normal st →
       hasHigherRoleThan st R = false)
  ∧ (∀ R1 R2 R3 : string,
       R2 ∉ JS.objectPrototypeNames → R3 ∉ JS.objectPrototypeNames →
       hasHigherRoleThan (atRole R1) R2 = true →
       hasHigherRoleThan (atRole R2) R3 = true →
       hasHigherRoleThan (atRole R1) R3 = true)
  ∧ (∀ R1 R2 : string,
       R1 ∉ JS.objectPrototypeNames → R2 ∉ JS.objectPrototypeNames →
       hasHigherRoleThan (atRole R1) R2 = true →
       hasHigherRoleThan (atRole R2) R1 = false)
  ∧ (∀ R1 R2 : string,
       R1 ∈ knownRoles → R2 ∈ knownRoles → R1 ≠ R2 →
       hasHigherRoleThan (atRole R1) R2 = true
       ∨ hasHigherRoleThan (atRole R2) R1 = true)
  ∧ (∀ (st : RoleState) (key : string),
       key ∈ JS.objectPrototypeNames → key ≠ "__proto__" →
       ROLE_HIERARCHY !! key = None ∧ hasHigherRoleThan st key = false)
  ∧ (ROLE_HIERARCHY !! "constructor" = None
     ∧ tableLevel VIEWER = 1%Z
     ∧ hasHigherRoleThan (atRole VIEWER) "constructor" = false).
Proof.
  assert (Hiff : ∀ R1 R2 : string,
     R2 ∉ JS.objectPrototypeNames →
     hasHigherRoleThan (atRole R1) R2 = true
     ↔ (tableLevel R2 < tableLevel R1)%Z).
  { intros R1 R2 H2. by apply hasHigherRoleThan_numeric. }
  split; [exact syncRole_atRole|].
  split; [|split; [exact Hiff|]].
  { intros st n R2 Hn H2. apply hasHigherRoleThan_numeric; [|done].
    by rewrite Hn. }
  split; [exact tableLevel_unlisted|].
  split; [by vm_compute|].
  split; [|split; [exact hasHigherRoleThan_irreflexive|]].
  { intros R HR. split; [|by apply tableLevel_known].
    by apply levelOf_table, known_role_not_inherited. }
  split; [|split; [|split; [|split]]].
  - intros R1 R2 R3 H2 H3. rewrite !Hiff by done. lia.
  - intros R1 R2 H1 H2 H. apply not_true_is_false.
    rewrite Hiff in * by done. lia.
  - intros R1 R2 H1 H2 Hne.
    rewrite !Hiff by (by apply known_role_not_inherited).
    assert (tableLevel R1 ≠ tableLevel R2); [|lia].
    revert H1 H2 Hne. rewrite !known_roles_cases.
    intros H1 H2.
    repeat destruct H1 as [-> | H1]; try subst R1;
      repeat destruct H2 as [-> | H2]; try subst R2;
      intros Hne; try done; vm_compute; congruence.
  - intros st key Hk Hne. split; [|by apply hasHigherRoleThan_builtin].
    by apply tables_without_inherited_keys.
  - repeat split; by vm_compute.
Qed.

(** Witness for C4: management and the TSF operator are comparable. *)
Lemma hasHigherRoleThan_order_except_inherited_witness :
  hasHigherRoleThan (atRole MANAGEMENT) TSF_OPERATOR = true
  ∨ hasHigherRoleThan (atRole TSF_OPERATOR) MANAGEMENT = true.
Proof.
  destruct hasHigherRoleThan_order_except_inherited
    as (_ & _ & _ & _ & _ & _ & _ & _ & _ & Htotal & _).
  apply (Htotal MANAGEMENT TSF_OPERATOR);
    [ rewrite knownRoles_eq, !elem_of_cons; auto 10
    | rewrite knownRoles_eq, !elem_of_cons; auto 10
    | discriminate ].
Defined.

(* The sidebar's filter, for entries whose permission names are outside
   Object.prototype. *)
Lemma shownItems_spec (st : RoleState) (items : list (string * option string)) :
  (∀ p perm, (p, Some perm) ∈ items → perm ∉ JS.objectPrototypeNames) →
  ∃ shown, shownItems st items = JS.Normal shown
    ∧ shown = (filter (λ item, JS.truthy item.2 = false
                          ∨ hasPermission st (default "" item.2)
                            = JS.Normal true) items).*1.
Proof.
  induction items as [|[p perm] items IH]; intros Hk; [by exists []|].
  destruct IH as (rest & Hrest & ->).
  { intros p' perm' Hin. apply (Hk p'). by right. }
  simpl. rewrite Hrest. rewrite filter_cons. simpl.
  destruct (JS.truthy perm) eqn:Ht.
  - destruct perm as [perm|]; [|done].
    destruct (hasPermission_completes st perm) as [b Hb].
    { apply (Hk p). by left. }
    simpl. rewrite Hb. destruct b.
    + rewrite decide_True by (by right). eexists. split; done.
    + rewrite decide_False by (intros [?|?]; done). eexists. split; done.
  - rewrite decide_True by (by left). eexists. split; done.
Qed.

Lemma navigationItems_not_inherited (p perm : string) :
  (p, Some perm) ∈ navigationItems → perm ∉ JS.objectPrototypeNames.
Proof.
  unfold navigationItems. rewrite !elem_of_cons, elem_of_nil.
  intros H.
  destruct H as [H|[H|[H|[H|[H|[]]]]]]; inversion H; subst;
    apply (bool_decide_unpack _); by vm_compute.
Qed.

(** C10: canViewDocuments, required by the /documents route and by the
    sidebar entry, is not a key of PERMISSIONS; [hasPermission] denies it
    under every role, the /documents route sends every authenticated user
    to /dashboard, and the sidebar never shows the entry. *)
Theorem canViewDocuments_never_granted :
  PERMISSIONS !! "canViewDocuments" = None
  ∧ ("/documents", Some "canViewDocuments") ∈ navigationItems
  ∧ (∀ st : RoleState, hasPermission st "canViewDocuments" = JS.Normal false)
  ∧ (underRole SUPER_ADMIN = JS.Normal (atRole SUPER_ADMIN)
     ∧ hasPermission (atRole SUPER_ADMIN) "canViewDocuments" = JS.Normal false)
  ∧ (∀ (w : World) (st : RoleState) (u : User),
       currentUser w = Some u → loading w = false →
       Routes w st "/documents" = JS.Normal (Navigate "/dashboard"))
  ∧ (∀ st : RoleState,
       ∃ shown, visibleNavigation st = JS.Normal shown
                ∧ "/documents" ∉ shown).
Proof.
  assert (Hkey : PERMISSIONS !! "canViewDocuments" = None) by (vm_compute; reflexivity).
  assert (Hno : ∀ st : RoleState,
            hasPermission st "canViewDocuments" = JS.Normal false).
  { intros st. apply hasPermission_unlisted; [done|].
    apply (bool_decide_unpack _). by vm_compute. }
  split; [exact Hkey|].
  split; [|split; [exact Hno|split; [split; [by vm_compute | apply Hno]|split]]].
  - unfold navigationItems. set_solver.
  - intros w st u Hu Hl.
    change (Routes w st "/documents")
      with (ProtectedRoute w st (Some "canViewDocuments") (Page "DocumentsPage")).
    unfold ProtectedRoute, hasUser. rewrite Hl, Hu.
    rewrite bool_decide_true by eauto. simpl. by rewrite Hno.
  - intros st. unfold visibleNavigation.
    destruct (shownItems_spec st navigationItems navigationItems_not_inherited)
      as (shown & Hs & ->).
    eexists. split; [exact Hs|]. intros Hin.
    apply list_elem_of_fmap in Hin as ([p perm] & Hp & Hin).
    apply list_elem_of_filter in Hin as [Hvis Hin]. simpl in Hp, Hvis. subst p.
    unfold navigationItems in Hin. rewrite !elem_of_cons, elem_of_nil in Hin.
    destruct Hin as [H|[H|[H|[H|[H|[]]]]]]; inversion H; subst perm.
    simpl in Hvis. rewrite Hno in Hvis. by destruct Hvis.
Qed.

(** Witness for C10: the super administrator, once validated. *)
Lemma canViewDocuments_never_granted_witness :
  let w := initialize (AuthProvider {[ TOKEN_KEY := "t1" ]} "/documents")
             (Fulfilled superadmin) in
  Routes w (atRole SUPER_ADMIN) "/documents" = JS.Normal (Navigate "/dashboard").
Proof.
  intros w.
  apply (proj1 (proj2 (proj2 (proj2 (proj2 canViewDocuments_never_granted))))
           w (atRole SUPER_ADMIN) superadmin);
    reflexivity.
Defined.
(* --------------------------------------------------------------------- *)
(* Request layer                                                         *)
(* --------------------------------------------------------------------- *)

Lemma responseInterceptor_cells (w : World) (e : AxiosError) :
  token (responseInterceptor w e) = token w
  ∧ currentUser (responseInterceptor w e) = currentUser w
  ∧ loading (responseInterceptor w e) = loading w
  ∧ common (responseInterceptor w e) = common w.
Proof. unfold responseInterceptor. by destruct (isUnauthorized e). Qed.

Lemma responseInterceptor_401 (w : World) (e : AxiosError) :
  isUnauthorized e = true →
  getItem TOKEN_KEY (responseInterceptor w e) = None
  ∧ href (responseInterceptor w e) = "/login".
Proof.
  intros H. unfold responseInterceptor. rewrite H. split; [|done].
  unfold getItem. simpl. apply lookup_delete_eq.
Qed.

Lemma responseInterceptor_other (w : World) (e : AxiosError) :
  isUnauthorized e = false → responseInterceptor w e = w.
Proof. intros H. unfold responseInterceptor. by rewrite H. Qed.

Lemma settle_cells {A} (w : World) (a : Settled A) :
  token (settle w a).1 = token w
  ∧ currentUser (settle w a).1 = currentUser w
  ∧ loading (settle w a).1 = loading w
  ∧ (settle w a).2 = a.
Proof.
  destruct a as [d|e]; simpl; [done|].
  destruct (responseInterceptor_cells w e) as (? & ? & ? & _). done.
Qed.

Lemma settle_no_stored_token {A} (w : World) (a : Settled A) :
  getItem TOKEN_KEY w = None → getItem TOKEN_KEY (settle w a).1 = None.
Proof.
  intros H. destruct a as [d|e]; simpl; [done|].
  unfold responseInterceptor. destruct (isUnauthorized e); [|done].
  unfold getItem. simpl. apply lookup_delete_eq.
Qed.

Lemma isUnauthorized_status (e : AxiosError) :
  isUnauthorized e = true ↔ ∃ r, response e = Some r ∧ status r = 401%Z.
Proof.
  unfold isUnauthorized. destruct (response e) as [r|].
  - rewrite Z.eqb_eq. split; [by exists r | by intros (? & [= <-] & ?)].
  - split; [done | by intros (? & ? & _)].
Qed.

Lemma failed_message (e : AxiosError) (fallback : string) :
  fallback ≠ "" →
  success (failed e fallback) = false
  ∧ ∃ msg, error (failed e fallback) = Some msg ∧ msg ≠ "".
Proof.
  intros Hfb. split; [done|]. eexists. split; [reflexivity|].
  unfold JS.str_or. destruct (detailOf e) as [d|]; [|done].
  by destruct (String.eqb_spec d "").
Qed.

(** C8: every call on the client leaves with the stored token as bearer
    credential when one is stored, and every answer with status 401 clears
    the stored token and sends the browser to /login, whichever operation
    made the call.  The hook's refreshToken makes no call on the client: it
    fails before any request and leaves the stored token and the location
    as they are. *)
Theorem interceptors_policy :
  (∀ (w : World) (m u t : string),
     getItem TOKEN_KEY w = Some t → t ≠ "" →
     headers (outgoing w m u) !! "Authorization" = Some ("Bearer " ++ t))
  ∧ (∀ (A : Type) (w : World) (m u : string) (answer : Settled A),
       (request w m u answer).1.2 = outgoing w m u)
  ∧ (∀ (A : Type) (w : World) (m u : string) (e : AxiosError) (r : ErrorResponse),
       response e = Some r → status r = 401%Z →
       getItem TOKEN_KEY (request (A := A) w m u (Rejected e)).1.1 = None
       ∧ href (request (A := A) w m u (Rejected e)).1.1 = "/login"
       ∧ (request (A := A) w m u (Rejected e)).2 = Rejected e)
  ∧ (∀ (w : World) (e : AxiosError) (un pw fb : string),
       isUnauthorized e = true →
       ∀ w', w' ∈ [ (login w un pw (Rejected e)).1;
                    (updateProfile w (Rejected e)).1;
                    (plainCall fb w (Rejected e)).1;
                    validateTokenSettle w (Rejected e);
                    logoutSettle w (Some (Rejected e)) ] →
       getItem TOKEN_KEY w' = None ∧ href w' = "/login")
  ∧ (∀ (w : World) (engineMessage : string),
       getItem TOKEN_KEY (refreshToken w engineMessage).1 = getItem TOKEN_KEY w
       ∧ href (refreshToken w engineMessage).1 = href w
       ∧ ∃ e, (refreshToken w engineMessage).2 = Rejected e
              ∧ isUnauthorized e = false).
Proof.
  split; [|split; [|split; [|split]]].
  - intros w m u t Ht Hne. unfold outgoing, requestInterceptor.
    rewrite Ht. apply truthy_Some in Hne. rewrite Hne. simpl.
    apply lookup_insert_eq.
  - intros A w m u answer. unfold request. by destruct (settle w answer).
  - intros A w m u e r Hr Hs.
    assert (isUnauthorized e = true) as H401 by (apply isUnauthorized_status; eauto).
    unfold request. simpl.
    destruct (responseInterceptor_401 w e H401). done.
  - intros w e un pw fb H401 w' Hin.
    destruct (responseInterceptor_401 w e H401) as [Hs Hh].
    rewrite !elem_of_cons, elem_of_nil in Hin.
    destruct Hin as [->|[->|[->|[->|[->|[]]]]]]; simpl;
      unfold validateTokenSettle, logoutSettle; simpl;
      unfold getItem in *; simpl; rewrite ?Hh, ?lookup_delete_eq; done.
  - intros w msg. split; [done|]. split; [done|].
    eexists. split; [reflexivity | done].
Qed.

(** Witness for C8 with a stored token and a 401 answer. *)
Lemma interceptors_policy_witness :
  let w := AuthProvider {[ TOKEN_KEY := "t1" ]} "/monitoring" in
  headers (outgoing w "get" "/monitoring/stations") !! "Authorization"
    = Some "Bearer t1"
  ∧ getItem TOKEN_KEY
      (request (A := unit) w "get" "/monitoring/stations"
         (Rejected {| response := Some {| status := 401; detail := None |};
                      message := "Request failed with status code 401" |})).1.1
    = None.
Proof.
  intros w. split.
  - apply (proj1 interceptors_policy w "get" "/monitoring/stations" "t1");
      [by vm_compute | discriminate].
  - eapply (proj1 (proj2 (proj2 interceptors_policy))); [reflexivity | reflexivity].
Defined.

(* --------------------------------------------------------------------- *)
(* Session manager                                                       *)
(* --------------------------------------------------------------------- *)

Lemma logoutSettle_loggedOut (w : World) (answer : option (Settled unit)) :
  loggedOut (logoutSettle w answer)
  ∧ common (logoutSettle w answer) !! "Authorization" = None.
Proof.
  unfold loggedOut, logoutSettle, getItem. simpl.
  rewrite !lookup_delete_eq. done.
Qed.

(** C7: whatever the answer of POST /auth/logout, and also when the call
    is skipped, [logout] ends with the token cell, the stored token and
    [currentUser] cleared. *)
Theorem logout_clears_unconditionally :
  ∀ (w : World) (answer : Settled unit),
    token (logout w answer) = None
    ∧ getItem TOKEN_KEY (logout w answer) = None
    ∧ currentUser (logout w answer) = None
    ∧ common (logout w answer) !! "Authorization" = None.
Proof.
  intros w answer. unfold logout.
  destruct (logoutSettle_loggedOut w
              (if JS.truthy (token w) then Some answer else None))
    as [(Ht & Hu & Hs) Hc].
  done.
Qed.

(** C6 (as stated, refuted): a login that fails with status 401 while a
    token is stored does not leave the stored token unchanged: the response
    interceptor removes it. *)
Lemma login_failure_401_clears_stored_token :
  ¬ (∀ (w : World) (un pw : string) (e : AxiosError),
       let '(w', r) := login w un pw (Rejected e) in
       success r = false
       ∧ token w' = token w
       ∧ currentUser w' = currentUser w
       ∧ getItem TOKEN_KEY w' = getItem TOKEN_KEY w).
Proof.
  intros H.
  specialize (H (initialize (AuthProvider {[ TOKEN_KEY := "t0" ]} "/login")
                   (Fulfilled {| id := 1; username := "superadmin";
                                 role := Some SUPER_ADMIN;
                                 facilities_access := None |}))
                "superadmin" "wrong"
                {| response := Some {| status := 401;
                                       detail := Some "Incorrect username or password" |};
                   message := "Request failed with status code 401" |}).
  simpl in H. destruct H as (_ & _ & _ & H).
  vm_compute in H. discriminate.
Qed.

(** C6 (amended): a successful login stores the returned token, makes it
    and the returned user the current session and returns success; a failed
    login returns a failure result with a non-empty error message and
    leaves the token cell and [currentUser] unchanged; the stored token is
    unchanged as well unless the failure is a 401 answer, on which the
    response interceptor clears it and sends the browser to /login. *)
Theorem login_result :
  (∀ (w : World) (un pw : string) (d : LoginData),
     let '(w', r) := login w un pw (Fulfilled d) in
     getItem TOKEN_KEY w' = Some (access_token d)
     ∧ token w' = Some (access_token d)
     ∧ currentUser w' = Some (user d)
     ∧ r = succeeded
     ∧ success r = true)
  ∧ (∀ (w : World) (un pw : string) (e : AxiosError),
       let '(w', r) := login w un pw (Rejected e) in
       success r = false
       ∧ (∃ msg, error r = Some msg ∧ msg ≠ "")
       ∧ error r = Some (JS.str_or (detailOf e) "Login failed")
       ∧ token w' = token w
       ∧ currentUser w' = currentUser w
       ∧ (isUnauthorized e = false → w' = w)
       ∧ (isUnauthorized e = true →
          getItem TOKEN_KEY w' = None ∧ href w' = "/login")).
Proof.
  split.
  - intros w un pw d. simpl. unfold getItem. simpl.
    rewrite lookup_insert_eq. done.
  - intros w un pw e. simpl.
    destruct (failed_message e "Login failed") as [Hs Hm]; [done|].
    destruct (responseInterceptor_cells w e) as (Ht & Hu & _).
    split; [exact Hs|]. split; [exact Hm|]. split; [done|].
    split; [exact Ht|]. split; [exact Hu|]. split.
    + apply responseInterceptor_other.
    + apply responseInterceptor_401.
Qed.

(** Witness for C6: a network failure during login changes nothing. *)
Lemma login_result_witness :
  let w := initialize (AuthProvider ∅ "/login") (Fulfilled viewer) in
  let e := {| response := None; message := "Network Error" |} in
  (login w "guest" "secret" (Rejected e)).1 = w
  ∧ error (login w "guest" "secret" (Rejected e)).2 = Some "Login failed".
Proof.
  intros w e.
  pose proof (proj2 login_result w "guest" "secret" e) as H.
  simpl in H. destruct H as (_ & _ & Herr & _ & _ & Hsame & _).
  split; [apply Hsame; reflexivity | exact Herr].
Defined.


(* The invariant along runs of the event loop. *)

Lemma step_preserves_invariant (w : World) (e : Event) :
  timely w e = true → sessionInvariant w → sessionInvariant (step w e).
Proof.
  unfold sessionInvariant, hasUser, hasToken. intros Ht Hinv.
  destruct e as [ | |a|a|a|a|fb a|msg]; simpl.
  - (* Reload *) done.
  - (* TokenEffect *) unfold tokenEffectStart.
    destruct (JS.truthy (token w)) eqn:E; simpl; rewrite ?E; [done|exact Hinv].
  - (* ValidateSettled *) unfold validateTokenSettle.
    destruct a as [u|err]; simpl; [|done].
    intros _. exact Ht.
  - (* LoginSettled *) destruct a as [d|err]; simpl.
    + intros _. exact Ht.
    + destruct (responseInterceptor_cells w err) as (-> & -> & _). exact Hinv.
  - (* LogoutSettled *) done.
  - (* UpdateProfileSettled *) destruct a as [u|err]; simpl.
    + intros _. exact Ht.
    + destruct (responseInterceptor_cells w err) as (-> & -> & _). exact Hinv.
  - (* PlainSettled *) destruct a as [u|err]; simpl; [exact Hinv|].
    destruct (responseInterceptor_cells w err) as (-> & -> & _). exact Hinv.
  - (* RefreshSettled *) exact Hinv.
Qed.

Lemma run_preserves_invariant (trace : list Event) :
  ∀ w, timelyRun w trace = true → sessionInvariant w →
       sessionInvariant (run w trace).
Proof.
  induction trace as [|e trace IH]; intros w Ht Hinv; [exact Hinv|].
  simpl in Ht. apply andb_true_iff in Ht as [He Ht].
  unfold run. simpl. apply IH; [exact Ht|].
  by apply step_preserves_invariant.
Qed.

Lemma initialize_as_run (w : World) (answer : Settled User) :
  initialize w answer =
  if JS.truthy (token w)
  then run w [TokenEffect; ValidateSettled answer]
  else run w [TokenEffect].
Proof.
  unfold initialize, run, validateToken. simpl. unfold tokenEffectStart.
  by destruct (JS.truthy (token w)).
Qed.

(** C5 (as stated, refuted): a profile update that settles successfully
    after a logout leaves [currentUser] present while the token is absent. *)
Lemma invariant_broken_by_late_profile_answer :
  ¬ (∀ (storage : gmap string string) (location : string) (trace : list Event),
       sessionInvariant (run (AuthProvider storage location) trace)).
Proof.
  intros H.
  pose (u := {| id := 4; username := "olga"; role := Some TSF_OPERATOR;
                facilities_access := Some ["TSF-1"] |}).
  specialize (H ∅ "/login"
                [ TokenEffect;
                  LoginSettled (Fulfilled {| access_token := "t1"; user := u |});
                  LogoutSettled (Some (Fulfilled ()));
                  UpdateProfileSettled (Fulfilled u) ]).
  unfold sessionInvariant in H. vm_compute in H.
  specialize (H eq_refl). discriminate.
Qed.

(** C5 (amended): once the startup initialization has resolved, [loading]
    is false and exactly one of the two holds: [currentUser] is set together
    with a token, or both are absent.  Whenever [currentUser] is present the
    token is present too, along every run of the provider in which each
    successful /auth/me or /auth/profile answer settles while the token is
    still held and each successful login carries a non-empty token. *)
Theorem session_invariant :
  (∀ (storage : gmap string string) (location : string) (answer : Settled User),
     let w := initialize (AuthProvider storage location) answer in
     loading w = false
     ∧ ((hasUser w = true ∧ hasToken w = true)
        ∨ (currentUser w = None ∧ hasToken w = false))
     ∧ ¬ ((hasUser w = true ∧ hasToken w = true)
          ∧ (currentUser w = None ∧ hasToken w = false)))
  ∧ (∀ (storage : gmap string string) (location : string) (trace : list Event),
       timelyRun (AuthProvider storage location) trace = true →
       sessionInvariant (run (AuthProvider storage location) trace)).
Proof.
  split.
  - intros storage location answer w.
    split; [|split].
    + subst w. unfold initialize, validateToken, validateTokenSettle.
      destruct (JS.truthy _); [|done].
      by destruct (settle _ answer) as [w' [d|e]].
    + subst w. unfold initialize, hasUser, hasToken.
      destruct (JS.truthy (token (AuthProvider storage location))) eqn:Ht.
      * unfold validateToken, validateTokenSettle.
        destruct answer as [d|e]; simpl.
        -- left. split; [done|]. exact Ht.
        -- right. done.
      * right. simpl. split; [done|]. exact Ht.
    + intros [[_ H1] [_ H2]]. congruence.
  - intros storage location trace Ht.
    apply run_preserves_invariant; [exact Ht|].
    unfold sessionInvariant, hasUser. simpl. done.
Qed.

(** Witness for C5: a page load with a stored token, validation, logout
    and a fresh login. *)
Lemma session_invariant_witness :
  let u := {| id := 4; username := "olga"; role := Some TSF_OPERATOR;
              facilities_access := Some ["TSF-1"] |} in
  let trace := [ TokenEffect; ValidateSettled (Fulfilled u);
                 UpdateProfileSettled (Fulfilled u);
                 LogoutSettled (Some (Fulfilled ())); TokenEffect;
                 LoginSettled (Fulfilled {| access_token := "t2"; user := u |}) ] in
  sessionInvariant (run (AuthProvider {[ TOKEN_KEY := "t1" ]} "/dashboard") trace).
Proof.
  intros u trace.
  apply (proj2 session_invariant {[ TOKEN_KEY := "t1" ]} "/dashboard" trace).
  vm_compute. reflexivity.
Defined.


Lemma refresh_keeps_loggedOut (w : World) (engineMessage : string) :
  loggedOut w → loggedOut (step w (RefreshSettled engineMessage)).
Proof. unfold loggedOut. intros H. exact H. Qed.



(* --------------------------------------------------------------------- *)
(* Scenarios                                                             *)
(* --------------------------------------------------------------------- *)

(* Login against a stub that answers {access_token: t1, user: superadmin}. *)
Example scenario_superadmin_login :
  let w0 := initialize (AuthProvider ∅ "/login") (Fulfilled superadmin) in
  let '(w, r) := login w0 "superadmin" "ChangeMe123!"
                   (Fulfilled {| access_token := "t1"; user := superadmin |}) in
  let st := atRole SUPER_ADMIN in
  syncRole initialRoleState (currentUser w) = JS.Normal st
  ∧ success r = true
  ∧ hasUser w = true ∧ token w = Some "t1" ∧ getItem TOKEN_KEY w = Some "t1"
  ∧ hasPermission st "canAccessAdminPanel" = JS.Normal true
  ∧ value <$> getAvailableRoles st = knownRoles
  ∧ Routes (setLoading false w) st "/users" = JS.Normal (Page "UsersPage").
Proof. vm_compute. repeat split; reflexivity. Qed.

Example scenario_viewer_denied :
  let w := initialize (AuthProvider {[ TOKEN_KEY := "t3" ]} "/users")
             (Fulfilled viewer) in
  let st := atRole VIEWER in
  syncRole initialRoleState (currentUser w) = JS.Normal st
  ∧ hasPermission st "canAccessAdminPanel" = JS.Normal false
  ∧ Routes w st "/users" = JS.Normal (Navigate "/dashboard")
  ∧ visibleNavigation st = JS.Normal ["/dashboard"; "/monitoring"]
  ∧ (value <$> getAvailableRoles st) = [VIEWER].
Proof. vm_compute. repeat split; reflexivity. Qed.

Example scenario_unauthenticated :
  let w := initialize (AuthProvider ∅ "/monitoring") (Fulfilled viewer) in
  syncRole initialRoleState (currentUser w) = JS.Normal initialRoleState
  ∧ Routes w initialRoleState "/monitoring" = JS.Normal (Navigate "/login").
Proof. vm_compute. split; reflexivity. Qed.

(* ===================================================================== *)
(* Further properties of the evaluator                                   *)
(* ===================================================================== *)

Lemma roleNames_keys : map_Forall (λ R _, R ∈ knownRoles) roleNames.
Proof. apply (bool_decide_unpack _). vm_compute. exact I. Qed.

Lemma roleColors_keys : map_Forall (λ R _, R ∈ knownRoles) roleColors.
Proof. apply (bool_decide_unpack _). vm_compute. exact I. Qed.

(* A session whose roles stay outside Object.prototype has a numeric
   level: that of its role. *)
Lemma syncRole_plain (prev : RoleState) (cu : option User) :
  (∀ R, cu ≫= role = Some R → R ∉ JS.objectPrototypeNames) →
  syncRole prev cu =
  JS.Normal (match cu ≫= role with
             | Some R => if JS.truthy (Some R) then atRole R
                         else initialRoleState
             | None => initialRoleState
             end).
Proof.
  intros Hk. unfold syncRole. destruct (cu ≫= role) as [R|]; [|done].
  destruct (JS.truthy (Some R)); [|done].
  by rewrite (levelOf_table R (Hk R eq_refl)).
Qed.

Lemma throwing_names (R : string) :
  R ∈ ["__defineGetter__"; "__defineSetter__"; "hasOwnProperty";
       "__lookupGetter__"; "__lookupSetter__"; "propertyIsEnumerable";
       "valueOf"; "toLocaleString"] →
  R ∈ JS.objectPrototypeNames
  ∧ ∀ prev : Level, setRoleLevel (levelOf R) prev = JS.Throw.
Proof.
  rewrite !elem_of_cons, elem_of_nil. intros H.
  repeat destruct H as [H|H]; try done; subst R;
    (split; [unfold JS.objectPrototypeNames; rewrite !elem_of_cons; auto 20
            | intros prev; by vm_compute]).
Qed.

(** X1: for a user whose role is no member name of Object.prototype, the
    provider's effect completes from every state, with the same result as
    from the initial state: the level is the number the table lists for
    the role, between 0 and 8, positive exactly for the 8 known roles, and
    the role cell is empty exactly when the user has no role or the empty
    one.  For a role that is such a name the level is not looked up but
    computed by the inherited function from the previous level: constructor
    boxes it, toString gives the tag of undefined, isPrototypeOf gives
    false for a primitive and throws otherwise, __proto__ stores
    Object.prototype, and the other eight names throw. *)
Theorem syncRole_level_invariant :
  (∀ (prev : RoleState) (cu : option User),
     (∀ R, cu ≫= role = Some R → R ∉ JS.objectPrototypeNames) →
     ∃ (st : RoleState) (L : Z),
       syncRole prev cu = JS.Normal st
       ∧ syncRole initialRoleState cu = JS.Normal st
       ∧ roleLevel st = LPrim (PNum L)
       ∧ (0 ≤ L ≤ 8)%Z
       ∧ L = match userRole st with Some R => tableLevel R | None => 0%Z end
       ∧ ((0 < L)%Z ↔ ∃ R, userRole st = Some R ∧ R ∈ knownRoles)
       ∧ (userRole st = None ↔ cu ≫= role = None ∨ cu ≫= role = Some ""))
  ∧ (∀ (prev : RoleState) (cu : option User) (st : RoleState),
       syncRole prev cu = JS.Normal st →
       userRole st = if JS.truthy (cu ≫= role) then cu ≫= role else None)
  ∧ (∀ (prev : RoleState) (u : User),
       role u = Some "constructor" →
       syncRole prev (Some u) =
       JS.Normal {| userRole := Some "constructor";
                    roleLevel := match roleLevel prev with
                                 | LPrim p => LBoxed p
                                 | l => l
                                 end |})
  ∧ (∀ (prev : RoleState) (u : User),
       role u = Some "toString" →
       syncRole prev (Some u) =
       JS.Normal {| userRole := Some "toString";
                    roleLevel := LPrim PUndefinedTag |})
  ∧ (∀ (prev : RoleState) (u : User),
       role u = Some "__proto__" →
       syncRole prev (Some u) =
       JS.Normal {| userRole := Some "__proto__"; roleLevel := LProto |})
  ∧ (∀ (prev : RoleState) (u : User),
       role u = Some "isPrototypeOf" →
       syncRole prev (Some u) =
       match roleLevel prev with
       | LPrim _ => JS.Normal {| userRole := Some "isPrototypeOf";
                                 roleLevel := LPrim PFalse |}
       | _ => JS.Throw
       end)
  ∧ (∀ (prev : RoleState) (u : User) (R : string),
       role u = Some R →
       R ∈ ["__defineGetter__"; "__defineSetter__"; "hasOwnProperty";
            "__lookupGetter__"; "__lookupSetter__"; "propertyIsEnumerable";
            "valueOf"; "toLocaleString"] →
       syncRole prev (Some u) = JS.Throw).
Proof.
  split; [|split; [exact syncRole_userRole|]].
  - intros prev cu Hk. rewrite !(syncRole_plain _ cu Hk).
    destruct (cu ≫= role) as [R|] eqn:HR.
    + destruct (JS.truthy (Some R)) eqn:Ht.
      * apply truthy_Some in Ht.
        exists (atRole R), (tableLevel R).
        split; [done|]. split; [done|]. split; [done|].
        split; [apply tableLevel_range|]. split; [done|]. split.
        -- rewrite tableLevel_positive. simpl. split; [by exists R|].
           by intros (R' & [= <-] & ?).
        -- simpl. split; [done|]. intros [?|[= ?]]; done.
      * assert (R = "") as ->.
        { destruct (decide (R = "")) as [?|Hne]; [done|].
          apply truthy_Some in Hne. congruence. }
        exists initialRoleState, 0%Z.
        split; [done|]. split; [done|]. split; [done|]. split; [lia|].
        split; [done|]. split; [|by split; auto].
        split; [lia | by intros (? & ? & _)].
    + exists initialRoleState, 0%Z.
      split; [done|]. split; [done|]. split; [done|]. split; [lia|].
      split; [done|]. split; [|by split; auto].
      split; [lia | by intros (? & ? & _)].
  - split; [|split; [|split; [|split]]].
    + intros prev u H. unfold syncRole.
      change (Some u ≫= role) with (role u). rewrite H.
      by destruct (roleLevel prev).
    + intros prev u H. unfold syncRole.
      change (Some u ≫= role) with (role u). by rewrite H.
    + intros prev u H. unfold syncRole.
      change (Some u ≫= role) with (role u). by rewrite H.
    + intros prev u H. unfold syncRole.
      change (Some u ≫= role) with (role u). rewrite H.
      by destruct (roleLevel prev).
    + intros prev u R H Hin. unfold syncRole.
      change (Some u ≫= role) with (role u). rewrite H.
      destruct (throwing_names R Hin) as [Hk Hthrow].
      rewrite Hthrow.
      assert (R ≠ "") as Hne.
      { intros ->. revert Hk. apply (bool_decide_unpack _). by vm_compute. }
      apply truthy_Some in Hne. by rewrite Hne.
Qed.

(** Witness for X1: an engineer of record arriving in a viewer's session. *)
Lemma syncRole_level_invariant_witness :
  ∃ (st : RoleState) (L : Z),
    syncRole (atRole VIEWER)
      (Some {| id := 3; username := "erin"; role := Some ENGINEER_OF_RECORD;
               facilities_access := None |}) = JS.Normal st
    ∧ roleLevel st = LPrim (PNum L) ∧ (0 ≤ L ≤ 8)%Z.
Proof.
  destruct (proj1 syncRole_level_invariant (atRole VIEWER)
              (Some {| id := 3; username := "erin";
                       role := Some ENGINEER_OF_RECORD;
                       facilities_access := None |}))
    as (st & L & H1 & _ & H2 & H3 & _).
  - intros R [= <-]. apply (bool_decide_unpack _). by vm_compute.
  - exists st, L. auto.
Defined.

Lemma hasRoleLevel_numeric (st : RoleState) (n L : Z) :
  levelComparand (roleLevel st) = JS.CNum n →
  hasRoleLevel st L = true ↔ (L ≤ n)%Z.
Proof.
  intros H. unfold hasRoleLevel, JS.ge. rewrite H. simpl.
  rewrite negb_true_iff, Z.ltb_ge. done.
Qed.

Lemma hasRoleLevel_true (st : RoleState) (L : Z) :
  hasRoleLevel st L = true →
  ∃ n, levelComparand (roleLevel st) = JS.CNum n ∧ (L ≤ n)%Z.
Proof.
  unfold hasRoleLevel, JS.ge.
  destruct (levelComparand (roleLevel st)) as [n|t]; simpl; [|done].
  rewrite negb_true_iff, Z.ltb_ge. intros H. by exists n.
Qed.

(** X2: [hasRoleLevel] is downward closed in the required level, in every
    state; for a role [R] outside Object.prototype [hasHigherRoleThan R] is
    [hasRoleLevel] one above the level of [R]; a session without role has
    no positive level, a session whose roles stay outside Object.prototype
    reaches no level above 8, and a level that is the tag of undefined or
    Object.prototype meets no requirement at all, while a boxed number
    counts as the number. *)
Theorem hasRoleLevel_properties :
  (∀ (st : RoleState) (L L' : Z),
     (L' ≤ L)%Z → hasRoleLevel st L = true → hasRoleLevel st L' = true)
  ∧ (∀ (st : RoleState) (R : string),
       R ∉ JS.objectPrototypeNames →
       hasHigherRoleThan st R = hasRoleLevel st (tableLevel R + 1))
  ∧ (∀ R1 R2 : string,
       R1 ∉ JS.objectPrototypeNames →
       hasRoleLevel (atRole R1) (tableLevel R2) = true
       ↔ hasHigherRoleThan (atRole R2) R1 = false)
  ∧ (∀ (prev : RoleState) (L : Z),
       (0 < L)%Z →
       ∃ st, syncRole prev None = JS.Normal st ∧ hasRoleLevel st L = false)
  ∧ (∀ (prev : RoleState) (cu : option User) (L : Z),
       (∀ R, cu ≫= role = Some R → R ∉ JS.objectPrototypeNames) →
       (8 < L)%Z →
       ∃ st, syncRole prev cu = JS.Normal st ∧ hasRoleLevel st L = false)
  ∧ (∀ (st : RoleState) (L : Z),
       roleLevel st = LPrim PUndefinedTag ∨ roleLevel st = LProto →
       hasRoleLevel st L = false)
  ∧ (∀ (st : RoleState) (n L : Z),
       roleLevel st = LBoxed (PNum n) ∨ roleLevel st = LPrim (PNum n) →
       hasRoleLevel st L = true ↔ (L ≤ n)%Z).
Proof.
  split; [|split; [|split; [|split; [|split; [|split]]]]].
  - intros st L L' Hle H. apply hasRoleLevel_true in H as (n & Hn & ?).
    apply (hasRoleLevel_numeric st n); [done | lia].
  - intros st R HR. unfold hasHigherRoleThan, hasRoleLevel, JS.gt, JS.ge.
    rewrite (levelOf_table R HR).
    destruct (levelComparand (roleLevel st)) as [n|t]; simpl; [|done].
    destruct (Z.ltb_spec (tableLevel R) n);
      destruct (Z.ltb_spec n (tableLevel R + 1)); (done || lia).
  - intros R1 R2 H1.
    rewrite (hasRoleLevel_numeric _ (tableLevel R1)) by done.
    rewrite <- not_true_iff_false.
    rewrite (hasHigherRoleThan_numeric _ (tableLevel R2)) by done. lia.
  - intros prev L HL. exists initialRoleState. split; [done|].
    apply not_true_is_false.
    rewrite (hasRoleLevel_numeric _ 0) by done. lia.
  - intros prev cu L Hk HL. rewrite (syncRole_plain prev cu Hk).
    eexists. split; [reflexivity|]. apply not_true_is_false.
    destruct (cu ≫= role) as [R|];
      [destruct (JS.truthy (Some R))|].
    + rewrite (hasRoleLevel_numeric _ (tableLevel R)) by done.
      pose proof (tableLevel_range R). lia.
    + rewrite (hasRoleLevel_numeric _ 0) by done. lia.
    + rewrite (hasRoleLevel_numeric _ 0) by done. lia.
  - intros st L [H|H]; unfold hasRoleLevel; by rewrite H.
  - intros st n L [H|H]; apply hasRoleLevel_numeric; by rewrite H.
Qed.

(** Witness for X2 at concrete levels. *)
Lemma hasRoleLevel_properties_witness :
  hasRoleLevel (atRole MANAGEMENT) 3 = true
  ∧ hasHigherRoleThan (atRole MANAGEMENT) "auditor"
    = hasRoleLevel (atRole MANAGEMENT) (tableLevel "auditor" + 1).
Proof.
  split.
  - apply (proj1 hasRoleLevel_properties (atRole MANAGEMENT) 5%Z 3%Z);
      [by vm_compute | reflexivity].
  - apply (proj1 (proj2 hasRoleLevel_properties) (atRole MANAGEMENT) "auditor").
    apply (bool_decide_unpack _). by vm_compute.
Defined.

Lemma roleNames_unknown (R : string) : R ∉ knownRoles → roleNames !! R = None.
Proof.
  intros H. destruct (roleNames !! R) eqn:E; [|done].
  by apply roleNames_keys in E.
Qed.

Lemma roleColors_unknown (R : string) : R ∉ knownRoles → roleColors !! R = None.
Proof.
  intros H. destruct (roleColors !! R) eqn:E; [|done].
  by apply roleColors_keys in E.
Qed.

Lemma lookupOr_inherited (table : gmap string string) (key fb : string) :
  table !! key = None → key ∈ JS.objectPrototypeNames →
  lookupOr table (Some key) fb =
  if String.eqb key "__proto__" then JS.Proto else JS.Builtin key.
Proof.
  intros H Hk. unfold lookupOr. simpl. rewrite (get_inherited _ _ H Hk).
  by destruct (String.eqb key "__proto__").
Qed.

(** X3: for a role outside the 8 known ones and outside Object.prototype
    the display lookups give 'Unknown Role' and the grey colour; the known
    roles get pairwise different labels, none of them 'Unknown Role', and
    pairwise different colours, of which the viewer's is the grey of
    unknown roles; without an argument the lookups use the current role,
    and give the defaults when there is none.  For a member name of
    Object.prototype the lookups give no string but the inherited member:
    for constructor the function Object, for __proto__ the prototype. *)
Theorem role_display_lookups :
  (∀ (st : RoleState) (R : string),
     R ∉ knownRoles → R ∉ JS.objectPrototypeNames →
     getRoleDisplayName st (Some R) = JS.Val "Unknown Role"
     ∧ getRoleColor st (Some R) = JS.Val "#616161")
  ∧ (∀ (st : RoleState) (R : string),
       R ∈ knownRoles →
       ∃ name colour,
         getRoleDisplayName st (Some R) = JS.Val name
         ∧ getRoleColor st (Some R) = JS.Val colour
         ∧ name ≠ "Unknown Role")
  ∧ (∀ (st : RoleState) (R1 R2 : string),
       R1 ∈ knownRoles → R2 ∈ knownRoles →
       getRoleDisplayName st (Some R1) = getRoleDisplayName st (Some R2)
       ∨ getRoleColor st (Some R1) = getRoleColor st (Some R2) →
       R1 = R2)
  ∧ (∀ st : RoleState, getRoleColor st (Some VIEWER) = JS.Val "#616161")
  ∧ (∀ st : RoleState,
       getRoleDisplayName st None = getRoleDisplayName st (userRole st)
       ∧ getRoleColor st None = getRoleColor st (userRole st))
  ∧ (∀ st : RoleState,
       userRole st = None →
       getRoleDisplayName st None = JS.Val "Unknown Role"
       ∧ getRoleColor st None = JS.Val "#616161")
  ∧ (∀ (st : RoleState) (key : string),
       key ∈ JS.objectPrototypeNames →
       let member := if String.eqb key "__proto__"
                     then JS.Proto else JS.Builtin key in
       getRoleDisplayName st (Some key) = member
       ∧ getRoleColor st (Some key) = member
       ∧ ∀ s : string, member ≠ JS.Val s)
  ∧ (∀ st : RoleState,
       getRoleDisplayName st (Some "constructor") = JS.Builtin "constructor"
       ∧ JS.builtinName "constructor" = "Object"
       ∧ getRoleDisplayName st (Some "__proto__") = JS.Proto).
Proof.
  split; [|split; [|split; [|split; [|split; [|split; [|split]]]]]].
  - intros st R H Hk. unfold getRoleDisplayName, getRoleColor, lookupOr. simpl.
    rewrite (get_undefined _ _ (roleNames_unknown R H) Hk).
    by rewrite (get_undefined _ _ (roleColors_unknown R H) Hk).
  - intros st R H. apply known_roles_cases in H.
    repeat destruct H as [H|H]; subst R;
      (eexists; eexists; split; [by vm_compute|]; split; [by vm_compute|];
       discriminate).
  - intros st R1 R2 H1 H2. apply known_roles_cases in H1, H2.
    repeat destruct H1 as [H1|H1]; subst R1;
      repeat destruct H2 as [H2|H2]; subst R2;
      try reflexivity; vm_compute; intros [?|?]; discriminate.
  - intros st. reflexivity.
  - intros st. unfold getRoleDisplayName, getRoleColor.
    by destruct (userRole st).
  - intros st H. unfold getRoleDisplayName, getRoleColor. by rewrite H.
  - intros st key Hk member.
    destruct (tables_without_inherited_keys key Hk) as (_ & _ & Hn & Hc).
    unfold getRoleDisplayName, getRoleColor.
    rewrite (lookupOr_inherited _ _ _ Hn Hk), (lookupOr_inherited _ _ _ Hc Hk).
    split; [done|]. split; [done|]. intros s. subst member.
    by destruct (String.eqb key "__proto__").
  - intros st. by vm_compute.
Qed.

(** Witness for X3: an unknown role name and a known one. *)
Lemma role_display_lookups_witness :
  getRoleDisplayName (atRole ADMIN) (Some "auditor") = JS.Val "Unknown Role"
  ∧ ∃ name colour,
      getRoleDisplayName (atRole ADMIN) (Some REGULATOR) = JS.Val name
      ∧ getRoleColor (atRole ADMIN) (Some REGULATOR) = JS.Val colour
      ∧ name ≠ "Unknown Role".
Proof.
  split.
  - apply (proj1 role_display_lookups (atRole ADMIN) "auditor").
    + rewrite known_roles_cases. intros H.
      repeat destruct H as [H|H]; discriminate.
    + apply (bool_decide_unpack _). by vm_compute.
  - apply (proj1 (proj2 role_display_lookups) (atRole ADMIN) REGULATOR).
    rewrite known_roles_cases. auto 10.
Defined.

Lemma permissions_include_super_admin :
  map_Forall (λ _ roles, SUPER_ADMIN ∈ roles) PERMISSIONS.
Proof. apply (bool_decide_unpack _). vm_compute. exact I. Qed.

(* With a role set, a permission of the table is membership in its list. *)
Lemma hasPermission_role (st : RoleState) (R P : string) (roles : list string) :
  userRole st = Some R → PERMISSIONS !! P = Some roles →
  hasPermission st P = JS.Normal (bool_decide (R ∈ roles)).
Proof.
  intros HR HP. unfold hasPermission. rewrite HR. simpl.
  destruct (String.eqb_spec R "") as [->|Hne]; simpl.
  - rewrite bool_decide_false; [done|].
    by apply (permission_lists_nonempty_names P roles).
  - by rewrite (get_own _ _ _ HP).
Qed.

Lemma hasPermission_unknown_role (st : RoleState) (R P : string) :
  userRole st = Some R → R ∉ knownRoles → P ∉ JS.objectPrototypeNames →
  hasPermission st P = JS.Normal false.
Proof.
  intros HR H HP. destruct (PERMISSIONS !! P) as [roles|] eqn:E.
  - rewrite (hasPermission_role st R P roles HR E).
    rewrite bool_decide_false; [done|]. intros Hin. apply H.
    by apply (permission_lists_known P roles).
  - by apply hasPermission_unlisted.
Qed.

(** X4: a super administrator holds every permission of the table; a role
    outside the 8 known ones holds no permission, whatever name outside
    Object.prototype is asked for; every known role may view monitoring;
    and for a name the table does list, the answer is the membership of
    the current role in the list, also for a role named like a member of
    Object.prototype. *)
Theorem permission_extremes :
  (∀ (st : RoleState) (P : string),
     userRole st = Some SUPER_ADMIN → is_Some (PERMISSIONS !! P) →
     hasPermission st P = JS.Normal true)
  ∧ (∀ (st : RoleState) (R P : string),
       userRole st = Some R → R ∉ knownRoles → P ∉ JS.objectPrototypeNames →
       hasPermission st P = JS.Normal false)
  ∧ (∀ (st : RoleState) (R : string),
       userRole st = Some R → R ∈ knownRoles →
       hasPermission st "canViewMonitoring" = JS.Normal true)
  ∧ (∀ (st : RoleState) (R P : string) (roles : list string),
       userRole st = Some R → PERMISSIONS !! P = Some roles →
       hasPermission st P = JS.Normal (bool_decide (R ∈ roles)))
  ∧ (∀ (prev : RoleState) (u : User) (R : string),
       role u = Some R → R ∈ knownRoles →
       ∃ st, syncRole prev (Some u) = JS.Normal st ∧ userRole st = Some R).
Proof.
  split; [|split; [exact hasPermission_unknown_role|split; [|split]]].
  - intros st P HR [roles HP]. rewrite (hasPermission_role st _ P roles HR HP).
    rewrite bool_decide_true; [done|].
    by apply (permissions_include_super_admin P).
  - intros st R HR H.
    rewrite (hasPermission_role st R "canViewMonitoring"
               [SUPER_ADMIN; ADMIN; ENGINEER_OF_RECORD; TSF_OPERATOR; REGULATOR;
                MANAGEMENT; CONSULTANT; VIEWER] HR) by (by vm_compute).
    rewrite bool_decide_true; [done|]. by rewrite <- knownRoles_eq.
  - exact hasPermission_role.
  - intros prev u R HR H. exists (atRole R). split; [|done].
    apply syncRole_atRole; [done | |].
    + by apply known_role_nonempty.
    + by apply known_role_not_inherited.
Qed.

(** Witness for X4. *)
Lemma permission_extremes_witness :
  hasPermission (atRole SUPER_ADMIN) "canGenerateSyntheticData" = JS.Normal true
  ∧ hasPermission (atRole "auditor") "canViewMonitoring" = JS.Normal false.
Proof.
  split.
  - apply (proj1 permission_extremes (atRole SUPER_ADMIN)
             "canGenerateSyntheticData"); [reflexivity|].
    by vm_compute; eexists.
  - apply (proj1 (proj2 permission_extremes) (atRole "auditor") "auditor"
             "canViewMonitoring"); [reflexivity | |].
    + rewrite known_roles_cases. intros H.
      repeat destruct H as [H|H]; discriminate.
    + apply (bool_decide_unpack _). by vm_compute.
Defined.

Lemma hasPermission_included (st : RoleState) (P Q : string) (rP rQ : list string) :
  PERMISSIONS !! P = Some rP → PERMISSIONS !! Q = Some rQ → rP ⊆ rQ →
  hasPermission st P = JS.Normal true → hasPermission st Q = JS.Normal true.
Proof.
  intros HP HQ Hsub. rewrite !hasPermission_char.
  intros (R & roles & HR & Hne & HP' & Hin).
  rewrite HP in HP'. injection HP' as <-.
  exists R, rQ. repeat split; try done. by apply Hsub.
Qed.

(** X5: under every session state the stronger permission of each pair
    implies the weaker one: editing implies viewing (monitoring,
    compliance), generating synthetic data implies viewing it, deleting
    users implies managing them, deleting documents implies uploading, and
    access to the admin panel, managing users and resetting passwords go
    together. *)
Theorem permission_implications :
  ∀ (st : RoleState) (P Q : string),
    (P, Q) ∈ [ ("canEditMonitoring", "canViewMonitoring");
               ("canEditCompliance", "canViewCompliance");
               ("canGenerateSyntheticData", "canViewSyntheticData");
               ("canDeleteUsers", "canManageUsers");
               ("canDeleteDocuments", "canUploadDocuments");
               ("canDeleteDocuments", "canViewAllDocuments");
               ("canAccessAdminPanel", "canManageUsers");
               ("canManageUsers", "canResetPasswords");
               ("canResetPasswords", "canAccessAdminPanel") ] →
    hasPermission st P = JS.Normal true → hasPermission st Q = JS.Normal true.
Proof.
  intros st P Q Hin. rewrite !elem_of_cons, elem_of_nil in Hin.
  repeat destruct Hin as [Hin|Hin]; try done; injection Hin as -> ->;
    (eapply hasPermission_included;
     [ vm_compute; reflexivity | vm_compute; reflexivity
     | apply (bool_decide_unpack _); vm_compute; exact I ]).
Qed.

(** Witness for X5: an engineer of record may edit, hence view,
    compliance. *)
Lemma permission_implications_witness :
  hasPermission (atRole ENGINEER_OF_RECORD) "canViewCompliance" = JS.Normal true.
Proof.
  apply (permission_implications (atRole ENGINEER_OF_RECORD)
           "canEditCompliance" "canViewCompliance");
    [ rewrite !elem_of_cons; auto | reflexivity ].
Defined.

(** X6: for a session whose level is the table level of its role, as the
    provider's effect leaves it for every role outside Object.prototype,
    some permissions are thresholds of the hierarchy: the admin panel is
    open exactly from level 7, deleting users from level 8, the AI query
    from level 2 and monitoring from level 1.  Permissions in general are
    not thresholds: the TSF operator outranks the regulator, yet only the
    regulator may view all documents.  Nor do the thresholds hold in every
    state the effect can leave: the role constructor arriving in a session
    of level 8 keeps the boxed 8 as level and holds no permission. *)
Theorem permissions_and_levels :
  (∀ (st : RoleState) (R : string),
     userRole st = Some R → roleLevel st = LPrim (PNum (tableLevel R)) →
     hasPermission st "canAccessAdminPanel" = JS.Normal (hasRoleLevel st 7)
     ∧ hasPermission st "canDeleteUsers" = JS.Normal (hasRoleLevel st 8)
     ∧ hasPermission st "canUseAIQuery" = JS.Normal (hasRoleLevel st 2)
     ∧ hasPermission st "canViewMonitoring" = JS.Normal (hasRoleLevel st 1))
  ∧ (∀ (prev : RoleState) (u : User) (R : string),
       role u = Some R → R ≠ "" → R ∉ JS.objectPrototypeNames →
       ∃ st, syncRole prev (Some u) = JS.Normal st
             ∧ userRole st = Some R
             ∧ roleLevel st = LPrim (PNum (tableLevel R)))
  ∧ (hasHigherRoleThan (atRole TSF_OPERATOR) REGULATOR = true
     ∧ hasPermission (atRole REGULATOR) "canViewAllDocuments" = JS.Normal true
     ∧ hasPermission (atRole TSF_OPERATOR) "canViewAllDocuments"
       = JS.Normal false)
  ∧ (∃ st, syncRole (atRole SUPER_ADMIN)
             (Some {| id := 9; username := "eve"; role := Some "constructor";
                      facilities_access := None |}) = JS.Normal st
           ∧ hasRoleLevel st 7 = true
           ∧ hasPermission st "canAccessAdminPanel" = JS.Normal false).
Proof.
  split; [|split; [|split]].
  - intros [ur rl] R HR HL. simpl in HR, HL. subst ur rl.
    destruct (decide (R ∈ knownRoles)) as [H|H].
    + apply known_roles_cases in H.
      repeat destruct H as [H|H]; subst R; by vm_compute.
    + assert (tableLevel R = 0%Z) as H0.
      { pose proof (tableLevel_range R). pose proof (tableLevel_positive R).
        destruct (decide (0 < tableLevel R)%Z); [tauto | lia]. }
      rewrite !(hasPermission_unknown_role _ R) by
        (try done; apply (bool_decide_unpack _); by vm_compute).
      unfold hasRoleLevel. simpl. rewrite H0. done.
  - intros prev u R HR Hne Hk. exists (atRole R).
    split; [by apply syncRole_atRole | done].
  - by vm_compute.
  - eexists. split; [by vm_compute|]. by vm_compute.
Qed.

(** Witness for X6: a consultant may use the AI query, at level 2. *)
Lemma permissions_and_levels_witness :
  hasPermission (atRole CONSULTANT) "canUseAIQuery"
  = JS.Normal (hasRoleLevel (atRole CONSULTANT) 2).
Proof.
  apply (proj1 permissions_and_levels (atRole CONSULTANT) CONSULTANT);
    reflexivity.
Defined.

Lemma broad_access_roles (st : RoleState) (R : string) :
  userRole st = Some R →
  hasPermission st "canViewAllDocuments" =
  JS.Normal (bool_decide
     (R ∈ [SUPER_ADMIN; ADMIN; ENGINEER_OF_RECORD; REGULATOR; MANAGEMENT])).
Proof. intros HR. by apply hasPermission_role. Qed.

(** X7: a user whose role is super_admin, admin, engineer_of_record,
    regulator or management can access every facility, with or without a
    restriction list; for every other role, and for a user without role,
    access is exactly membership in the user's own list, so a user with no
    list or an empty one can access none.  The state is the one the
    provider's effect leaves for the user, from whatever state. *)
Theorem facility_access_by_role :
  (∀ (prev : RoleState) (u : User) (R f : string),
     role u = Some R →
     R ∈ [SUPER_ADMIN; ADMIN; ENGINEER_OF_RECORD; REGULATOR; MANAGEMENT] →
     ∃ st, syncRole prev (Some u) = JS.Normal st
           ∧ canAccessFacility (Some u) st f = JS.Normal true)
  ∧ (∀ (prev : RoleState) (u : User) (R f : string) (st : RoleState),
       role u = Some R →
       R ∉ [SUPER_ADMIN; ADMIN; ENGINEER_OF_RECORD; REGULATOR; MANAGEMENT] →
       syncRole prev (Some u) = JS.Normal st →
       (∃ b, canAccessFacility (Some u) st f = JS.Normal b)
       ∧ (canAccessFacility (Some u) st f = JS.Normal true
          ↔ ∃ fa, facilities_access u = Some fa ∧ f ∈ fa))
  ∧ (∀ (prev : RoleState) (u : User) (f : string),
       role u = None →
       ∃ st, syncRole prev (Some u) = JS.Normal st
             ∧ (canAccessFacility (Some u) st f = JS.Normal true
                ↔ ∃ fa, facilities_access u = Some fa ∧ f ∈ fa))
  ∧ (∀ (prev : RoleState) (f : string),
       ∃ st, syncRole prev None = JS.Normal st
             ∧ canAccessFacility None st f = JS.Normal false).
Proof.
  assert (Hlist : ∀ (u : User) (st : RoleState) (f : string),
    hasPermission st "canViewAllDocuments" = JS.Normal false →
    (∃ b, canAccessFacility (Some u) st f = JS.Normal b)
    ∧ (canAccessFacility (Some u) st f = JS.Normal true
       ↔ ∃ fa, facilities_access u = Some fa ∧ f ∈ fa)).
  { intros u st f Hp. unfold canAccessFacility. simpl. rewrite Hp.
    destruct (facilities_access u) as [fa|].
    - destruct (JS.includes fa f) eqn:E.
      + split; [by exists true|]. split; [|done]. intros _. exists fa.
        split; [done|]. by apply includes_true.
      + split; [by exists false|]. split; [done|].
        intros (fa' & [= <-] & Hin). apply includes_true in Hin. congruence.
    - split; [by exists false|]. split; [done | by intros (? & ? & _)]. }
  split; [|split; [|split]].
  - intros prev u R f HR Hin. exists (atRole R).
    assert (R ∈ knownRoles) as Hknown.
    { rewrite knownRoles_eq. revert Hin. rewrite !elem_of_cons, !elem_of_nil.
      tauto. }
    split.
    + apply syncRole_atRole; [done | |].
      * by apply known_role_nonempty.
      * by apply known_role_not_inherited.
    + unfold canAccessFacility.
      rewrite (broad_access_roles (atRole R) R eq_refl).
      rewrite bool_decide_true by done.
      by destruct (Some u ≫= facilities_access) as [fa|];
        [destruct (JS.includes fa f)|].
  - intros prev u R f st HR Hnin Hst. apply Hlist.
    apply syncRole_userRole in Hst.
    change (Some u ≫= role) with (role u) in Hst. rewrite HR in Hst.
    destruct (JS.truthy (Some R)) eqn:Ht.
    + rewrite (broad_access_roles st R Hst).
      by rewrite bool_decide_false.
    + apply hasPermission_no_role. by rewrite Hst.
  - intros prev u f HR. exists initialRoleState. split.
    + apply syncRole_no_role. simpl. by rewrite HR.
    + by apply Hlist.
  - intros prev f. by exists initialRoleState.
Qed.

(** Witness for X7: a regulator with a list that lacks the facility, and a
    TSF operator restricted to one facility. *)
Lemma facility_access_by_role_witness :
  let reg := {| id := 21; username := "rita"; role := Some REGULATOR;
                facilities_access := Some ["TSF-2"] |} in
  let op := {| id := 22; username := "omar"; role := Some TSF_OPERATOR;
               facilities_access := Some ["TSF-2"] |} in
  (∃ st, syncRole initialRoleState (Some reg) = JS.Normal st
         ∧ canAccessFacility (Some reg) st "TSF-9" = JS.Normal true)
  ∧ canAccessFacility (Some op) (atRole TSF_OPERATOR) "TSF-2" = JS.Normal true.
Proof.
  intros reg op. split.
  - apply (proj1 facility_access_by_role initialRoleState reg REGULATOR "TSF-9");
      [reflexivity | rewrite !elem_of_cons; auto].
  - apply (proj1 (proj2 facility_access_by_role) initialRoleState op
             TSF_OPERATOR "TSF-2" (atRole TSF_OPERATOR));
      [ reflexivity
      | rewrite !elem_of_cons, elem_of_nil; intros H;
        repeat destruct H as [H|H]; first [discriminate | done]
      | reflexivity
      | exists ["TSF-2"]; split; [reflexivity | rewrite elem_of_cons; auto] ].
Defined.

Lemma knownRoles_NoDup : NoDup knownRoles.
Proof. apply (bool_decide_unpack _). vm_compute. exact I. Qed.

Lemma available_iff (st : RoleState) (L : Z) (R : string) :
  levelComparand (roleLevel st) = JS.CNum L →
  R ∈ (value <$> getAvailableRoles st)
  ↔ R ∈ knownRoles ∧ (tableLevel R ≤ L)%Z.
Proof.
  intros H. rewrite (getAvailableRoles_numeric st L H), list_elem_of_filter.
  tauto.
Qed.

Lemma available_length (st : RoleState) (L : Z) :
  levelComparand (roleLevel st) = JS.CNum L → (0 ≤ L ≤ 8)%Z →
  length (getAvailableRoles st) = Z.to_nat L.
Proof.
  intros HL H.
  rewrite <- (length_fmap value), (getAvailableRoles_numeric st L HL).
  assert (L = 0 ∨ L = 1 ∨ L = 2 ∨ L = 3 ∨ L = 4 ∨ L = 5 ∨ L = 6
          ∨ L = 7 ∨ L = 8)%Z as Hc by lia.
  repeat destruct Hc as [Hc|Hc]; subst L; reflexivity.
Qed.

(** X8: the roles offered for assignment are listed without repetition in
    every state; when the level is a number between 0 and 8, as it is for
    every session whose roles stay outside Object.prototype, their number
    is that level; a known role is always offered to itself; a role is
    offered exactly when it is a known role that does not outrank the
    current one; super_admin is offered at level 8 only; and a level that
    is the tag of undefined or Object.prototype offers no role. *)
Theorem available_roles_properties :
  (∀ st : RoleState, NoDup (value <$> getAvailableRoles st))
  ∧ (∀ (st : RoleState) (L : Z),
       levelComparand (roleLevel st) = JS.CNum L → (0 ≤ L ≤ 8)%Z →
       length (getAvailableRoles st) = Z.to_nat L)
  ∧ (∀ (prev : RoleState) (cu : option User),
       (∀ R, cu ≫= role = Some R → R ∉ JS.objectPrototypeNames) →
       ∃ st L, syncRole prev cu = JS.Normal st
               ∧ roleLevel st = LPrim (PNum L)
               ∧ length (getAvailableRoles st) = Z.to_nat L)
  ∧ (∀ R : string,
       R ∈ knownRoles → R ∈ (value <$> getAvailableRoles (atRole R)))
  ∧ (∀ R R' : string,
       R ∉ JS.objectPrototypeNames →
       R' ∈ (value <$> getAvailableRoles (atRole R))
       ↔ R' ∈ knownRoles ∧ hasHigherRoleThan (atRole R') R = false)
  ∧ (∀ (st : RoleState) (L : Z),
       levelComparand (roleLevel st) = JS.CNum L →
       SUPER_ADMIN ∈ (value <$> getAvailableRoles st) ↔ (8 ≤ L)%Z)
  ∧ (∀ st : RoleState,
       roleLevel st = LPrim PUndefinedTag ∨ roleLevel st = LProto →
       getAvailableRoles st = []).
Proof.
  split; [|split; [exact available_length|split; [|split; [|split; [|split]]]]].
  - intros st. rewrite getAvailableRoles_values.
    apply NoDup_filter, knownRoles_NoDup.
  - intros prev cu Hk. rewrite (syncRole_plain prev cu Hk).
    destruct (cu ≫= role) as [R|]; [destruct (JS.truthy (Some R))|].
    + exists (atRole R), (tableLevel R). split; [done|]. split; [done|].
      apply available_length; [done | apply tableLevel_range].
    + by exists initialRoleState, 0%Z.
    + by exists initialRoleState, 0%Z.
  - intros R H. apply (available_iff _ (tableLevel R)); [done|].
    split; [done | simpl; lia].
  - intros R R' HR. rewrite (available_iff _ (tableLevel R)) by done.
    rewrite <- not_true_iff_false.
    rewrite (hasHigherRoleThan_numeric _ (tableLevel R')) by done.
    split; intros [? ?]; (split; [done | lia]).
  - intros st L HL. rewrite (available_iff st L) by done. split.
    + intros [_ H]. exact H.
    + intros H. split; [rewrite known_roles_cases; auto | exact H].
  - intros st H. apply fmap_nil_inv with (f := value).
    rewrite getAvailableRoles_values.
    destruct H as [-> | ->]; reflexivity.
Qed.

(** Witness for X8: a state at level 5. *)
Lemma available_roles_properties_witness :
  length (getAvailableRoles (atRole MANAGEMENT)) = 5%nat
  ∧ MANAGEMENT ∈ (value <$> getAvailableRoles (atRole MANAGEMENT)).
Proof.
  split.
  - apply (proj1 (proj2 available_roles_properties) (atRole MANAGEMENT) 5%Z);
      [reflexivity | lia].
  - apply (proj1 (proj2 (proj2 (proj2 available_roles_properties))) MANAGEMENT).
    rewrite known_roles_cases. auto 10.
Defined.

(* ===================================================================== *)
(* Further properties of the route guard and the sidebar                 *)
(* ===================================================================== *)

Lemma Routes_protected (w : World) (st : RoleState)
    (path : string) (perm : option string) (page : string) :
  (path, perm, page) ∈ protectedRoutes →
  Routes w st path = ProtectedRoute w st perm (Page page).
Proof.
  unfold protectedRoutes. rewrite !elem_of_cons, elem_of_nil. intros H.
  repeat destruct H as [H|H]; try done; injection H as -> -> ->; reflexivity.
Qed.

Lemma Routes_cases (w : World) (st : RoleState) (path : string) :
  (path = "/login" ∧ Routes w st path = JS.Normal (Page "LoginPage"))
  ∨ (∃ perm page, (path, perm, page) ∈ protectedRoutes
                  ∧ Routes w st path = ProtectedRoute w st perm (Page page))
  ∨ (path ≠ "/login"
     ∧ (∀ perm page, (path, perm, page) ∉ protectedRoutes)
     ∧ Routes w st path = JS.Normal (Navigate "/dashboard")).
Proof.
  unfold Routes.
  destruct (String.eqb_spec path "/login") as [->|H0]; [by left|].
  destruct (String.eqb_spec path "/dashboard") as [->|H1].
  { right; left. eexists _, _. split; [|reflexivity]. set_solver. }
  destruct (String.eqb_spec path "/documents") as [->|H2].
  { right; left. eexists _, _. split; [|reflexivity]. set_solver. }
  destruct (String.eqb_spec path "/monitoring") as [->|H3].
  { right; left. eexists _, _. split; [|reflexivity]. set_solver. }
  destruct (String.eqb_spec path "/ai-query") as [->|H4].
  { right; left. eexists _, _. split; [|reflexivity]. set_solver. }
  destruct (String.eqb_spec path "/compliance") as [->|H5].
  { right; left. eexists _, _. split; [|reflexivity]. set_solver. }
  destruct (String.eqb_spec path "/users") as [->|H6].
  { right; left. eexists _, _. split; [|reflexivity]. set_solver. }
  right; right. split; [done|]. split; [|done].
  intros perm page. unfold protectedRoutes.
  rewrite !elem_of_cons, elem_of_nil. intros H.
  repeat destruct H as [H|H]; try done; injection H as ? _ _; done.
Qed.

Lemma protected_permissions_truthy (path : string) (P page : string) :
  (path, Some P, page) ∈ protectedRoutes → JS.truthy (Some P) = true.
Proof.
  unfold protectedRoutes. rewrite !elem_of_cons, elem_of_nil. intros H.
  repeat destruct H as [H|H]; try done; injection H as -> -> ->; reflexivity.
Qed.

Lemma protected_permissions_not_inherited (path : string) (P page : string) :
  (path, Some P, page) ∈ protectedRoutes → P ∉ JS.objectPrototypeNames.
Proof.
  unfold protectedRoutes. rewrite !elem_of_cons, elem_of_nil. intros H.
  repeat destruct H as [H|H]; try done; injection H as -> -> ->;
    apply (bool_decide_unpack _); by vm_compute.
Qed.

(* What the guard gives for a permission whose check completes. *)
Lemma ProtectedRoute_cases (w : World) (st : RoleState)
    (perm : option string) (page : string) :
  (∀ P, perm = Some P →
        JS.truthy (Some P) = true ∧ P ∉ JS.objectPrototypeNames) →
  (loading w = true
   ∧ ProtectedRoute w st perm (Page page) = JS.Normal LoadingSpinner)
  ∨ (loading w = false ∧ hasUser w = false
     ∧ ProtectedRoute w st perm (Page page) = JS.Normal (Navigate "/login"))
  ∨ (loading w = false ∧ hasUser w = true
     ∧ (∃ P, perm = Some P ∧ hasPermission st P = JS.Normal false)
     ∧ ProtectedRoute w st perm (Page page) = JS.Normal (Navigate "/dashboard"))
  ∨ (loading w = false ∧ hasUser w = true
     ∧ (∀ P, perm = Some P → hasPermission st P = JS.Normal true)
     ∧ ProtectedRoute w st perm (Page page) = JS.Normal (Page page)).
Proof.
  intros Hp. unfold ProtectedRoute.
  destruct (loading w); [by left|]. right.
  destruct (hasUser w); cbn [negb]; [|by left]. right.
  destruct perm as [P|]; cbn [default from_option].
  - destruct (Hp P eq_refl) as [Ht Hk]. rewrite Ht. cbn [negb].
    destruct (hasPermission_completes st P Hk) as [b Hb].
    unfold Datatypes.id. rewrite Hb. destruct b; cbn [negb].
    + right. repeat split; try done. by intros ? [= <-].
    + left. repeat split; try done. by exists P.
  - right. by repeat split.
Qed.

Lemma protected_permissions_fine (path : string) (perm : option string)
    (page : string) :
  (path, perm, page) ∈ protectedRoutes →
  ∀ P, perm = Some P →
       JS.truthy (Some P) = true ∧ P ∉ JS.objectPrototypeNames.
Proof.
  intros Hin P ->. split.
  - by eapply protected_permissions_truthy.
  - by eapply protected_permissions_not_inherited.
Qed.

Lemma Routes_completes (w : World) (st : RoleState) (path : string) :
  ∃ el, Routes w st path = JS.Normal el.
Proof.
  destruct (Routes_cases w st path)
    as [[_ E]|[(perm & page & Hin & E)|(_ & _ & E)]]; rewrite E; eauto.
  destruct (ProtectedRoute_cases w st perm page
              (protected_permissions_fine _ _ _ Hin))
    as [(_ & ->)|[(_ & _ & ->)|[(_ & _ & _ & ->)|(_ & _ & _ & ->)]]]; eauto.
Qed.

(** X9: the route table renders a page other than the login page only
    while a user is present, loading has ended and the permission of the
    route holds, and then it does render it; the header and the sidebar are
    put around the routed element exactly when a user is present.  Routing
    never throws. *)
Theorem pages_need_session_and_permission :
  (∀ (w : World) (st : RoleState) (path name : string),
     Routes w st path = JS.Normal (Page name) →
     (path = "/login" ∧ name = "LoginPage")
     ∨ (loading w = false ∧ hasUser w = true
        ∧ ∃ perm, (path, perm, name) ∈ protectedRoutes
                  ∧ ∀ P, perm = Some P → hasPermission st P = JS.Normal true))
  ∧ (∀ (w : World) (st : RoleState) (path : string) (perm : option string)
       (name : string),
       (path, perm, name) ∈ protectedRoutes →
       loading w = false → hasUser w = true →
       (∀ P, perm = Some P → hasPermission st P = JS.Normal true) →
       Routes w st path = JS.Normal (Page name))
  ∧ (∀ (w : World) (st : RoleState) (path : string),
       (∃ el, App w st path = JS.Normal (Framed el)) ↔ hasUser w = true)
  ∧ (∀ (w : World) (st : RoleState) (path : string),
       ∃ el, Routes w st path = JS.Normal el).
Proof.
  split; [|split; [|split; [|exact Routes_completes]]].
  - intros w st path name H.
    destruct (Routes_cases w st path) as [[-> E]|[(perm & page & Hin & E)|(_ & _ & E)]];
      rewrite E in H.
    + left. by injection H as <-.
    + right.
      destruct (ProtectedRoute_cases w st perm page
                  (protected_permissions_fine _ _ _ Hin))
        as [(_ & E')|[(_ & _ & E')|[(_ & _ & _ & E')|(Hl & Hu & Hp & E')]]];
        rewrite E' in H; try discriminate H.
      injection H as <-. split; [done|]. split; [done|]. by exists perm.
    + discriminate.
  - intros w st path perm name Hin Hl Hu Hp.
    rewrite (Routes_protected w st path perm name Hin).
    destruct (ProtectedRoute_cases w st perm name
                (protected_permissions_fine _ _ _ Hin))
      as [(? & _)|[(_ & ? & _)|[(_ & _ & (P & -> & HP) & _)|(_ & _ & _ & E')]]];
      try congruence.
    rewrite (Hp P eq_refl) in HP. discriminate.
  - intros w st path. unfold App, AppLayout.
    destruct (Routes_completes w st path) as [el ->].
    destruct (hasUser w); simpl; split; try done.
    + intros _. by eexists.
    + by intros [el' ?].
Qed.

(** Witness for X9: a validated viewer on /monitoring. *)
Lemma pages_need_session_and_permission_witness :
  let w := initialize (AuthProvider {[ TOKEN_KEY := "t5" ]} "/monitoring")
             (Fulfilled viewer) in
  Routes w (atRole VIEWER) "/monitoring" = JS.Normal (Page "MonitoringPage").
Proof.
  intros w.
  apply (proj1 (proj2 pages_need_session_and_permission) w
           (atRole VIEWER) "/monitoring"
           (Some "canViewMonitoring") "MonitoringPage").
  - unfold protectedRoutes. rewrite !elem_of_cons. auto.
  - reflexivity.
  - reflexivity.
  - intros P [= <-]. reflexivity.
Defined.

(** X10: a redirect of the route table goes to /login or to /dashboard;
    /login never redirects; the target of a redirect renders the login
    page, the dashboard or the spinner, or redirects once more to /login:
    no path is redirected to itself or in a cycle. *)
Theorem redirects_terminate :
  (∀ (w : World) (st : RoleState) (path to : string),
     Routes w st path = JS.Normal (Navigate to) →
     to = "/login" ∨ to = "/dashboard")
  ∧ (∀ (w : World) (st : RoleState),
       Routes w st "/login" = JS.Normal (Page "LoginPage"))
  ∧ (∀ (w : World) (st : RoleState) (path to : string),
       Routes w st path = JS.Normal (Navigate to) →
       to ≠ path
       ∧ (Routes w st to = JS.Normal (Page "LoginPage")
          ∨ Routes w st to = JS.Normal (Page "DashboardPage")
          ∨ Routes w st to = JS.Normal LoadingSpinner
          ∨ (Routes w st to = JS.Normal (Navigate "/login")
             ∧ Routes w st "/login" = JS.Normal (Page "LoginPage")))).
Proof.
  assert (Hto : ∀ (w : World) (st : RoleState) (path to : string),
     Routes w st path = JS.Normal (Navigate to) →
     (to = "/login" ∧ hasUser w = false ∧ loading w = false ∧ path ≠ "/login")
     ∨ (to = "/dashboard" ∧ hasUser w = true ∧ loading w = false
        ∧ path ≠ "/dashboard")
     ∨ (to = "/dashboard" ∧ path ≠ "/dashboard" ∧ path ≠ "/login")).
  { intros w st path to H.
    destruct (Routes_cases w st path) as [[-> E]|[(perm & page & Hin & E)|(Hn & Hnin & E)]];
      rewrite E in H; [discriminate| |].
    - destruct (ProtectedRoute_cases w st perm page
                  (protected_permissions_fine _ _ _ Hin))
        as [(_ & E')|[(Hl & Hu & E')|[(Hl & Hu & (P & -> & HP) & E')|(_ & _ & _ & E')]]];
        rewrite E' in H; try discriminate H; injection H as <-.
      + left. repeat split; try done.
        intros ->. unfold protectedRoutes in Hin.
        rewrite !elem_of_cons, elem_of_nil in Hin.
        repeat destruct Hin as [Hin|Hin]; try done; discriminate.
      + right; left. repeat split; try done.
        intros ->. unfold protectedRoutes in Hin.
        rewrite !elem_of_cons, elem_of_nil in Hin.
        repeat destruct Hin as [Hin|Hin]; try done; discriminate Hin.
    - right; right. injection H as <-. split; [done|]. split; [|done].
      intros ->. apply (Hnin None "DashboardPage").
      unfold protectedRoutes. rewrite !elem_of_cons. auto. }
  split; [|split; [done|]].
  - intros w st path to H.
    destruct (Hto w st path to H) as [(-> & _)|[(-> & _)|(-> & _)]]; auto.
  - intros w st path to H.
    destruct (Hto w st path to H)
      as [(-> & Hu & Hl & Hp)|[(-> & Hu & Hl & Hp)|(-> & Hp & Hp')]].
    + split; [done|]. by left.
    + split; [done|]. right; left.
      change (Routes w st "/dashboard")
        with (ProtectedRoute w st None (Page "DashboardPage")).
      unfold ProtectedRoute. by rewrite Hl, Hu.
    + split; [done|].
      change (Routes w st "/dashboard")
        with (ProtectedRoute w st None (Page "DashboardPage")).
      unfold ProtectedRoute.
      destruct (loading w); [auto|].
      destruct (hasUser w); simpl; auto.
Qed.

(** Witness for X10: an unknown path without session. *)
Lemma redirects_terminate_witness :
  let w := initialize (AuthProvider ∅ "/reports") (Fulfilled viewer) in
  Routes w initialRoleState "/dashboard" = JS.Normal (Navigate "/login").
Proof.
  intros w.
  destruct (proj2 (proj2 redirects_terminate) w initialRoleState
              "/reports" "/dashboard" eq_refl)
    as (_ & [H|[H|[H|[H _]]]]); try discriminate H.
  exact H.
Defined.

Lemma visibleNavigation_spec (st : RoleState) :
  ∃ shown, visibleNavigation st = JS.Normal shown
    ∧ ∀ path, path ∈ shown ↔
        ∃ perm, (path, perm) ∈ navigationItems
                ∧ (JS.truthy perm = false
                   ∨ hasPermission st (default "" perm) = JS.Normal true).
Proof.
  unfold visibleNavigation.
  destruct (shownItems_spec st navigationItems navigationItems_not_inherited)
    as (shown & Hs & ->).
  eexists. split; [exact Hs|]. intros path.
  rewrite list_elem_of_fmap. split.
  - intros ([p perm] & -> & H). apply list_elem_of_filter in H as [Hv Hin].
    by exists perm.
  - intros (perm & Hin & Hv). exists (path, perm). split; [done|].
    by apply list_elem_of_filter.
Qed.

Lemma navigationItems_routes (path : string) (perm : option string) :
  (path, perm) ∈ navigationItems →
  ∃ page, (path, perm, page) ∈ protectedRoutes.
Proof.
  unfold navigationItems, protectedRoutes.
  rewrite !elem_of_cons, elem_of_nil. intros H.
  repeat destruct H as [H|H]; try done; injection H as -> ->;
    eexists; rewrite !elem_of_cons; auto 10.
Qed.

Lemma adminItems_paths : adminItems.*1 = ["/users"; "/settings"].
Proof. reflexivity. Qed.

(* The guard on a route of the navigation, for a session with a user that
   has finished loading. *)
Lemma navigation_route (w : World) (st : RoleState)
    (path : string) (perm : option string) :
  loading w = false → hasUser w = true → (path, perm) ∈ navigationItems →
  ((JS.truthy perm = false
    ∨ hasPermission st (default "" perm) = JS.Normal true)
   ∧ ∃ name, Routes w st path = JS.Normal (Page name))
  ∨ (¬ (JS.truthy perm = false
        ∨ hasPermission st (default "" perm) = JS.Normal true)
     ∧ Routes w st path = JS.Normal (Navigate "/dashboard")).
Proof.
  intros Hl Hu Hin.
  destruct (navigationItems_routes path perm Hin) as [page Hr].
  rewrite (Routes_protected w st path perm page Hr).
  destruct (ProtectedRoute_cases w st perm page
              (protected_permissions_fine _ _ _ Hr))
    as [(? & _)|[(_ & ? & _)|[(_ & _ & (P & -> & HP) & ->)|(_ & _ & Hp & ->)]]];
    try congruence.
  - right. split; [|done]. intros [Ht|Hp'].
    + rewrite (protected_permissions_truthy _ _ _ Hr) in Ht. discriminate.
    + simpl in Hp'. rewrite HP in Hp'. discriminate.
  - left. split; [|by exists page].
    destruct perm as [P|]; [right; by apply Hp | by left].
Qed.

(** X11: the sidebar and the route guard agree for a session that has a
    user and has finished loading: every entry the sidebar shows leads to a
    page, and every navigation entry it hides leads to a redirect to
    /dashboard.  On a mobile screen the sidebar offers nothing.  The
    sidebar's list is computed without throwing in every state. *)
Theorem sidebar_matches_routes :
  (∀ (w : World) (st : RoleState) (path : string) (shown : list string),
     loading w = false → hasUser w = true →
     visibleNavigation st = JS.Normal shown → path ∈ shown →
     ∃ name, Routes w st path = JS.Normal (Page name))
  ∧ (∀ (w : World) (st : RoleState) (path : string) (perm : option string)
       (shown : list string),
       loading w = false → hasUser w = true →
       (path, perm) ∈ navigationItems →
       visibleNavigation st = JS.Normal shown → path ∉ shown →
       Routes w st path = JS.Normal (Navigate "/dashboard"))
  ∧ (∀ (st : RoleState) (collapsed adminExpanded : bool),
       Sidebar st true collapsed adminExpanded = JS.Normal [])
  ∧ (∀ (st : RoleState) (isMobile collapsed adminExpanded : bool),
       (∃ shown, visibleNavigation st = JS.Normal shown)
       ∧ ∃ offered,
           Sidebar st isMobile collapsed adminExpanded = JS.Normal offered).
Proof.
  assert (Hadmin : ∀ st, ∃ b,
            hasPermission st "canAccessAdminPanel" = JS.Normal b).
  { intros st. apply hasPermission_completes.
    apply (bool_decide_unpack _). by vm_compute. }
  split; [|split; [|split]].
  - intros w st path shown Hl Hu Hs Hin.
    destruct (visibleNavigation_spec st) as (shown' & Hs' & Hiff).
    rewrite Hs in Hs'. injection Hs' as <-.
    apply Hiff in Hin as (perm & Hin & Hv).
    destruct (navigation_route w st path perm Hl Hu Hin) as [[_ ?]|[? _]]; done.
  - intros w st path perm shown Hl Hu Hin Hs Hhid.
    destruct (visibleNavigation_spec st) as (shown' & Hs' & Hiff).
    rewrite Hs in Hs'. injection Hs' as <-.
    destruct (navigation_route w st path perm Hl Hu Hin) as [[Hv _]|[_ ?]];
      [|done].
    exfalso. apply Hhid, Hiff. by exists perm.
  - intros st collapsed adminExpanded. unfold Sidebar.
    by destruct (Hadmin st) as [b ->].
  - intros st isMobile collapsed adminExpanded.
    destruct (visibleNavigation_spec st) as (shown & Hs & _).
    split; [by exists shown|]. unfold Sidebar.
    destruct (Hadmin st) as [b ->]. rewrite Hs.
    destruct isMobile; eauto.
Qed.

(** Witness for X11: a validated consultant sees the AI query entry, and
    it leads to the page. *)
Lemma sidebar_matches_routes_witness :
  let u := {| id := 30; username := "cora"; role := Some CONSULTANT;
              facilities_access := None |} in
  let w := initialize (AuthProvider {[ TOKEN_KEY := "t6" ]} "/dashboard")
             (Fulfilled u) in
  ∃ name, Routes w (atRole CONSULTANT) "/ai-query" = JS.Normal (Page name).
Proof.
  intros u w.
  apply (proj1 sidebar_matches_routes w (atRole CONSULTANT) "/ai-query"
           ["/dashboard"; "/monitoring"; "/ai-query"]);
    [reflexivity | reflexivity | reflexivity |].
  rewrite !elem_of_cons. auto.
Defined.

(** X12: the administration entries are offered only to a state that holds
    canAccessAdminPanel, with the drawer open and the section expanded; of
    the two entries /users then renders the users page, while /settings has
    no route and is redirected to /dashboard for everyone. *)
Theorem admin_section :
  (∀ (st : RoleState) (isMobile collapsed adminExpanded : bool),
     ∃ offered,
       Sidebar st isMobile collapsed adminExpanded = JS.Normal offered
       ∧ ∀ path, path ∈ adminItems.*1 →
           (path ∈ offered
            ↔ isMobile = false ∧ collapsed = false ∧ adminExpanded = true
              ∧ hasPermission st "canAccessAdminPanel" = JS.Normal true))
  ∧ (∀ (w : World) (st : RoleState) (isMobile collapsed adminExpanded : bool)
       (offered : list string),
       loading w = false → hasUser w = true →
       Sidebar st isMobile collapsed adminExpanded = JS.Normal offered →
       "/users" ∈ offered →
       Routes w st "/users" = JS.Normal (Page "UsersPage"))
  ∧ (∀ (w : World) (st : RoleState),
       Routes w st "/settings" = JS.Normal (Navigate "/dashboard")).
Proof.
  assert (Hiff : ∀ (st : RoleState) (isMobile collapsed adminExpanded : bool),
     ∃ offered,
       Sidebar st isMobile collapsed adminExpanded = JS.Normal offered
       ∧ ∀ path, path ∈ adminItems.*1 →
           (path ∈ offered
            ↔ isMobile = false ∧ collapsed = false ∧ adminExpanded = true
              ∧ hasPermission st "canAccessAdminPanel" = JS.Normal true)).
  { intros st isMobile collapsed adminExpanded. unfold Sidebar.
    destruct (hasPermission_completes st "canAccessAdminPanel") as [b Hb].
    { apply (bool_decide_unpack _). by vm_compute. }
    rewrite Hb.
    destruct (visibleNavigation_spec st) as (shown & Hs & Hshown).
    rewrite Hs.
    assert (Hadm : ∀ path, path ∈ adminItems.*1 → path ∉ shown).
    { intros path Ha Hv. apply Hshown in Hv as (perm & Hin & _).
      unfold navigationItems in Hin. rewrite adminItems_paths in Ha.
      rewrite !elem_of_cons, elem_of_nil in Hin.
      rewrite !elem_of_cons, elem_of_nil in Ha.
      destruct Ha as [->|[->|[]]];
        repeat destruct Hin as [Hin|Hin]; try done; discriminate Hin. }
    destruct isMobile.
    { eexists. split; [done|]. intros path _. rewrite elem_of_nil.
      split; [done | by intros (? & _)]. }
    eexists. split; [done|]. intros path Ha.
    rewrite elem_of_app.
    destruct b; destruct adminExpanded; destruct collapsed; simpl;
      rewrite ?elem_of_nil; split;
      try (intros [Hv|Hv]; [by apply Hadm in Hv | done]);
      try (by intros (_ & ? & ? & ?));
      try (intros [Hv|Hv]; [by apply Hadm in Hv | by repeat split]).
    intros _. by right. }
  split; [exact Hiff|]. split; [|done].
  intros w st isMobile collapsed adminExpanded offered Hl Hu Hs Hin.
  destruct (Hiff st isMobile collapsed adminExpanded) as (offered' & Hs' & H).
  rewrite Hs in Hs'. injection Hs' as <-.
  apply H in Hin as (_ & _ & _ & Hp);
    [|rewrite adminItems_paths, !elem_of_cons; auto].
  change (Routes w st "/users")
    with (ProtectedRoute w st (Some "canAccessAdminPanel") (Page "UsersPage")).
  unfold ProtectedRoute. rewrite Hl, Hu. simpl. by rewrite Hp.
Qed.

(** Witness for X12: an administrator with the section expanded. *)
Lemma admin_section_witness :
  let w := initialize (AuthProvider {[ TOKEN_KEY := "t7" ]} "/dashboard")
             (Fulfilled {| id := 2; username := "ada"; role := Some ADMIN;
                           facilities_access := None |}) in
  Routes w (atRole ADMIN) "/users" = JS.Normal (Page "UsersPage").
Proof.
  intros w.
  apply (proj1 (proj2 admin_section) w (atRole ADMIN) false false true
           ["/dashboard"; "/monitoring"; "/ai-query"; "/compliance";
            "/users"; "/settings"]);
    [reflexivity | reflexivity | reflexivity |].
  rewrite !elem_of_cons. auto 10.
Defined.
(* ===================================================================== *)
(* Further properties of the session manager and the request layer       *)
(* ===================================================================== *)

Lemma responseInterceptor_stored (w : World) (e : AxiosError) (t : string) :
  getItem TOKEN_KEY (responseInterceptor w e) = Some t →
  getItem TOKEN_KEY w = Some t.
Proof.
  unfold responseInterceptor. destruct (isUnauthorized e); [|done].
  unfold getItem. simpl. by rewrite lookup_delete_eq.
Qed.

Lemma settle_storedAgrees {A} (w : World) (a : Settled A) :
  storedAgrees w → storedAgrees (settle w a).1.
Proof.
  intros H t. destruct a as [d|e]; simpl; [apply H|].
  intros Ht. apply responseInterceptor_stored in Ht.
  destruct (responseInterceptor_cells w e) as (-> & _). by apply H.
Qed.

Lemma step_storedAgrees (w : World) (e : Event) :
  storedAgrees w → storedAgrees (step w e).
Proof.
  intros H. destruct e as [ | |a|a|a|a|fb a|msg]; simpl.
  - intros t Ht. exact Ht.
  - unfold tokenEffectStart. destruct (JS.truthy (token w)); exact H.
  - unfold validateTokenSettle.
    pose proof (settle_storedAgrees w a H) as H'.
    destruct (settle w a) as [w' [d|e]]; simpl in *.
    + exact H'.
    + intros t. unfold getItem. simpl. by rewrite lookup_delete_eq.
  - unfold login.
    pose proof (settle_storedAgrees w a H) as H'.
    destruct (settle w a) as [w' [d|e]]; simpl in *; [|exact H'].
    intros t. unfold getItem. simpl. by rewrite lookup_insert_eq.
  - intros t. unfold logoutSettle, getItem. simpl. by rewrite lookup_delete_eq.
  - unfold updateProfile.
    pose proof (settle_storedAgrees w a H) as H'.
    by destruct (settle w a) as [w' [d|e]].
  - unfold plainCall.
    pose proof (settle_storedAgrees w a H) as H'.
    by destruct (settle w a) as [w' [d|e]].
  - exact H.
Qed.

(** X13: along every run of the provider, whatever the backend answers and
    in whatever order, a token found in the browser storage is the token
    the provider holds: the request interceptor never attaches a token the
    session does not have. *)
Theorem stored_token_is_session_token :
  ∀ (storage : gmap string string) (location : string) (trace : list Event),
    storedAgrees (run (AuthProvider storage location) trace)
    ∧ ∀ (t m u : string),
        getItem TOKEN_KEY (run (AuthProvider storage location) trace) = Some t →
        t ≠ "" →
        headers (outgoing (run (AuthProvider storage location) trace) m u)
          !! "Authorization"
        = Some (bearer (token (run (AuthProvider storage location) trace))).
Proof.
  intros storage location trace.
  assert (Hrun : ∀ tr w, storedAgrees w → storedAgrees (run w tr)).
  { induction tr as [|e tr IH]; intros w Hw; [exact Hw|].
    unfold run. simpl. apply IH. by apply step_storedAgrees. }
  assert (H : storedAgrees (run (AuthProvider storage location) trace)).
  { apply Hrun. intros t Ht. exact Ht. }
  split; [exact H|].
  intros t m u Ht Hne. rewrite (H t Ht).
  unfold outgoing, requestInterceptor. rewrite Ht.
  apply truthy_Some in Hne. rewrite Hne. simpl. apply lookup_insert_eq.
Qed.

Lemma outgoing_without_token (w : World) (m u : string) :
  getItem TOKEN_KEY w = None →
  headers (outgoing w m u) !! "Authorization" = common w !! "Authorization".
Proof.
  intros H. unfold outgoing, requestInterceptor. rewrite H. simpl.
  rewrite lookup_union_l; [done|]. by apply lookup_singleton_ne.
Qed.

(** X14: after [logout], and after a token validation that failed, no
    request leaves the client with an Authorization header, whatever the
    backend answered. *)
Theorem no_credentials_after_logout :
  (∀ (w : World) (answer : Settled unit) (m u : string),
     headers (outgoing (logout w answer) m u) !! "Authorization" = None)
  ∧ (∀ (w : World) (e : AxiosError) (m u : string),
       headers (outgoing (validateToken w (Rejected e)) m u)
         !! "Authorization" = None).
Proof.
  split.
  - intros w answer m u. unfold logout.
    destruct (logoutSettle_loggedOut w
                (if JS.truthy (token w) then Some answer else None))
      as [(_ & _ & Hs) Hc].
    by rewrite outgoing_without_token.
  - intros w e m u. rewrite outgoing_without_token.
    + unfold validateToken, validateTokenSettle. simpl. apply lookup_delete_eq.
    + unfold validateToken, validateTokenSettle, getItem. simpl.
      apply lookup_delete_eq.
Qed.

(** X15: after a successful [login] every request leaves the client with
    the returned access token as bearer credential, whatever token was
    stored or set before. *)
Theorem requests_carry_new_token :
  ∀ (w : World) (un pw : string) (d : LoginData) (m u : string),
    headers (outgoing (login w un pw (Fulfilled d)).1 m u) !! "Authorization"
    = Some ("Bearer " ++ access_token d).
Proof.
  intros w un pw d m u. simpl. unfold outgoing, requestInterceptor, getItem.
  simpl. rewrite lookup_insert_eq.
  destruct (JS.truthy (Some (access_token d))); simpl.
  - apply lookup_insert_eq.
  - rewrite lookup_union_l by (by apply lookup_singleton_ne).
    apply lookup_insert_eq.
Qed.

(** X16: the 401 handler clears the stored token and sets the location,
    and nothing else: the token cell, [currentUser] and the client's
    default Authorization header stay, so until the page is loaded again
    the routes render as before and a request still carries the default
    header. *)
Theorem unauthorized_keeps_memory_session :
  ∀ (w : World) (e : AxiosError),
    isUnauthorized e = true →
    token (responseInterceptor w e) = token w
    ∧ currentUser (responseInterceptor w e) = currentUser w
    ∧ (∀ (st : RoleState) (path : string),
         Routes (responseInterceptor w e) st path = Routes w st path
         ∧ ∃ el, Routes w st path = JS.Normal el)
    ∧ (∀ (m u : string),
         headers (outgoing (responseInterceptor w e) m u) !! "Authorization"
         = common w !! "Authorization").
Proof.
  intros w e H.
  destruct (responseInterceptor_cells w e) as (Ht & Hu & Hl & Hc).
  split; [exact Ht|]. split; [exact Hu|]. split.
  - intros st path. split; [|apply Routes_completes].
    unfold Routes, ProtectedRoute, hasUser. by rewrite Hl, Hu.
  - intros m u. rewrite outgoing_without_token.
    + by rewrite Hc.
    + by apply responseInterceptor_401.
Qed.

(** Witness for X16: a signed-in administrator whose call is answered
    with 401. *)
Lemma unauthorized_keeps_memory_session_witness :
  let w := (login (AuthProvider ∅ "/login") "admin" "pw"
              (Fulfilled {| access_token := "t7";
                            user := {| id := 2; username := "admin";
                                       role := Some ADMIN;
                                       facilities_access := None |} |})).1 in
  let e := {| response := Some {| status := 401; detail := None |};
              message := "Request failed with status code 401" |} in
  headers (outgoing (responseInterceptor w e) "get" "/admin/users")
    !! "Authorization" = Some "Bearer t7".
Proof.
  intros w e.
  destruct (unauthorized_keeps_memory_session w e eq_refl) as (_ & _ & _ & H).
  rewrite H. reflexivity.
Defined.

(** X17: a second successful login fully replaces the first: the state
    after two logins in a row is the state after the second one alone. *)
Theorem login_replaces_login :
  ∀ (w : World) (un1 pw1 un2 pw2 : string) (d1 d2 : LoginData),
    (login (login w un1 pw1 (Fulfilled d1)).1 un2 pw2 (Fulfilled d2)).1
    = (login w un2 pw2 (Fulfilled d2)).1.
Proof.
  intros w un1 pw1 un2 pw2 d1 d2. simpl.
  unfold setCurrentUser, setCommon, setToken, setItem. simpl.
  by rewrite !insert_insert_eq.
Qed.

(** Witness for X13: a run with a failed call in the middle. *)
Lemma stored_token_is_session_token_witness :
  let w := run (AuthProvider {[ TOKEN_KEY := "t1" ]} "/dashboard")
             [ TokenEffect; ValidateSettled (Fulfilled viewer);
               PlainSettled "Password change failed"
                 (Rejected {| response := Some {| status := 400; detail := None |};
                              message := "Request failed with status code 400" |}) ] in
  headers (outgoing w "get" "/documents") !! "Authorization" = Some "Bearer t1".
Proof.
  intros w.
  assert (Hne : "t1" ≠ "") by discriminate.
  exact (proj2 (stored_token_is_session_token {[ TOKEN_KEY := "t1" ]} "/dashboard"
                  [ TokenEffect; ValidateSettled (Fulfilled viewer);
                    PlainSettled "Password change failed"
                      (Rejected {| response := Some {| status := 400; detail := None |};
                                   message := "Request failed with status code 400" |}) ])
           "t1" "get" "/documents" eq_refl Hne).
Defined.

(** X18: startup ends with a user exactly when a non-empty token was
    stored and GET /auth/me succeeded.  It leaves the client's default
    Authorization header in step with the session: the bearer of the token
    when a user is set, absent otherwise.  When a user is set the stored
    token is kept; when validation fails the session ends logged out. *)
Theorem initialize_outcome :
  ∀ (storage : gmap string string) (location : string) (answer : Settled User),
    let w := initialize (AuthProvider storage location) answer in
    (hasUser w = true ↔
     ∃ t u, storage !! TOKEN_KEY = Some t ∧ t ≠ "" ∧ answer = Fulfilled u)
    ∧ common w !! "Authorization"
      = (if hasUser w then Some (bearer (token w)) else None)
    ∧ (hasUser w = true →
       getItem TOKEN_KEY w = storage !! TOKEN_KEY
       ∧ token w = storage !! TOKEN_KEY)
    ∧ (JS.truthy (storage !! TOKEN_KEY) = false → localStorage w = storage)
    ∧ (∀ e, JS.truthy (storage !! TOKEN_KEY) = true → answer = Rejected e →
            loggedOut w).
Proof.
  intros storage location answer w. subst w.
  unfold initialize. simpl.
  destruct (JS.truthy (storage !! TOKEN_KEY)) eqn:Ht.
  - unfold validateToken, validateTokenSettle.
    destruct answer as [u|e]; simpl.
    + split; [|split; [|split; [|split]]].
      * split; [|done]. intros _.
        destruct (storage !! TOKEN_KEY) as [t|] eqn:E; [|done].
        exists t, u. split; [done|]. split; [|done]. by apply truthy_Some.
      * by rewrite lookup_insert_eq.
      * done.
      * done.
      * done.
    + split; [|split; [|split; [|split]]].
      * split; [done|]. by intros (? & ? & _ & _ & ?).
      * by rewrite lookup_delete_eq.
      * done.
      * done.
      * intros e' _ _. unfold loggedOut, getItem. simpl.
        by rewrite lookup_delete_eq.
  - simpl. split; [|split; [|split; [|split]]].
    + split; [done|]. intros (t & u & E & Hne & _).
      rewrite E in Ht. apply truthy_Some in Hne. congruence.
    + done.
    + done.
    + done.
    + done.
Qed.

(** Witness for X18: a stored token the backend rejects. *)
Lemma initialize_outcome_witness :
  loggedOut (initialize (AuthProvider {[ TOKEN_KEY := "stale" ]} "/dashboard")
               (Rejected {| response := Some {| status := 401; detail := None |};
                            message := "Request failed with status code 401" |})).
Proof.
  eapply (proj2 (proj2 (proj2 (proj2
            (initialize_outcome {[ TOKEN_KEY := "stale" ]} "/dashboard" _)))));
    reflexivity.
Defined.

(** X19: changePassword, requestPasswordReset and resetPassword report
    success exactly when the backend call is fulfilled, report a non-empty
    message otherwise (the backend's detail when it sent one), and never
    sign the user in or out: token, [currentUser], [loading] and the default
    headers are untouched, and the whole state is unless the answer is a
    401. *)
Theorem password_calls_keep_session :
  ∀ (op : World → Settled unit → World * Result) (w : World)
    (answer : Settled unit),
    op ∈ [changePassword; requestPasswordReset; resetPassword] →
    token (op w answer).1 = token w
    ∧ currentUser (op w answer).1 = currentUser w
    ∧ loading (op w answer).1 = loading w
    ∧ common (op w answer).1 = common w
    ∧ (success (op w answer).2 = true ↔ ∃ d, answer = Fulfilled d)
    ∧ (∀ e, answer = Rejected e →
            (∃ msg, error (op w answer).2 = Some msg ∧ msg ≠ "")
            ∧ (∀ d, detailOf e = Some d → d ≠ "" →
                    error (op w answer).2 = Some d)
            ∧ (isUnauthorized e = false → (op w answer).1 = w)).
Proof.
  intros op w answer Hop.
  assert (∃ fb, fb ≠ "" ∧ op = plainCall fb) as (fb & Hfb & ->).
  { rewrite !elem_of_cons, elem_of_nil in Hop.
    destruct Hop as [->|[->|[->|[]]]]; eexists; (split; [|reflexivity]); done. }
  unfold plainCall. destruct answer as [d|e]; simpl.
  - repeat split; try done. by exists d.
  - destruct (responseInterceptor_cells w e) as (Ht & Hu & Hl & Hc).
    split; [exact Ht|]. split; [exact Hu|]. split; [exact Hl|].
    split; [exact Hc|]. split; [split; [done | by intros [? ?]]|].
    intros e' [= <-]. split; [|split].
    + by apply failed_message.
    + intros d Hd Hne. unfold failed. simpl. rewrite Hd. simpl.
      by destruct (String.eqb_spec d "").
    + apply responseInterceptor_other.
Qed.

(** Witness for X19: a rejected password change with a detail. *)
Lemma password_calls_keep_session_witness :
  let w := initialize (AuthProvider {[ TOKEN_KEY := "t1" ]} "/dashboard")
             (Fulfilled viewer) in
  let e := {| response := Some {| status := 400;
                                  detail := Some "Current password is incorrect" |};
              message := "Request failed with status code 400" |} in
  (changePassword w (Rejected e)).1 = w.
Proof.
  intros w e.
  destruct (password_calls_keep_session changePassword w (Rejected e))
    as (_ & _ & _ & _ & _ & H).
  - rewrite !elem_of_cons. auto.
  - destruct (H e eq_refl) as (_ & _ & Hw). apply Hw. reflexivity.
Defined.

Lemma AuthProvider_loggedOut (w : World) :
  getItem TOKEN_KEY w = None → loggedOut (AuthProvider (localStorage w) (href w)).
Proof. intros H. unfold loggedOut, getItem in *. simpl. by rewrite H. Qed.

Lemma settle_keeps_loggedOut {A} (w : World) (a : Settled A) :
  loggedOut w → loggedOut (settle w a).1.
Proof.
  intros (Ht & Hu & Hs). unfold loggedOut.
  destruct (settle_cells w a) as (-> & -> & _).
  split; [done|]. split; [done|]. by apply settle_no_stored_token.
Qed.

Lemma step_keeps_loggedOut (w : World) (e : Event) :
  establishes e = false → loggedOut w → loggedOut (step w e).
Proof.
  intros He Hw. pose proof Hw as (Ht & Hu & Hs).
  destruct e as [ | |a|a|a|a|fb a|msg]; simpl.
  - by apply AuthProvider_loggedOut.
  - unfold tokenEffectStart. rewrite Ht. exact Hw.
  - destruct a as [u|err]; [discriminate|].
    unfold loggedOut, validateTokenSettle, getItem. simpl.
    by rewrite lookup_delete_eq.
  - destruct a as [d|err]; [discriminate|].
    apply (settle_keeps_loggedOut (A := unit) w (Rejected err) Hw).
  - apply logoutSettle_loggedOut.
  - destruct a as [d|err]; [discriminate|].
    apply (settle_keeps_loggedOut (A := unit) w (Rejected err) Hw).
  - destruct a as [d|err]; [exact Hw|].
    apply (settle_keeps_loggedOut (A := unit) w (Rejected err) Hw).
  - by apply refresh_keeps_loggedOut.
Qed.

(** X20: a logged-out session stays logged out along every run that holds
    no successful login, token validation or profile update: failed calls,
    password calls, refreshes, logouts, effect runs and page loads never
    set a token or a user. *)
Theorem logged_out_is_stable :
  ∀ (w : World) (trace : list Event),
    loggedOut w →
    forallb (λ e, negb (establishes e)) trace = true →
    loggedOut (run w trace).
Proof.
  intros w trace. revert w.
  induction trace as [|e trace IH]; intros w Hw Ht; [exact Hw|].
  simpl in Ht. apply andb_true_iff in Ht as [He Ht].
  unfold run. simpl. apply IH; [|exact Ht].
  apply step_keeps_loggedOut; [|exact Hw]. by apply negb_true_iff.
Qed.

(** Witness for X20: after a logout, a failed login, a page load and a
    refresh. *)
Lemma logged_out_is_stable_witness :
  let e := {| response := Some {| status := 401; detail := None |};
              message := "Request failed with status code 401" |} in
  loggedOut
    (run (logout (initialize (AuthProvider {[ TOKEN_KEY := "t1" ]} "/dashboard")
                    (Fulfilled viewer))
            (Fulfilled ()))
         [ LoginSettled (Rejected e); Reload; TokenEffect;
           RefreshSettled
             "Cannot read properties of undefined (reading 'refreshToken')" ]).
Proof.
  intros e. apply logged_out_is_stable; [|reflexivity].
  unfold loggedOut. by vm_compute.
Defined.

(** X21: session expiry end to end: when any call of the provider is
    answered with 401 and the page is then loaded again, startup ends
    logged out with [loading] false at /login, and every guarded route
    redirects to /login.  A refreshToken call of the hook is no such call:
    it reaches no backend and leaves the stored token and the location as
    they are. *)
Theorem session_expiry :
  (∀ (w : World) (e : AxiosError) (fb : string) (ev : Event),
     isUnauthorized e = true →
     ev ∈ [ ValidateSettled (Rejected e); LoginSettled (Rejected e);
            LogoutSettled (Some (Rejected e)); UpdateProfileSettled (Rejected e);
            PlainSettled fb (Rejected e) ] →
     loggedOut (run w [ev; Reload; TokenEffect])
     ∧ loading (run w [ev; Reload; TokenEffect]) = false
     ∧ href (run w [ev; Reload; TokenEffect]) = "/login"
     ∧ ∀ (st : RoleState) (path : string) (perm : option string) (page : string),
         (path, perm, page) ∈ protectedRoutes →
         Routes (run w [ev; Reload; TokenEffect]) st path
         = JS.Normal (Navigate "/login"))
  ∧ (∀ (w : World) (engineMessage : string),
       getItem TOKEN_KEY (step w (RefreshSettled engineMessage))
       = getItem TOKEN_KEY w
       ∧ href (step w (RefreshSettled engineMessage)) = href w).
Proof.
  split; [|done].
  intros w e fb ev H401 Hev.
  destruct (responseInterceptor_401 w e H401) as [Hs Hh].
  assert (Hstep : getItem TOKEN_KEY (step w ev) = None ∧ href (step w ev) = "/login").
  { rewrite !elem_of_cons, elem_of_nil in Hev.
    destruct Hev as [->|[->|[->|[->|[->|[]]]]]]; simpl;
      unfold validateTokenSettle, logoutSettle; simpl;
      unfold getItem in *; simpl; rewrite ?Hh, ?lookup_delete_eq; done. }
  destruct Hstep as [Hs' Hh'].
  unfold run. simpl. unfold tokenEffectStart. simpl.
  unfold getItem in Hs'. rewrite Hs'. simpl.
  split; [|split; [done|split; [exact Hh'|]]].
  - unfold loggedOut, getItem. simpl. by rewrite Hs'.
  - intros st path perm page Hin.
    rewrite (Routes_protected _ st path perm page Hin). reflexivity.
Qed.

(** Witness for X21: a profile update answered with 401. *)
Lemma session_expiry_witness :
  let w := initialize (AuthProvider {[ TOKEN_KEY := "t1" ]} "/dashboard")
             (Fulfilled viewer) in
  let e := {| response := Some {| status := 401; detail := None |};
              message := "Request failed with status code 401" |} in
  loggedOut (run w [UpdateProfileSettled (Rejected e); Reload; TokenEffect]).
Proof.
  intros w e.
  apply (proj1 session_expiry w e "" (UpdateProfileSettled (Rejected e)));
    [reflexivity | rewrite !elem_of_cons; auto 10].
Defined.

(* ===================================================================== *)
(* Properties of the hooks                                               *)
(* ===================================================================== *)

(* The first non-empty of data.detail, error.message and the fallback. *)
Lemma error_chain_nonempty (e : AxiosError) (fallback : string) :
  fallback ≠ "" →
  JS.str_or (detailOf e) (JS.str_or (Some (message e)) fallback) ≠ "".
Proof.
  intros Hfb. unfold JS.str_or.
  destruct (detailOf e) as [d|].
  - destruct (String.eqb_spec d ""); [|done].
    by destruct (String.eqb_spec (message e) "").
  - by destruct (String.eqb_spec (message e) "").
Qed.

Lemma error_chain_cases (e : AxiosError) (fallback : string) :
  (∀ d, detailOf e = Some d → d ≠ "" →
        JS.str_or (detailOf e) (JS.str_or (Some (message e)) fallback) = d)
  ∧ ((detailOf e = None ∨ detailOf e = Some "") → message e ≠ "" →
     JS.str_or (detailOf e) (JS.str_or (Some (message e)) fallback) = message e)
  ∧ ((detailOf e = None ∨ detailOf e = Some "") → message e = "" →
     JS.str_or (detailOf e) (JS.str_or (Some (message e)) fallback) = fallback).
Proof.
  unfold JS.str_or. split; [|split].
  - intros d -> Hne. by destruct (String.eqb_spec d "").
  - intros [->| ->] Hne; simpl; by destruct (String.eqb_spec (message e) "").
  - intros [->| ->] ->; reflexivity.
Qed.

(* One call of the hook: it fails on the member access, before a request
   exists. *)
Lemma hook_call (A : Type) (w : World) (engineMessage : string) :
  let err := {| response := None; message := engineMessage |} in
  UseAuth.call (A := A) w engineMessage
  = (setHookLoading false (handleError err (UseAuth.callStart w)),
     Rejected err).
Proof. reflexivity. Qed.

(** X22: the hook's login, changePassword, updateProfile,
    requestPasswordReset and resetPassword never reach the backend: the
    module calls them on a member the default export of the API module
    does not have, so each call throws a TypeError before a request is
    made.  The caller gets that error, which has no response; the hook's
    loading flag ends false and its error is the error's message, or
    'Authentication failed' for an empty one, never the empty string.
    Nothing else changes: token, user, provider loading flag, storage,
    location and default headers are as before, so no hook call signs a
    user in and no interceptor runs. *)
Theorem hook_calls :
  (∀ (A : Type) (w : World) (engineMessage : string),
     let out := UseAuth.call (A := A) w engineMessage in
     out.2 = Rejected {| response := None; message := engineMessage |}
     ∧ (∀ d : A, out.2 ≠ Fulfilled d)
     ∧ hookLoading out.1 = false
     ∧ hookError out.1
       = Some (JS.str_or (Some engineMessage) "Authentication failed")
     ∧ (∃ msg, hookError out.1 = Some msg ∧ msg ≠ "")
     ∧ token out.1 = token w
     ∧ currentUser out.1 = currentUser w
     ∧ loading out.1 = loading w
     ∧ localStorage out.1 = localStorage w
     ∧ href out.1 = href w
     ∧ common out.1 = common w)
  ∧ (∀ (w : World) (un pw current new email resetToken : string)
       (engineMessage : string),
       UseAuth.login w un pw engineMessage = UseAuth.call w engineMessage
       ∧ UseAuth.changePassword w current new engineMessage
         = UseAuth.call w engineMessage
       ∧ UseAuth.updateProfile w engineMessage = UseAuth.call w engineMessage
       ∧ UseAuth.requestPasswordReset w email engineMessage
         = UseAuth.call w engineMessage
       ∧ UseAuth.resetPassword w resetToken new engineMessage
         = UseAuth.call w engineMessage)
  ∧ (∀ (w : World) (un pw engineMessage : string),
       let out := UseAuth.login w un pw engineMessage in
       (∃ e, out.2 = Rejected e ∧ response e = None
             ∧ isUnauthorized e = false)
       ∧ getItem TOKEN_KEY out.1 = getItem TOKEN_KEY w
       ∧ token out.1 = token w ∧ currentUser out.1 = currentUser w).
Proof.
  split; [|split].
  - intros A w msg out. subst out. rewrite hook_call. simpl.
    split; [done|]. split; [done|]. split; [done|]. split; [done|].
    split; [|done]. eexists. split; [reflexivity|].
    unfold JS.str_or. by destruct (String.eqb_spec msg "").
  - intros. done.
  - intros w un pw msg out. subst out. unfold UseAuth.login.
    rewrite hook_call. simpl. split; [|done].
    eexists. split; [reflexivity|]. done.
Qed.

(** Witness for X22: a hook login in a browser that words the TypeError
    this way. *)
Lemma hook_calls_witness :
  let w := AuthProvider ∅ "/login" in
  let out := UseAuth.login w "olga" "secret"
               "Cannot read properties of undefined (reading 'login')" in
  (∃ e, out.2 = Rejected e ∧ response e = None ∧ isUnauthorized e = false)
  ∧ getItem TOKEN_KEY out.1 = getItem TOKEN_KEY w
  ∧ token out.1 = token w ∧ currentUser out.1 = currentUser w.
Proof.
  intros w out.
  exact (proj2 (proj2 hook_calls) w "olga" "secret"
           "Cannot read properties of undefined (reading 'login')").
Defined.

(** X23: the hook's logout never fails towards its caller and reports
    nothing: it too throws on the missing member before any request, its
    catch clause only logs, the hook's error is left as it was and the
    loading flag ends false.  Unlike the provider's logout it ends no
    session: token, [currentUser], the stored token, the location and the
    default headers are untouched. *)
Theorem hook_logout_keeps_session :
  ∀ (w : World) (engineMessage : string),
    UseAuth.logout w engineMessage = setHookLoading false w
    ∧ hookLoading (UseAuth.logout w engineMessage) = false
    ∧ hookError (UseAuth.logout w engineMessage) = hookError w
    ∧ token (UseAuth.logout w engineMessage) = token w
    ∧ currentUser (UseAuth.logout w engineMessage) = currentUser w
    ∧ loading (UseAuth.logout w engineMessage) = loading w
    ∧ localStorage (UseAuth.logout w engineMessage) = localStorage w
    ∧ href (UseAuth.logout w engineMessage) = href w
    ∧ common (UseAuth.logout w engineMessage) = common w
    ∧ (hasUser w = true → hasUser (UseAuth.logout w engineMessage) = true).
Proof. intros w msg. by repeat split. Qed.

(** Witness for X23: a signed-in session stays signed in. *)
Lemma hook_logout_keeps_session_witness :
  let w := initialize (AuthProvider {[ TOKEN_KEY := "t1" ]} "/dashboard")
             (Fulfilled viewer) in
  hasUser (UseAuth.logout w
             "Cannot read properties of undefined (reading 'logout')") = true.
Proof.
  intros w.
  apply (proj2 (proj2 (proj2 (proj2 (proj2 (proj2 (proj2 (proj2 (proj2
           (hook_logout_keeps_session w
              "Cannot read properties of undefined (reading 'logout')")))))))))).
  reflexivity.
Defined.

(** X24: [apiCall] hands the outcome of the wrapped function to its caller
    unchanged and ends with loading false; an earlier error is cleared by a
    successful call, and a failed call records the first non-empty of the
    backend's detail, the error's message and 'An unexpected error
    occurred', which is never the empty string. *)
Theorem apiCall_outcome :
  (∀ (A : Type) (s : UseAPI.State) (answer : Settled A),
     (UseAPI.apiCall s answer).2 = answer
     ∧ UseAPI.loading (UseAPI.apiCall s answer).1 = false)
  ∧ (∀ (A : Type) (s : UseAPI.State) (d : A),
       UseAPI.error (UseAPI.apiCall s (Fulfilled d)).1 = None)
  ∧ (∀ (A : Type) (s : UseAPI.State) (e : AxiosError),
       ∃ msg, UseAPI.error (UseAPI.apiCall (A := A) s (Rejected e)).1 = Some msg
              ∧ msg ≠ ""
              ∧ (∀ d, detailOf e = Some d → d ≠ "" → msg = d)
              ∧ (detailOf e = None ∨ detailOf e = Some "" →
                 message e ≠ "" → msg = message e)
              ∧ (detailOf e = None ∨ detailOf e = Some "" →
                 message e = "" → msg = "An unexpected error occurred"))
  ∧ (∀ s : UseAPI.State,
       UseAPI.error (UseAPI.clearError s) = None
       ∧ UseAPI.loading (UseAPI.clearError s) = UseAPI.loading s).
Proof.
  split; [|split; [|split]].
  - intros A s answer. by destruct answer.
  - done.
  - intros A s e. eexists. split; [reflexivity|].
    split; [by apply error_chain_nonempty|].
    apply error_chain_cases.
  - done.
Qed.

(** Witness for X24: a network failure without response. *)
Lemma apiCall_outcome_witness :
  UseAPI.error
    (UseAPI.apiCall (A := unit) {| UseAPI.loading := false; UseAPI.error := None |}
       (Rejected {| response := None; message := "Network Error" |})).1
  = Some "Network Error".
Proof.
  destruct (proj1 (proj2 (proj2 apiCall_outcome)) unit
              {| UseAPI.loading := false; UseAPI.error := None |}
              {| response := None; message := "Network Error" |})
    as (msg & Hm & _ & _ & Hmsg & _).
  rewrite Hm. f_equal. apply Hmsg; [by left | discriminate].
Defined.

(* ===================================================================== *)
(* Properties of the pages                                               *)
(* ===================================================================== *)

(** X25: the login form sends nothing while the username or the password
    is missing or empty: the session is untouched, no navigation happens
    and the form shows 'Please enter both username and password'; the next
    keystroke in a field stores the value and clears that message. *)
Theorem login_form_validation :
  (∀ (w : World) (s : LoginPage.State) (sp : option string)
     (answer : Settled LoginData),
     JS.truthy (LoginPage.formData s !! "username") = false
     ∨ JS.truthy (LoginPage.formData s !! "password") = false →
     LoginPage.handleSubmit w s sp answer
     = (w, {| LoginPage.formData := LoginPage.formData s;
              LoginPage.error := "Please enter both username and password" |},
        None))
  ∧ (∀ (s : LoginPage.State) (name value : string),
       LoginPage.error (LoginPage.handleInputChange s name value) = ""
       ∧ LoginPage.formData (LoginPage.handleInputChange s name value) !! name
         = Some value
       ∧ ∀ other, other ≠ name →
           LoginPage.formData (LoginPage.handleInputChange s name value) !! other
           = LoginPage.formData s !! other)
  ∧ (∀ (w : World) (sp : option string) (answer : Settled LoginData),
       (LoginPage.handleSubmit w LoginPage.initial sp answer).1.1 = w
       ∧ (LoginPage.handleSubmit w LoginPage.initial sp answer).2 = None).
Proof.
  split; [|split].
  - intros w s sp answer H. unfold LoginPage.handleSubmit. simpl.
    destruct H as [-> | ->]; simpl; [done|]. by rewrite orb_true_r.
  - intros s name value. unfold LoginPage.handleInputChange. simpl.
    split; [|split].
    + unfold JS.truthy. by destruct (String.eqb_spec (LoginPage.error s) "").
    + apply lookup_insert_eq.
    + intros other Hne. by apply lookup_insert_ne.
  - intros w sp answer. done.
Qed.

(** Witness for X25: only the username was typed. *)
Lemma login_form_validation_witness :
  let s := LoginPage.handleInputChange LoginPage.initial "username" "olga" in
  let w := AuthProvider ∅ "/login" in
  (LoginPage.handleSubmit w s None (Fulfilled {| access_token := "t1"; user := viewer |})).2
  = None.
Proof.
  intros s w.
  rewrite (proj1 login_form_validation w s None _); [reflexivity|].
  right. reflexivity.
Defined.

(** X26: with both fields filled in, the login form navigates to the page
    it came from (the dashboard by default) for every answer of the
    backend and never shows an error: the provider's login reports a failed
    login in its result, which the form does not read, so its catch clause
    is never reached.  After a failed login from a logged-out session the
    target redirects back to /login. *)
Theorem login_form_always_navigates :
  (∀ (w : World) (s : LoginPage.State) (sp : option string)
     (answer : Settled LoginData) (un pw : string),
     LoginPage.formData s !! "username" = Some un → un ≠ "" →
     LoginPage.formData s !! "password" = Some pw → pw ≠ "" →
     LoginPage.handleSubmit w s sp answer
     = ((login w un pw answer).1,
        {| LoginPage.formData := LoginPage.formData s; LoginPage.error := "" |},
        Some (LoginPage.from sp)))
  ∧ (LoginPage.from None = "/dashboard" ∧ LoginPage.from (Some "") = "/dashboard"
     ∧ ∀ p, p ≠ "" → LoginPage.from (Some p) = p)
  ∧ (∀ (w : World) (s : LoginPage.State) (e : AxiosError) (un pw : string)
       (st : RoleState),
       LoginPage.formData s !! "username" = Some un → un ≠ "" →
       LoginPage.formData s !! "password" = Some pw → pw ≠ "" →
       currentUser w = None → loading w = false →
       let out := LoginPage.handleSubmit w s None (Rejected e) in
       out.2 = Some "/dashboard"
       ∧ LoginPage.error out.1.2 = ""
       ∧ Routes out.1.1 st "/dashboard" = JS.Normal (Navigate "/login")).
Proof.
  assert (Hsub : ∀ (w : World) (s : LoginPage.State) (sp : option string)
     (answer : Settled LoginData) (un pw : string),
     LoginPage.formData s !! "username" = Some un → un ≠ "" →
     LoginPage.formData s !! "password" = Some pw → pw ≠ "" →
     LoginPage.handleSubmit w s sp answer
     = ((login w un pw answer).1,
        {| LoginPage.formData := LoginPage.formData s; LoginPage.error := "" |},
        Some (LoginPage.from sp))).
  { intros w s sp answer un pw Hu Hun Hp Hpn.
    unfold LoginPage.handleSubmit, LoginPage.loginPromise. simpl.
    rewrite Hu, Hp. apply truthy_Some in Hun, Hpn. rewrite Hun, Hpn. simpl.
    by destruct (login w un pw answer). }
  split; [exact Hsub|]. split.
  - split; [done|]. split; [done|].
    intros p Hp. unfold LoginPage.from, JS.str_or.
    by destruct (String.eqb_spec p "").
  - intros w s e un pw st Hu Hun Hp Hpn Hcu Hl out. subst out.
    rewrite (Hsub w s None (Rejected e) un pw Hu Hun Hp Hpn). simpl.
    split; [done|]. split; [done|].
    change (Routes (responseInterceptor w e) st "/dashboard")
      with (ProtectedRoute (responseInterceptor w e) st None (Page "DashboardPage")).
    unfold ProtectedRoute, hasUser.
    destruct (responseInterceptor_cells w e) as (_ & -> & -> & _).
    by rewrite Hl, Hcu.
Qed.

(** Witness for X26: wrong credentials on a fresh page. *)
Lemma login_form_always_navigates_witness :
  let w := initialize (AuthProvider ∅ "/login") (Fulfilled viewer) in
  let s := LoginPage.handleInputChange
             (LoginPage.handleInputChange LoginPage.initial "username" "olga")
             "password" "wrong" in
  let e := {| response := Some {| status := 400;
                                  detail := Some "Incorrect username or password" |};
              message := "Request failed with status code 400" |} in
  LoginPage.error (LoginPage.handleSubmit w s None (Rejected e)).1.2 = "".
Proof.
  intros w s e.
  rewrite (proj1 login_form_always_navigates w s None (Rejected e) "olga" "wrong");
    [reflexivity | reflexivity | discriminate | reflexivity | discriminate].
Defined.

Lemma alternates_snoc_pair (l : list AIQueryPage.Message) (b : bool)
    (userText reply : string) :
  AIQueryPage.alternates b l = true →
  AIQueryPage.alternates b
    (l ++ [ {| AIQueryPage.sender := "user"; AIQueryPage.text := userText |};
            {| AIQueryPage.sender := "ai"; AIQueryPage.text := reply |} ]) = true.
Proof.
  revert b. induction l as [|m l IH]; intros b H; simpl in *.
  - by destruct b.
  - apply andb_true_iff in H as [H1 H2]. rewrite H1. simpl. by apply IH.
Qed.

(** X27: handleSend does nothing for an input that trims to the empty
    string.  Otherwise it appends exactly two messages, the user's input
    and then the assistant's reply (the backend's answer, or the apology
    when the call failed), empties the input and ends with loading false;
    the request it sends holds the whole earlier conversation, message for
    message and in order, followed by the input as a user message. *)
Theorem handleSend_effect :
  (∀ (trim : string → string) (w : World) (s : AIQueryPage.State)
     (answer : Settled string),
     trim (AIQueryPage.input s) = "" →
     AIQueryPage.handleSend trim w s answer = (w, s))
  ∧ (∀ (trim : string → string) (w : World) (s : AIQueryPage.State)
       (answer : Settled string),
       trim (AIQueryPage.input s) ≠ "" →
       let s' := (AIQueryPage.handleSend trim w s answer).2 in
       AIQueryPage.messages s'
       = (AIQueryPage.messages s
          ++ [ {| AIQueryPage.sender := "user";
                  AIQueryPage.text := AIQueryPage.input s |};
               {| AIQueryPage.sender := "ai";
                  AIQueryPage.text :=
                    match answer with
                    | Fulfilled data => data
                    | Rejected _ =>
                        "Sorry, there was an error contacting the AI service."
                    end |} ])%list
       ∧ length (AIQueryPage.messages s')
         = (length (AIQueryPage.messages s) + 2)%nat
       ∧ AIQueryPage.input s' = ""
       ∧ AIQueryPage.loading s' = false)
  ∧ (∀ s : AIQueryPage.State,
       length (AIQueryPage.requestMessages s)
       = (length (AIQueryPage.messages s) + 1)%nat
       ∧ AIQueryPage.content <$> AIQueryPage.requestMessages s
         = ((AIQueryPage.text <$> AIQueryPage.messages s)
            ++ [AIQueryPage.input s])%list
       ∧ last (AIQueryPage.requestMessages s)
         = Some {| AIQueryPage.role := "user";
                   AIQueryPage.content := AIQueryPage.input s |}
       ∧ ∀ m, m ∈ AIQueryPage.requestMessages s →
              AIQueryPage.role m = "assistant" ∨ AIQueryPage.role m = "user").
Proof.
  split; [|split].
  - intros trim w s answer H. unfold AIQueryPage.handleSend. by rewrite H.
  - intros trim w s answer H s'. subst s'. unfold AIQueryPage.handleSend.
    apply truthy_Some in H. rewrite H. simpl.
    destruct answer as [d|e]; simpl;
      rewrite <- app_assoc; simpl; rewrite !length_app; simpl; done.
  - intros s. unfold AIQueryPage.requestMessages, AIQueryPage.getOpenAIMessages.
    split; [|split; [|split]].
    + by rewrite length_app, length_fmap.
    + rewrite fmap_app, <- list_fmap_compose. done.
    + apply last_snoc.
    + intros m Hm. apply elem_of_app in Hm as [Hm|Hm].
      * apply list_elem_of_fmap in Hm as (msg & -> & _). simpl.
        destruct (String.eqb (AIQueryPage.sender msg) "ai"); auto.
      * apply list_elem_of_singleton in Hm as ->. by right.
Qed.

(** Witness for X27: a question and a blank input, with the identity as
    trim. *)
Lemma handleSend_effect_witness :
  let ask := {| AIQueryPage.messages := AIQueryPage.messages AIQueryPage.initial;
                AIQueryPage.input := "freeboard?"; AIQueryPage.loading := false |} in
  let w := AuthProvider ∅ "/ai-query" in
  length (AIQueryPage.messages
            (AIQueryPage.handleSend (λ x, x) w ask (Fulfilled "1.2 m")).2) = 3%nat
  ∧ AIQueryPage.handleSend (λ x, x) w AIQueryPage.initial (Fulfilled "1.2 m")
    = (w, AIQueryPage.initial).
Proof.
  intros ask w. split.
  - destruct (proj1 (proj2 handleSend_effect) (λ x, x) w ask (Fulfilled "1.2 m"))
      as (_ & Hlen & _); [discriminate|].
    exact Hlen.
  - apply (proj1 handleSend_effect (λ x, x) w AIQueryPage.initial). reflexivity.
Defined.

(** X28: the conversation keeps its shape under every sequence of sends,
    answered or failed, blank or not: it starts and ends with a message of
    the assistant and the senders alternate.  The Enter key sends only
    while no request is pending, other keys never send, and the Send button
    is disabled exactly when a request is pending or the input is blank. *)
Theorem conversation_alternates :
  (∀ (trim : string → string)
     (sends : list (string * Settled string)) (w : World),
     let final :=
       foldl (λ (ws : World * AIQueryPage.State) (x : string * Settled string),
                AIQueryPage.handleSend trim ws.1
                  {| AIQueryPage.messages := AIQueryPage.messages ws.2;
                     AIQueryPage.input := x.1;
                     AIQueryPage.loading := AIQueryPage.loading ws.2 |} x.2)
             (w, AIQueryPage.initial) sends in
     AIQueryPage.alternates true (AIQueryPage.messages final.2) = true
     ∧ AIQueryPage.loading final.2 = false)
  ∧ (∀ (trim : string → string) (w : World) (s : AIQueryPage.State)
       (key : string) (answer : Settled string),
       AIQueryPage.loading s = true ∨ key ≠ "Enter" →
       AIQueryPage.handleInputKeyDown trim w s key answer = (w, s))
  ∧ (∀ (trim : string → string) (w : World) (s : AIQueryPage.State)
       (answer : Settled string),
       AIQueryPage.loading s = false →
       AIQueryPage.handleInputKeyDown trim w s "Enter" answer
       = AIQueryPage.handleSend trim w s answer)
  ∧ (∀ (trim : string → string) (s : AIQueryPage.State),
       AIQueryPage.sendDisabled trim s = false
       ↔ AIQueryPage.loading s = false ∧ trim (AIQueryPage.input s) ≠ "").
Proof.
  split; [|split; [|split]].
  - intros trim sends w.
    assert (H : ∀ (ws : World * AIQueryPage.State),
      AIQueryPage.alternates true (AIQueryPage.messages ws.2) = true
      ∧ AIQueryPage.loading ws.2 = false →
      let final :=
        foldl (λ (ws : World * AIQueryPage.State) (x : string * Settled string),
                 AIQueryPage.handleSend trim ws.1
                   {| AIQueryPage.messages := AIQueryPage.messages ws.2;
                      AIQueryPage.input := x.1;
                      AIQueryPage.loading := AIQueryPage.loading ws.2 |} x.2)
              ws sends in
      AIQueryPage.alternates true (AIQueryPage.messages final.2) = true
      ∧ AIQueryPage.loading final.2 = false).
    { induction sends as [|[inp a] sends IH]; intros ws Hws; [exact Hws|].
      simpl. apply IH. destruct Hws as [Hal Hl].
      unfold AIQueryPage.handleSend. simpl.
      destruct (trim inp =? "")%string; simpl; [by split|].
      split; [|by destruct a].
      destruct a as [d|e]; simpl; rewrite <- app_assoc;
        by apply alternates_snoc_pair. }
    apply H. by split.
  - intros trim w s key answer H. unfold AIQueryPage.handleInputKeyDown.
    destruct H as [-> | H].
    + by rewrite andb_false_r.
    + by destruct (String.eqb_spec key "Enter").
  - intros trim w s answer H. unfold AIQueryPage.handleInputKeyDown.
    by rewrite H.
  - intros trim s. unfold AIQueryPage.sendDisabled.
    rewrite orb_false_iff, negb_false_iff, truthy_Some. done.
Qed.

(** Witness for X28: typing while a request is pending. *)
Lemma conversation_alternates_witness :
  let s := {| AIQueryPage.messages := AIQueryPage.messages AIQueryPage.initial;
              AIQueryPage.input := "status"; AIQueryPage.loading := true |} in
  let w := AuthProvider ∅ "/ai-query" in
  AIQueryPage.handleInputKeyDown (λ x, x) w s "Enter" (Fulfilled "ok") = (w, s).
Proof.
  intros s w.
  apply (proj1 (proj2 conversation_alternates) (λ x, x) w s "Enter" (Fulfilled "ok")).
  left. reflexivity.
Defined.

Lemma act_consistent (ws : World * DocumentsUploadPage.State)
    (a : DocumentsUploadPage.Action) :
  uploadConsistent ws.2 → uploadConsistent (DocumentsUploadPage.act ws a).2.
Proof.
  intros [Hu Hn]. destruct a as [files|answer]; simpl.
  - split; [exact Hu|]. by intros [_ [? ?]].
  - unfold DocumentsUploadPage.handleUpload.
    destruct (DocumentsUploadPage.file ws.2); [|by split].
    destruct answer as [d|e]; simpl; (split; [done|]).
    + by intros [_ [? ?]].
    + by intros [[? ?] _].
Qed.

(** X29: on the upload page, an upload without a chosen file does nothing.
    With a file, the upload ends idle with exactly one alert: success, and
    the file is dropped, so that a second click uploads nothing; or error,
    and the file is kept for a retry.  Choosing a file clears both alerts.
    Along every sequence of file choices and uploads the page is idle
    between actions and never shows both alerts. *)
Theorem upload_page_states :
  (∀ (w : World) (s : DocumentsUploadPage.State) (answer : Settled unit),
     DocumentsUploadPage.file s = None →
     DocumentsUploadPage.handleUpload w s answer = (w, s))
  ∧ (∀ (w : World) (s : DocumentsUploadPage.State) (f : string) (d : unit),
       DocumentsUploadPage.file s = Some f →
       let out := DocumentsUploadPage.handleUpload w s (Fulfilled d) in
       out.1 = w
       ∧ is_Some (DocumentsUploadPage.success out.2)
       ∧ DocumentsUploadPage.error out.2 = None
       ∧ DocumentsUploadPage.file out.2 = None
       ∧ DocumentsUploadPage.uploading out.2 = false
       ∧ ∀ answer, DocumentsUploadPage.handleUpload out.1 out.2 answer = out)
  ∧ (∀ (w : World) (s : DocumentsUploadPage.State) (f : string) (e : AxiosError),
       DocumentsUploadPage.file s = Some f →
       let out := DocumentsUploadPage.handleUpload w s (Rejected e) in
       DocumentsUploadPage.success out.2 = None
       ∧ DocumentsUploadPage.error out.2 = Some "Upload failed. Please try again."
       ∧ DocumentsUploadPage.file out.2 = Some f
       ∧ DocumentsUploadPage.uploading out.2 = false
       ∧ DocumentsUploadPage.uploadDisabled out.2 = false)
  ∧ (∀ (s : DocumentsUploadPage.State) (files : list string),
       DocumentsUploadPage.success (DocumentsUploadPage.handleFileChange s files)
         = None
       ∧ DocumentsUploadPage.error (DocumentsUploadPage.handleFileChange s files)
         = None
       ∧ DocumentsUploadPage.file (DocumentsUploadPage.handleFileChange s files)
         = head files)
  ∧ (∀ (w : World) (actions : list DocumentsUploadPage.Action),
       uploadConsistent
         (foldl DocumentsUploadPage.act (w, DocumentsUploadPage.initial) actions).2).
Proof.
  split; [|split; [|split; [|split]]].
  - intros w s answer H. unfold DocumentsUploadPage.handleUpload. by rewrite H.
  - intros w s f d H out. subst out. unfold DocumentsUploadPage.handleUpload.
    rewrite H. simpl. repeat split; try done; by eexists.
  - intros w s f e H out. subst out. unfold DocumentsUploadPage.handleUpload.
    rewrite H. simpl. unfold DocumentsUploadPage.uploadDisabled. simpl.
    rewrite ?H. done.
  - done.
  - intros w actions.
    assert (H : ∀ ws, uploadConsistent ws.2 →
                      uploadConsistent (foldl DocumentsUploadPage.act ws actions).2).
    { induction actions as [|a actions IH]; intros ws Hws; [exact Hws|].
      simpl. apply IH. by apply act_consistent. }
    apply H. split; [done|]. by intros [[? ?] _].
Qed.

(** Witness for X29: a file is chosen and the upload fails. *)
Lemma upload_page_states_witness :
  let s := DocumentsUploadPage.handleFileChange DocumentsUploadPage.initial
             ["survey.pdf"] in
  let w := AuthProvider {[ TOKEN_KEY := "t1" ]} "/documents/upload" in
  DocumentsUploadPage.file
    (DocumentsUploadPage.handleUpload w s
       (Rejected {| response := None; message := "Network Error" |})).2
  = Some "survey.pdf".
Proof.
  intros s w.
  destruct (proj1 (proj2 (proj2 upload_page_states)) w s "survey.pdf"
              {| response := None; message := "Network Error" |} eq_refl)
    as (_ & _ & H & _).
  exact H.
Defined.

(* ===================================================================== *)
(* Properties of the query client configuration                          *)
(* ===================================================================== *)

Lemma pow2_ge_32 (n : Z) : (5 ≤ n)%Z → (32 ≤ 2 ^ n)%Z.
Proof.
  intros H. change 32%Z with (2 ^ 5)%Z. apply Z.pow_le_mono_r; lia.
Qed.

(** X30: the retry delay starts at one second, doubles with each attempt
    up to the fourth, and is 30 seconds from the fifth attempt on; it never
    decreases and always lies between 1000 and 30000 ms. *)
Theorem retryDelay_bounds :
  (∀ n : N, (1000 ≤ retryDelay n ≤ 30000)%Z)
  ∧ (∀ n m : N, (n ≤ m)%N → (retryDelay n ≤ retryDelay m)%Z)
  ∧ (∀ n : N, (n < 4)%N → retryDelay (n + 1) = (2 * retryDelay n)%Z)
  ∧ (∀ n : N, (5 ≤ n)%N → retryDelay n = 30000%Z)
  ∧ (∀ n : N, (n < 5)%N → retryDelay n = (1000 * 2 ^ Z.of_N n)%Z)
  ∧ retryDelay <$> [0; 1; 2; 3; 4; 5]%N = [1000; 2000; 4000; 8000; 16000; 30000]%Z.
Proof.
  assert (Hsmall : ∀ n : N, (n < 5)%N → retryDelay n = (1000 * 2 ^ Z.of_N n)%Z).
  { intros n Hn. unfold retryDelay.
    assert (n = 0 ∨ n = 1 ∨ n = 2 ∨ n = 3 ∨ n = 4)%N as Hc by lia.
    repeat destruct Hc as [Hc|Hc]; subst n; reflexivity. }
  assert (Hcap : ∀ n : N, (5 ≤ n)%N → retryDelay n = 30000%Z).
  { intros n Hn. unfold retryDelay.
    pose proof (pow2_ge_32 (Z.of_N n)). lia. }
  assert (Hpos : ∀ n : N, (1000 ≤ retryDelay n ≤ 30000)%Z).
  { intros n. unfold retryDelay.
    assert (0 < 2 ^ Z.of_N n)%Z by (apply Z.pow_pos_nonneg; lia).
    lia. }
  split; [exact Hpos|]. split; [|split; [|split; [exact Hcap|split; [exact Hsmall|]]]].
  - intros n m Hnm. unfold retryDelay.
    assert (2 ^ Z.of_N n ≤ 2 ^ Z.of_N m)%Z by (apply Z.pow_le_mono_r; lia).
    lia.
  - intros n Hn.
    assert (n = 0 ∨ n = 1 ∨ n = 2 ∨ n = 3)%N as Hc by lia.
    repeat destruct Hc as [Hc|Hc]; subst n; reflexivity.
  - reflexivity.
Qed.

(** Witness for X30 at the third and the tenth attempt. *)
Lemma retryDelay_bounds_witness :
  retryDelay 3 = (2 * retryDelay 2)%Z ∧ retryDelay 10 = 30000%Z.
Proof.
  split.
  - apply (proj1 (proj2 (proj2 retryDelay_bounds)) 2%N). reflexivity.
  - apply (proj1 (proj2 (proj2 (proj2 retryDelay_bounds))) 10%N). discriminate.
Defined.
